(** * Shallow embedding of the chess rules engine (src-tauri/src/chess_engine)

    Integers of the Rust code (u8, i8, u32, u64) are modelled as [Z]; the
    places where the source could wrap are written out explicitly.  Strings
    (&str / String) are modelled as lists of Unicode scalar values ([list Z]),
    which is what [str::chars] iterates over. *)

From Stdlib Require Import String Ascii ZArith List Bool Lia Setoid.
Import ListNotations.
Open Scope Z_scope.

(* ------------------------------------------------------------------ *)
(** ** types.rs *)

Inductive Color := White | Black.

Definition Color_opposite (c : Color) : Color :=
  match c with White => Black | Black => White end.

Definition Color_eqb (a b : Color) : bool :=
  match a, b with
  | White, White | Black, Black => true
  | _, _ => false
  end.

Inductive Piece := Pawn | Knight | Bishop | Rook | Queen | King.

Definition Piece_eqb (a b : Piece) : bool :=
  match a, b with
  | Pawn, Pawn | Knight, Knight | Bishop, Bishop
  | Rook, Rook | Queen, Queen | King, King => true
  | _, _ => false
  end.

(** [Square { index: u8 }], invariant [index < 64]. *)
Record Square := mkSquare { index : Z }.

Definition Square_eqb (a b : Square) : bool := Z.eqb (index a) (index b).

Definition Square_new (i : Z) : option Square :=
  if i <? 64 then Some (mkSquare i) else None.

(** [index / 8] and [index % 8], written as the shift and mask they are on
    a non-negative index (see [Square_rank_div] and [Square_file_mod]). *)
Definition Square_rank (s : Square) : Z := Z.shiftr (index s) 3.
Definition Square_file (s : Square) : Z := Z.land (index s) 7.

Definition Square_from_rank_file (rank file : Z) : option Square :=
  if (rank <? 8) && (file <? 8) then Some (mkSquare (rank * 8 + file)) else None.

Record Move := mkMove {
  from : Square;
  to : Square;
  promotion : option Piece;
  is_castling : bool;
  is_en_passant : bool
}.

Definition Move_new (f t : Square) : Move := mkMove f t None false false.

Definition option_eqb {A} (eqb : A -> A -> bool) (a b : option A) : bool :=
  match a, b with
  | Some x, Some y => eqb x y
  | None, None => true
  | _, _ => false
  end.

(** Derived [PartialEq] on [Move]: structural on all fields. *)
Definition Move_eqb (a b : Move) : bool :=
  Square_eqb (from a) (from b) && Square_eqb (to a) (to b)
  && option_eqb Piece_eqb (promotion a) (promotion b)
  && Bool.eqb (is_castling a) (is_castling b)
  && Bool.eqb (is_en_passant a) (is_en_passant b).

Inductive GameStatus :=
  | InProgress
  | Check
  | Checkmate (winner : Color)
  | Stalemate
  | DrawByFiftyMoveRule
  | DrawByInsufficientMaterial
  | DrawByRepetition.

(* ------------------------------------------------------------------ *)
(** ** board.rs *)

(** [Board { squares: [Option<(Piece, Color)>; 64] }].  The 64 cells are
    held in a perfect binary tree of depth 6 that branches on the bits of
    the index, most significant first, so that its leaves from left to right
    are [squares[0]], ..., [squares[63]]. *)
Definition Cell := option (Piece * Color).

Definition node (A : Type) : Type := (A * A)%type.

Definition get_node {A} (bit : Z) (get : A -> Z -> Cell) (t : node A) (i : Z) : Cell :=
  if Z.testbit i bit then get (snd t) i else get (fst t) i.

Definition set_node {A} (bit : Z) (set : A -> Z -> Cell -> A) (t : node A) (i : Z) (x : Cell)
    : node A :=
  if Z.testbit i bit then (fst t, set (snd t) i x) else (set (fst t) i x, snd t).

(** Leaves from left to right, prepended to [acc]. *)
Definition list_node {A} (to_list : A -> list Cell -> list Cell) (t : node A) (acc : list Cell)
    : list Cell :=
  to_list (fst t) (to_list (snd t) acc).

Definition get_leaf (c : Cell) (_ : Z) : Cell := c.
Definition set_leaf (_ : Cell) (_ : Z) (x : Cell) : Cell := x.
Definition list_leaf (c : Cell) (acc : list Cell) : list Cell := c :: acc.

Definition Cells2 := node Cell.
Definition Cells4 := node Cells2.
Definition Cells8 := node Cells4.
Definition Cells16 := node Cells8.
Definition Cells32 := node Cells16.
Definition Cells64 := node Cells32.

Definition cells_get : Cells64 -> Z -> Cell :=
  get_node 5 (get_node 4 (get_node 3 (get_node 2 (get_node 1 (get_node 0 get_leaf))))).

Definition cells_set : Cells64 -> Z -> Cell -> Cells64 :=
  set_node 5 (set_node 4 (set_node 3 (set_node 2 (set_node 1 (set_node 0 set_leaf))))).

(** The array as the list [squares[0], ..., squares[63]]. *)
Definition cells_to_list (t : Cells64) : list Cell :=
  list_node (list_node (list_node (list_node (list_node (list_node list_leaf))))) t [].

Definition cells_empty : Cells64 :=
  let c2 : Cells2 := (None, None) in
  let c4 : Cells4 := (c2, c2) in
  let c8 : Cells8 := (c4, c4) in
  let c16 : Cells16 := (c8, c8) in
  let c32 : Cells32 := (c16, c16) in
  (c32, c32).

Record Board := mkBoard { squares : Cells64 }.

(** The range [0..64] of square indices. *)
Definition ALL_SQUARES : list Z :=
  [0; 1; 2; 3; 4; 5; 6; 7; 8; 9; 10; 11; 12; 13; 14; 15;
   16; 17; 18; 19; 20; 21; 22; 23; 24; 25; 26; 27; 28; 29; 30; 31;
   32; 33; 34; 35; 36; 37; 38; 39; 40; 41; 42; 43; 44; 45; 46; 47;
   48; 49; 50; 51; 52; 53; 54; 55; 56; 57; 58; 59; 60; 61; 62; 63].

Definition Board_new : Board := mkBoard cells_empty.

Definition Board_get (b : Board) (sq : Square) : Cell :=
  cells_get (squares b) (index sq).

Definition Board_set (b : Board) (sq : Square) (p : Cell) : Board :=
  mkBoard (cells_set (squares b) (index sq) p).

Definition Board_is_empty (b : Board) (sq : Square) : bool :=
  match Board_get b sq with None => true | Some _ => false end.

(** [board.set(Square::new(i).unwrap(), x)] for a constant in-range [i]. *)
Definition set_at (i : Z) (x : Cell) (b : Board) : Board :=
  Board_set b (mkSquare i) x.

Definition Board_initial_position : Board :=
  let b := Board_new in
  let b := set_at 0 (Some (Rook, White)) b in
  let b := set_at 1 (Some (Knight, White)) b in
  let b := set_at 2 (Some (Bishop, White)) b in
  let b := set_at 3 (Some (Queen, White)) b in
  let b := set_at 4 (Some (King, White)) b in
  let b := set_at 5 (Some (Bishop, White)) b in
  let b := set_at 6 (Some (Knight, White)) b in
  let b := set_at 7 (Some (Rook, White)) b in
  let b := fold_left (fun b i => set_at i (Some (Pawn, White)) b)
             [8; 9; 10; 11; 12; 13; 14; 15] b in
  let b := fold_left (fun b i => set_at i (Some (Pawn, Black)) b)
             [48; 49; 50; 51; 52; 53; 54; 55] b in
  let b := set_at 56 (Some (Rook, Black)) b in
  let b := set_at 57 (Some (Knight, Black)) b in
  let b := set_at 58 (Some (Bishop, Black)) b in
  let b := set_at 59 (Some (Queen, Black)) b in
  let b := set_at 60 (Some (King, Black)) b in
  let b := set_at 61 (Some (Bishop, Black)) b in
  let b := set_at 62 (Some (Knight, Black)) b in
  let b := set_at 63 (Some (Rook, Black)) b in
  b.

(** [for i in 0..64 { if let Some((King, c)) = squares[i] { if c == color
    { return Square::new(i) } } }; None] *)
Definition Board_find_king (b : Board) (color : Color) : option Square :=
  let fix go (l : list (Z * Cell)) :=
    match l with
    | [] => None
    | (i, cell) :: l' =>
        match cell with
        | Some (King, c) => if Color_eqb c color then Square_new i else go l'
        | _ => go l'
        end
    end in
  go (combine ALL_SQUARES (cells_to_list (squares b))).

Definition Board_pieces_of_color (b : Board) (color : Color) : list (Square * Piece) :=
  flat_map (fun '(i, cell) =>
    match cell with
    | Some (piece, c) => if Color_eqb c color then [(mkSquare i, piece)] else []
    | None => []
    end) (combine ALL_SQUARES (cells_to_list (squares b))).

Definition is_valid_square (rank file : Z) : bool :=
  (0 <=? rank) && (rank <? 8) && (0 <=? file) && (file <? 8).

(** The [loop] of [is_attacked_along_ray]: a ray leaves the board after at
    most 8 steps, so 8 iterations of fuel run the loop to its [break]. *)
Fixpoint ray_attack (fuel : nat) (b : Board) (attacker_color : Color)
    (rank file rank_dir file_dir : Z) (piece_types : list Piece) : bool :=
  match fuel with
  | O => false
  | S fuel' =>
      let rank := rank + rank_dir in
      let file := file + file_dir in
      if negb (is_valid_square rank file) then false else
      match Square_from_rank_file rank file with
      | Some sq =>
          match Board_get b sq with
          | Some (piece, color) =>
              Color_eqb color attacker_color && existsb (Piece_eqb piece) piece_types
          | None => ray_attack fuel' b attacker_color rank file rank_dir file_dir piece_types
          end
      | None => ray_attack fuel' b attacker_color rank file rank_dir file_dir piece_types
      end
  end.

Definition Board_is_attacked_along_ray (b : Board) (square : Square) (attacker_color : Color)
    (rank_dir file_dir : Z) (piece_types : list Piece) : bool :=
  ray_attack 8 b attacker_color (Square_rank square) (Square_file square)
    rank_dir file_dir piece_types.

Definition KNIGHT_OFFSETS : list (Z * Z) :=
  [(-2, -1); (-2, 1); (-1, -2); (-1, 2); (1, -2); (1, 2); (2, -1); (2, 1)].

Definition KING_OFFSETS : list (Z * Z) :=
  [(-1, -1); (-1, 0); (-1, 1); (0, -1); (0, 1); (1, -1); (1, 0); (1, 1)].

Definition BISHOP_DIRECTIONS : list (Z * Z) := [(-1, -1); (-1, 1); (1, -1); (1, 1)].
Definition ROOK_DIRECTIONS : list (Z * Z) := [(-1, 0); (1, 0); (0, -1); (0, 1)].

(** Is the piece [(kind, attacker_color)] on square (r, f)? *)
Definition piece_at_is (b : Board) (r f : Z) (kind : Piece) (attacker_color : Color) : bool :=
  match Square_from_rank_file r f with
  | Some sq =>
      match Board_get b sq with
      | Some (p, color) => Piece_eqb p kind && Color_eqb color attacker_color
      | None => false
      end
  | None => false
  end.

(** The early [return true]s of the source are the disjuncts below. *)
Definition Board_is_attacked_by (b : Board) (square : Square) (attacker_color : Color) : bool :=
  let target_rank := Square_rank square in
  let target_file := Square_file square in
  let pawn_direction := if Color_eqb attacker_color White then 1 else -1 in
  let pawn_rank := target_rank - pawn_direction in
  ((0 <=? pawn_rank) && (pawn_rank <? 8) &&
    existsb (fun file_offset =>
      let pawn_file := target_file + file_offset in
      (0 <=? pawn_file) && (pawn_file <? 8) &&
      piece_at_is b pawn_rank pawn_file Pawn attacker_color) [-1; 1])
  || existsb (fun '(ro, fo) =>
       let r := target_rank + ro in let f := target_file + fo in
       is_valid_square r f && piece_at_is b r f Knight attacker_color) KNIGHT_OFFSETS
  || existsb (fun '(ro, fo) =>
       let r := target_rank + ro in let f := target_file + fo in
       is_valid_square r f && piece_at_is b r f King attacker_color) KING_OFFSETS
  || existsb (fun '(rd, fd) =>
       Board_is_attacked_along_ray b square attacker_color rd fd [Bishop; Queen])
       BISHOP_DIRECTIONS
  || existsb (fun '(rd, fd) =>
       Board_is_attacked_along_ray b square attacker_color rd fd [Rook; Queen])
       ROOK_DIRECTIONS.

(* ------------------------------------------------------------------ *)
(** ** position.rs *)

Record CastlingRights := mkCastlingRights {
  white_kingside : bool;
  white_queenside : bool;
  black_kingside : bool;
  black_queenside : bool
}.

Definition CastlingRights_new : CastlingRights := mkCastlingRights true true true true.
Definition CastlingRights_none : CastlingRights := mkCastlingRights false false false false.

Definition CastlingRights_can_castle (cr : CastlingRights) (color : Color) (kingside : bool) : bool :=
  match color, kingside with
  | White, true => white_kingside cr
  | White, false => white_queenside cr
  | Black, true => black_kingside cr
  | Black, false => black_queenside cr
  end.

Definition set_white_kingside (cr : CastlingRights) (v : bool) : CastlingRights :=
  mkCastlingRights v (white_queenside cr) (black_kingside cr) (black_queenside cr).
Definition set_white_queenside (cr : CastlingRights) (v : bool) : CastlingRights :=
  mkCastlingRights (white_kingside cr) v (black_kingside cr) (black_queenside cr).
Definition set_black_kingside (cr : CastlingRights) (v : bool) : CastlingRights :=
  mkCastlingRights (white_kingside cr) (white_queenside cr) v (black_queenside cr).
Definition set_black_queenside (cr : CastlingRights) (v : bool) : CastlingRights :=
  mkCastlingRights (white_kingside cr) (white_queenside cr) (black_kingside cr) v.

(** [halfmove_clock], [fullmove_number]: u32; [position_history]: Vec<u64>
    (pushing appends at the end). *)
Record Position := mkPosition {
  board : Board;
  side_to_move : Color;
  castling_rights : CastlingRights;
  en_passant_target : option Square;
  halfmove_clock : Z;
  fullmove_number : Z;
  position_history : list Z
}.

Definition with_board (p : Position) (b : Board) : Position :=
  mkPosition b (side_to_move p) (castling_rights p) (en_passant_target p)
    (halfmove_clock p) (fullmove_number p) (position_history p).
Definition with_side_to_move (p : Position) (c : Color) : Position :=
  mkPosition (board p) c (castling_rights p) (en_passant_target p)
    (halfmove_clock p) (fullmove_number p) (position_history p).
Definition with_castling_rights (p : Position) (cr : CastlingRights) : Position :=
  mkPosition (board p) (side_to_move p) cr (en_passant_target p)
    (halfmove_clock p) (fullmove_number p) (position_history p).
Definition with_en_passant_target (p : Position) (ep : option Square) : Position :=
  mkPosition (board p) (side_to_move p) (castling_rights p) ep
    (halfmove_clock p) (fullmove_number p) (position_history p).
Definition with_halfmove_clock (p : Position) (n : Z) : Position :=
  mkPosition (board p) (side_to_move p) (castling_rights p) (en_passant_target p)
    n (fullmove_number p) (position_history p).
Definition with_fullmove_number (p : Position) (n : Z) : Position :=
  mkPosition (board p) (side_to_move p) (castling_rights p) (en_passant_target p)
    (halfmove_clock p) n (position_history p).
Definition with_position_history (p : Position) (h : list Z) : Position :=
  mkPosition (board p) (side_to_move p) (castling_rights p) (en_passant_target p)
    (halfmove_clock p) (fullmove_number p) h.

(** *** Zobrist tables: the LCG [ZobristRng] on wrapping u64 arithmetic *)

Definition U64_MOD : Z := 2 ^ 64.

Definition ZobristRng_next (state : Z) : Z :=
  ((state * 6364136223846793005) mod U64_MOD + 1442695040888963407) mod U64_MOD.

(** The first [n] values returned by [rng.next()] from [seed]. *)
Fixpoint zobrist_stream (state : Z) (n : nat) : list Z :=
  match n with
  | O => []
  | S n' => let s := ZobristRng_next state in s :: zobrist_stream s n'
  end.

(** [table[square][color][piece]] filled in the order square, color, piece:
    entry [square * 12 + color * 6 + piece] of the stream. *)
Definition ZOBRIST_PIECES : list Z := zobrist_stream 123456789 768.
Definition ZOBRIST_CASTLING : list Z := zobrist_stream 987654321 4.
Definition ZOBRIST_EN_PASSANT : list Z := zobrist_stream 456789123 8.
Definition ZOBRIST_SIDE_TO_MOVE : Z := ZobristRng_next 321654987.

Definition piece_index (p : Piece) : Z :=
  match p with
  | Pawn => 0 | Knight => 1 | Bishop => 2 | Rook => 3 | Queen => 4 | King => 5
  end.

Definition color_index (c : Color) : Z := match c with White => 0 | Black => 1 end.

Definition Position_compute_zobrist_hash (p : Position) : Z :=
  let hash := fold_left (fun hash i =>
      match Board_get (board p) (mkSquare i) with
      | Some (piece, color) =>
          Z.lxor hash (nth (Z.to_nat (i * 12 + color_index color * 6 + piece_index piece))
                          ZOBRIST_PIECES 0)
      | None => hash
      end) ALL_SQUARES 0 in
  let cr := castling_rights p in
  let hash := if white_kingside cr then Z.lxor hash (nth 0 ZOBRIST_CASTLING 0) else hash in
  let hash := if white_queenside cr then Z.lxor hash (nth 1 ZOBRIST_CASTLING 0) else hash in
  let hash := if black_kingside cr then Z.lxor hash (nth 2 ZOBRIST_CASTLING 0) else hash in
  let hash := if black_queenside cr then Z.lxor hash (nth 3 ZOBRIST_CASTLING 0) else hash in
  let hash := match en_passant_target p with
              | Some ep => Z.lxor hash (nth (Z.to_nat (Square_file ep)) ZOBRIST_EN_PASSANT 0)
              | None => hash
              end in
  if Color_eqb (side_to_move p) Black then Z.lxor hash ZOBRIST_SIDE_TO_MOVE else hash.

Definition Position_new : Position :=
  let position := mkPosition Board_initial_position White CastlingRights_new None 0 1 [] in
  let hash := Position_compute_zobrist_hash position in
  with_position_history position (position_history position ++ [hash]).

Definition Position_empty : Position :=
  mkPosition Board_new White CastlingRights_none None 0 1 [].

(** The counting loop of [is_repetition], returning as soon as [count >= 3]. *)
Fixpoint repetition_scan (current : Z) (l : list Z) (count : nat) : bool :=
  match l with
  | [] => false
  | h :: l' =>
      if Z.eqb h current then
        if (3 <=? S count)%nat then true else repetition_scan current l' (S count)
      else repetition_scan current l' count
  end.

Definition Position_is_repetition (p : Position) : bool :=
  if (length (position_history p) <? 3)%nat then false
  else repetition_scan (last (position_history p) 0) (position_history p) 0.

Definition is_minor (sp : Square * Piece) : bool :=
  Piece_eqb (snd sp) Bishop || Piece_eqb (snd sp) Knight.

Definition Position_has_insufficient_material (p : Position) : bool :=
  let white_pieces := Board_pieces_of_color (board p) White in
  let black_pieces := Board_pieces_of_color (board p) Black in
  let nw := length white_pieces in
  let nb := length black_pieces in
  if (nw =? 1)%nat && (nb =? 1)%nat then true
  else if (nw =? 1)%nat && (nb =? 2)%nat && existsb is_minor black_pieces then true
  else if (nb =? 1)%nat && (nw =? 2)%nat && existsb is_minor white_pieces then true
  else if (nw =? 2)%nat && (nb =? 2)%nat then
    match find (fun sp => Piece_eqb (snd sp) Bishop) white_pieces,
          find (fun sp => Piece_eqb (snd sp) Bishop) black_pieces with
    | Some (white_sq, _), Some (black_sq, _) =>
        Z.eqb ((Square_rank white_sq + Square_file white_sq) mod 2)
              ((Square_rank black_sq + Square_file black_sq) mod 2)
    | _, _ => false
    end
  else false.

Definition is_piece (x : option (Piece * Color)) (p : Piece) (c : Color) : bool :=
  match x with
  | Some (p', c') => Piece_eqb p' p && Color_eqb c' c
  | None => false
  end.

(** [update_castling_rights_after_move]: reads [self.board] as it is when
    called. *)
Definition Position_update_castling_rights_after_move (p : Position) (mv : Move) : Position :=
  let b := board p in
  let cr := castling_rights p in
  let cr := match Board_get b (from mv) with
            | Some (King, White) => set_white_queenside (set_white_kingside cr false) false
            | Some (King, Black) => set_black_queenside (set_black_kingside cr false) false
            | _ => cr
            end in
  let cr := match Board_get b (from mv) with
            | Some (Rook, color) =>
                match color, index (from mv) with
                | White, 0 => set_white_queenside cr false
                | White, 7 => set_white_kingside cr false
                | Black, 56 => set_black_queenside cr false
                | Black, 63 => set_black_kingside cr false
                | _, _ => cr
                end
            | _ => cr
            end in
  let cr := match index (to mv) with
            | 0 => if is_piece (Board_get b (to mv)) Rook White then set_white_queenside cr false else cr
            | 7 => if is_piece (Board_get b (to mv)) Rook White then set_white_kingside cr false else cr
            | 56 => if is_piece (Board_get b (to mv)) Rook Black then set_black_queenside cr false else cr
            | 63 => if is_piece (Board_get b (to mv)) Rook Black then set_black_kingside cr false else cr
            | _ => cr
            end in
  with_castling_rights p cr.

(* ------------------------------------------------------------------ *)
(** ** move_gen.rs *)

Definition PROMOTION_PIECES : list Piece := [Queen; Rook; Bishop; Knight].

Definition promotion_moves (f t : Square) : list Move :=
  map (fun pp => mkMove f t (Some pp) false false) PROMOTION_PIECES.

Definition generate_pawn_moves (b : Board) (from_sq : Square) (color : Color)
    (en_passant : option Square) : list Move :=
  let direction := if Color_eqb color White then 1 else -1 in
  let start_rank := if Color_eqb color White then 1 else 6 in
  let promotion_rank := if Color_eqb color White then 7 else 0 in
  let from_rank := Square_rank from_sq in
  let from_file := Square_file from_sq in
  (* Single push, and double push from the starting rank *)
  let one_ahead_rank := from_rank + direction in
  let pushes :=
    if is_valid_square one_ahead_rank from_file then
      match Square_from_rank_file one_ahead_rank from_file with
      | Some one_ahead =>
          if Board_is_empty b one_ahead then
            (if Z.eqb one_ahead_rank promotion_rank
             then promotion_moves from_sq one_ahead
             else [Move_new from_sq one_ahead])
            ++ (if Z.eqb from_rank start_rank then
                  let two_ahead_rank := from_rank + 2 * direction in
                  if is_valid_square two_ahead_rank from_file then
                    match Square_from_rank_file two_ahead_rank from_file with
                    | Some two_ahead =>
                        if Board_is_empty b two_ahead then [Move_new from_sq two_ahead] else []
                    | None => []
                    end
                  else []
                else [])
          else []
      | None => []
      end
    else [] in
  (* Captures, then en passant, for each side *)
  let captures := flat_map (fun file_offset =>
      let capture_rank := from_rank + direction in
      let capture_file := from_file + file_offset in
      if is_valid_square capture_rank capture_file then
        match Square_from_rank_file capture_rank capture_file with
        | Some capture_square =>
            let can_capture :=
              match Board_get b capture_square with
              | Some (_, piece_color) => negb (Color_eqb piece_color color)
              | None => false
              end in
            (if can_capture then
               (if Z.eqb capture_rank promotion_rank
                then promotion_moves from_sq capture_square
                else [Move_new from_sq capture_square])
             else [])
            ++ (match en_passant with
                | Some ep_target =>
                    if Square_eqb capture_square ep_target
                    then [mkMove from_sq capture_square None false true] else []
                | None => []
                end)
        | None => []
        end
      else []) [-1; 1] in
  pushes ++ captures.

(** Offset-table moves (knight, king): onto an empty or enemy square. *)
Definition generate_offset_moves (offsets : list (Z * Z)) (b : Board) (from_sq : Square)
    (color : Color) : list Move :=
  let from_rank := Square_rank from_sq in
  let from_file := Square_file from_sq in
  flat_map (fun '(rank_offset, file_offset) =>
    let to_rank := from_rank + rank_offset in
    let to_file := from_file + file_offset in
    if is_valid_square to_rank to_file then
      match Square_from_rank_file to_rank to_file with
      | Some to_square =>
          let can_move := match Board_get b to_square with
                          | Some (_, piece_color) => negb (Color_eqb piece_color color)
                          | None => true
                          end in
          if can_move then [Move_new from_sq to_square] else []
      | None => []
      end
    else []) offsets.

Definition generate_knight_moves := generate_offset_moves KNIGHT_OFFSETS.
Definition generate_king_moves := generate_offset_moves KING_OFFSETS.

(** The inner [loop] of [generate_sliding_moves] along one direction
    (at most 8 iterations before leaving the board). *)
Fixpoint slide (fuel : nat) (b : Board) (from_sq : Square) (color : Color)
    (rank file rank_dir file_dir : Z) : list Move :=
  match fuel with
  | O => []
  | S fuel' =>
      let rank := rank + rank_dir in
      let file := file + file_dir in
      if negb (is_valid_square rank file) then [] else
      match Square_from_rank_file rank file with
      | Some to_square =>
          match Board_get b to_square with
          | Some (_, piece_color) =>
              if negb (Color_eqb piece_color color) then [Move_new from_sq to_square] else []
          | None => Move_new from_sq to_square
                      :: slide fuel' b from_sq color rank file rank_dir file_dir
          end
      | None => slide fuel' b from_sq color rank file rank_dir file_dir
      end
  end.

Definition generate_sliding_moves (b : Board) (from_sq : Square) (color : Color)
    (directions : list (Z * Z)) : list Move :=
  flat_map (fun '(rank_dir, file_dir) =>
    slide 8 b from_sq color (Square_rank from_sq) (Square_file from_sq) rank_dir file_dir)
    directions.

Definition generate_bishop_moves (b : Board) (f : Square) (c : Color) : list Move :=
  generate_sliding_moves b f c BISHOP_DIRECTIONS.
Definition generate_rook_moves (b : Board) (f : Square) (c : Color) : list Move :=
  generate_sliding_moves b f c ROOK_DIRECTIONS.
Definition generate_queen_moves (b : Board) (f : Square) (c : Color) : list Move :=
  generate_bishop_moves b f c ++ generate_rook_moves b f c.

Definition is_own_piece (x : option (Piece * Color)) (p : Piece) (color : Color) : bool :=
  is_piece x p color.

Definition generate_castling_moves (position : Position) : list Move :=
  let color := side_to_move position in
  let b := board position in
  let rank := if Color_eqb color White then 0 else 7 in
  let sq := fun f => mkSquare (rank * 8 + f) in
  let kingside :=
    if CastlingRights_can_castle (castling_rights position) color true then
      let king_present := is_own_piece (Board_get b (sq 4)) King color in
      let rook_present := is_own_piece (Board_get b (sq 7)) Rook color in
      if king_present && rook_present && Board_is_empty b (sq 5) && Board_is_empty b (sq 6)
      then [mkMove (sq 4) (sq 6) None true false] else []
    else [] in
  let queenside :=
    if CastlingRights_can_castle (castling_rights position) color false then
      let king_present := is_own_piece (Board_get b (sq 4)) King color in
      let rook_present := is_own_piece (Board_get b (sq 0)) Rook color in
      if king_present && rook_present && Board_is_empty b (sq 1)
         && Board_is_empty b (sq 2) && Board_is_empty b (sq 3)
      then [mkMove (sq 4) (sq 2) None true false] else []
    else [] in
  kingside ++ queenside.

Definition generate_pseudo_legal_moves (position : Position) : list Move :=
  let color := side_to_move position in
  let b := board position in
  flat_map (fun '(square, piece) =>
    match piece with
    | Pawn => generate_pawn_moves b square color (en_passant_target position)
    | Knight => generate_knight_moves b square color
    | Bishop => generate_bishop_moves b square color
    | Rook => generate_rook_moves b square color
    | Queen => generate_queen_moves b square color
    | King => generate_king_moves b square color
    end) (Board_pieces_of_color b color)
  ++ generate_castling_moves position.

(* ------------------------------------------------------------------ *)
(** ** validation.rs *)

(** u8 subtraction; the release build wraps ([255] for [0 - 1]). *)
Definition u8_sub (a b : Z) : Z := (a - b) mod 256.

Definition apply_move_for_validation (position : Position) (mv : Move) : Position :=
  let b := board position in
  (* En passant capture *)
  let b :=
    if is_en_passant mv then
      let captured_pawn_rank :=
        if Color_eqb (side_to_move position) White
        then u8_sub (Square_rank (to mv)) 1 else Square_rank (to mv) + 1 in
      match Square_from_rank_file captured_pawn_rank (Square_file (to mv)) with
      | Some captured_square => Board_set b captured_square None
      | None => b
      end
    else b in
  (* Castling: the rook's relocation *)
  let b :=
    if is_castling mv then
      let rank := Square_rank (from mv) in
      if Square_file (to mv) >? Square_file (from mv) then
        let rook_from := mkSquare (rank * 8 + 7) in
        let rook_to := mkSquare (rank * 8 + 5) in
        let rook := Board_get b rook_from in
        Board_set (Board_set b rook_from None) rook_to rook
      else
        let rook_from := mkSquare (rank * 8 + 0) in
        let rook_to := mkSquare (rank * 8 + 3) in
        let rook := Board_get b rook_from in
        Board_set (Board_set b rook_from None) rook_to rook
    else b in
  (* Move the piece, with promotion *)
  let piece := Board_get b (from mv) in
  let b := Board_set b (from mv) None in
  let b := match promotion mv with
           | Some promotion_piece =>
               match piece with
               | Some (_, color) => Board_set b (to mv) (Some (promotion_piece, color))
               | None => b
               end
           | None => Board_set b (to mv) piece
           end in
  with_board position b.

Definition is_in_check (position : Position) (color : Color) : bool :=
  match Board_find_king (board position) color with
  | Some king_square => Board_is_attacked_by (board position) king_square (Color_opposite color)
  | None => false
  end.

Definition can_castle_kingside (position : Position) (color : Color) : bool :=
  if negb (CastlingRights_can_castle (castling_rights position) color true) then false else
  let b := board position in
  let rank := if Color_eqb color White then 0 else 7 in
  let king_square := mkSquare (rank * 8 + 4) in
  if negb (is_own_piece (Board_get b king_square) King color) then false else
  let rook_square := mkSquare (rank * 8 + 7) in
  let f_square := mkSquare (rank * 8 + 5) in
  let g_square := mkSquare (rank * 8 + 6) in
  if negb (is_own_piece (Board_get b rook_square) Rook color) then false else
  if negb (Board_is_empty b f_square) || negb (Board_is_empty b g_square) then false else
  if is_in_check position color then false else
  let opponent := Color_opposite color in
  if Board_is_attacked_by b f_square opponent then false else
  if Board_is_attacked_by b g_square opponent then false else
  true.

Definition can_castle_queenside (position : Position) (color : Color) : bool :=
  if negb (CastlingRights_can_castle (castling_rights position) color false) then false else
  let b := board position in
  let rank := if Color_eqb color White then 0 else 7 in
  let king_square := mkSquare (rank * 8 + 4) in
  if negb (is_own_piece (Board_get b king_square) King color) then false else
  let rook_square := mkSquare (rank * 8 + 0) in
  let b_square := mkSquare (rank * 8 + 1) in
  let c_square := mkSquare (rank * 8 + 2) in
  let d_square := mkSquare (rank * 8 + 3) in
  if negb (is_own_piece (Board_get b rook_square) Rook color) then false else
  if negb (Board_is_empty b b_square) || negb (Board_is_empty b c_square)
     || negb (Board_is_empty b d_square) then false else
  if is_in_check position color then false else
  let opponent := Color_opposite color in
  if Board_is_attacked_by b d_square opponent then false else
  if Board_is_attacked_by b c_square opponent then false else
  true.

Definition is_legal_move (position : Position) (mv : Move) : bool :=
  if is_castling mv then
    let color := side_to_move position in
    let kingside := Square_file (to mv) >? Square_file (from mv) in
    if kingside then can_castle_kingside position color
    else can_castle_queenside position color
  else
    let test_position := apply_move_for_validation position mv in
    let our_color := side_to_move position in
    negb (is_in_check test_position our_color).

Definition generate_legal_moves (position : Position) : list Move :=
  filter (is_legal_move position) (generate_pseudo_legal_moves position).

Definition is_checkmate (position : Position) : bool :=
  is_in_check position (side_to_move position)
  && (length (generate_legal_moves position) =? 0)%nat.

Definition is_stalemate (position : Position) : bool :=
  negb (is_in_check position (side_to_move position))
  && (length (generate_legal_moves position) =? 0)%nat.

(* ------------------------------------------------------------------ *)
(** ** error.rs: [ChessError] and [Result<T>] (the reason strings are not
    modelled, only the variant) *)

Inductive ChessError := InvalidFen | InvalidMove | InvalidSquare | GameOver | ParseError.

Inductive result (A : Type) := Ok (a : A) | Err (e : ChessError).
Arguments Ok {A} a.
Arguments Err {A} e.

(** The [?] operator. *)
Definition bind {A B} (r : result A) (k : A -> result B) : result B :=
  match r with Ok a => k a | Err e => Err e end.

Notation "'let*' x ':=' c1 'in' c2" := (bind c1 (fun x => c2))
  (at level 61, x pattern, c1 at next level, right associativity).

(* ------------------------------------------------------------------ *)
(** ** Strings: [&str] as its sequence of [char]s (Unicode scalar values) *)

Definition rstr := list Z.

(** An ASCII literal as a list of chars. *)
Fixpoint str (s : string) : rstr :=
  match s with
  | EmptyString => []
  | String a s' => Z.of_nat (nat_of_ascii a) :: str s'
  end.

(** [char::is_whitespace]: the Unicode White_Space property. *)
Definition is_whitespace (c : Z) : bool :=
  ((9 <=? c) && (c <=? 13)) || (c =? 32) || (c =? 133) || (c =? 160) || (c =? 5760)
  || ((8192 <=? c) && (c <=? 8202)) || (c =? 8232) || (c =? 8233) || (c =? 8239)
  || (c =? 8287) || (c =? 12288).

(** [str::split] by a char predicate: every piece, empty ones included. *)
Fixpoint split_on (sep : Z -> bool) (s : rstr) : list rstr :=
  match s with
  | [] => [[]]
  | c :: s' =>
      if sep c then [] :: split_on sep s'
      else match split_on sep s' with
           | w :: ws => (c :: w) :: ws
           | [] => [[c]]
           end
  end.

Definition is_nonempty (s : rstr) : bool := match s with [] => false | _ => true end.

(** [str::split_whitespace]: split on whitespace, dropping empty pieces. *)
Definition split_whitespace (s : rstr) : list rstr :=
  filter is_nonempty (split_on is_whitespace s).

(** [str::len]: the length in UTF-8 bytes. *)
Definition utf8_len (s : rstr) : Z :=
  fold_right (fun c n =>
    (if c <? 128 then 1 else if c <? 2048 then 2 else if c <? 65536 then 3 else 4) + n) 0 s.

Definition rstr_eqb (a b : rstr) : bool :=
  (length a =? length b)%nat && forallb (fun '(x, y) => Z.eqb x y) (combine a b).

Definition is_ascii_digit (c : Z) : bool := (48 <=? c) && (c <=? 57).
Definition is_ascii_uppercase (c : Z) : bool := (65 <=? c) && (c <=? 90).
Definition to_ascii_lowercase (c : Z) : Z := if is_ascii_uppercase c then c + 32 else c.
Definition to_ascii_uppercase (c : Z) : Z := if (97 <=? c) && (c <=? 122) then c - 32 else c.

Definition U32_MAX : Z := 4294967295.

(** The digit loop of [u32::from_str]: checked [acc * 10 + d]. *)
Fixpoint u32_digits (acc : Z) (s : rstr) : option Z :=
  match s with
  | [] => Some acc
  | c :: s' =>
      if is_ascii_digit c then
        let acc := acc * 10 + (c - 48) in
        if acc >? U32_MAX then None else u32_digits acc s'
      else None
  end.

(** [str::parse::<u32>]: non-empty; a lone sign is an error; a leading
    ['+'] is skipped; ['-'] is not a digit. *)
Definition parse_u32 (s : rstr) : option Z :=
  match s with
  | [] => None
  | [c] => if (c =? 43) || (c =? 45) then None else u32_digits 0 s
  | c :: rest => if c =? 43 then u32_digits 0 rest else u32_digits 0 s
  end.

(** [to_string] of a non-negative integer below [10 ^ fuel]. *)
Fixpoint dec_digits (fuel : nat) (n : Z) : rstr :=
  match fuel with
  | O => []
  | S fuel' => if n <? 10 then [48 + n] else dec_digits fuel' (n / 10) ++ [48 + n mod 10]
  end.

Definition u32_to_string (n : Z) : rstr := dec_digits 10 n.

(* ------------------------------------------------------------------ *)
(** ** types.rs: algebraic notation *)

Definition Square_from_algebraic (s : rstr) : result Square :=
  if negb (utf8_len s =? 2) then Err InvalidSquare else
  match s with
  | c0 :: rest =>
      if (97 <=? c0) && (c0 <=? 104) then
        let file := c0 - 97 in
        match rest with
        | c1 :: _ =>
            if (49 <=? c1) && (c1 <=? 56) then Ok (mkSquare ((c1 - 49) * 8 + file))
            else Err InvalidSquare
        | [] => Err InvalidSquare
        end
      else Err InvalidSquare
  | [] => Err InvalidSquare
  end.

Definition Square_to_algebraic (s : Square) : rstr :=
  [97 + Square_file s; 49 + Square_rank s].

(* ------------------------------------------------------------------ *)
(** ** fen.rs *)

Definition fen_char_to_piece (c : Z) : option (Piece * Color) :=
  let color := if is_ascii_uppercase c then White else Black in
  let l := to_ascii_lowercase c in
  if l =? 112 then Some (Pawn, color)
  else if l =? 110 then Some (Knight, color)
  else if l =? 98 then Some (Bishop, color)
  else if l =? 114 then Some (Rook, color)
  else if l =? 113 then Some (Queen, color)
  else if l =? 107 then Some (King, color)
  else None.

Definition piece_to_fen_char (piece : Piece) (color : Color) : Z :=
  let c := match piece with
           | Pawn => 112 | Knight => 110 | Bishop => 98
           | Rook => 114 | Queen => 113 | King => 107
           end in
  if Color_eqb color White then to_ascii_uppercase c else c.

(** The [for c in rank_str.chars()] loop of [parse_piece_placement]. *)
Fixpoint parse_rank_chars (b : Board) (rank file : Z) (cs : rstr) : result (Board * Z) :=
  match cs with
  | [] => Ok (b, file)
  | c :: cs' =>
      if file >=? 8 then Err InvalidFen else
      if is_ascii_digit c then
        let empty_count := c - 48 in
        if (1 <=? empty_count) && (empty_count <=? 8) then
          if file + empty_count >? 8 then Err InvalidFen
          else parse_rank_chars b rank (file + empty_count) cs'
        else Err InvalidFen
      else
        match fen_char_to_piece c with
        | None => Err InvalidFen
        | Some (piece, color) =>
            match Square_from_rank_file rank file with
            | None => Err InvalidFen
            | Some square => parse_rank_chars (Board_set b square (Some (piece, color))) rank (file + 1) cs'
            end
        end
  end.

(** The [for (rank_index, rank_str) in ranks.iter().enumerate()] loop. *)
Fixpoint parse_ranks (b : Board) (rank_index : Z) (ranks : list rstr) : result Board :=
  match ranks with
  | [] => Ok b
  | rank_str :: ranks' =>
      let rank := 7 - rank_index in
      let* bf := parse_rank_chars b rank 0 rank_str in
      let '(b, file) := bf in
      if negb (file =? 8) then Err InvalidFen
      else parse_ranks b (rank_index + 1) ranks'
  end.

Definition parse_piece_placement (b : Board) (placement : rstr) : result Board :=
  let ranks := split_on (Z.eqb 47) placement in
  if negb (length ranks =? 8)%nat then Err InvalidFen
  else parse_ranks b 0 ranks.

Definition parse_active_color (s : rstr) : result Color :=
  if rstr_eqb s (str "w") then Ok White
  else if rstr_eqb s (str "b") then Ok Black
  else Err InvalidFen.

Fixpoint parse_castling_chars (rights : CastlingRights) (s : rstr) : result CastlingRights :=
  match s with
  | [] => Ok rights
  | c :: s' =>
      if c =? 75 then parse_castling_chars (set_white_kingside rights true) s'
      else if c =? 81 then parse_castling_chars (set_white_queenside rights true) s'
      else if c =? 107 then parse_castling_chars (set_black_kingside rights true) s'
      else if c =? 113 then parse_castling_chars (set_black_queenside rights true) s'
      else Err InvalidFen
  end.

Definition parse_castling_rights (s : rstr) : result CastlingRights :=
  if rstr_eqb s (str "-") then Ok CastlingRights_none
  else parse_castling_chars CastlingRights_none s.

Definition parse_en_passant (s : rstr) : result (option Square) :=
  if rstr_eqb s (str "-") then Ok None
  else let* sq := Square_from_algebraic s in Ok (Some sq).

Definition count_kings (b : Board) (color : Color) : nat :=
  length (filter (fun i => is_piece (cells_get (squares b) i) King color) ALL_SQUARES).

Definition validate_position (position : Position) : result unit :=
  let b := board position in
  let white_king_count := count_kings b White in
  let black_king_count := count_kings b Black in
  if (white_king_count =? 0)%nat then Err InvalidFen else
  if (1 <? white_king_count)%nat then Err InvalidFen else
  if (black_king_count =? 0)%nat then Err InvalidFen else
  if (1 <? black_king_count)%nat then Err InvalidFen else
  let is_pawn := fun x => match x with Some (Pawn, _) => true | _ => false end in
  if existsb (fun f => is_pawn (Board_get b (mkSquare f)) || is_pawn (Board_get b (mkSquare (56 + f))))
       [0; 1; 2; 3; 4; 5; 6; 7]
  then Err InvalidFen else
  let* _ :=
    match en_passant_target position with
    | Some ep_square =>
        let expected_rank := if Color_eqb (side_to_move position) White then 5 else 2 in
        if negb (Square_rank ep_square =? expected_rank) then Err InvalidFen else Ok tt
    | None => Ok tt
    end in
  let cr := castling_rights position in
  if white_kingside cr && negb (is_piece (Board_get b (mkSquare 4)) King White) then Err InvalidFen else
  if white_kingside cr && negb (is_piece (Board_get b (mkSquare 7)) Rook White) then Err InvalidFen else
  if white_queenside cr && negb (is_piece (Board_get b (mkSquare 4)) King White) then Err InvalidFen else
  if white_queenside cr && negb (is_piece (Board_get b (mkSquare 0)) Rook White) then Err InvalidFen else
  if black_kingside cr && negb (is_piece (Board_get b (mkSquare 60)) King Black) then Err InvalidFen else
  if black_kingside cr && negb (is_piece (Board_get b (mkSquare 63)) Rook Black) then Err InvalidFen else
  if black_queenside cr && negb (is_piece (Board_get b (mkSquare 60)) King Black) then Err InvalidFen else
  if black_queenside cr && negb (is_piece (Board_get b (mkSquare 56)) Rook Black) then Err InvalidFen else
  Ok tt.

Definition parse_fen (fen : rstr) : result Position :=
  let parts := split_whitespace fen in
  if negb (length parts =? 6)%nat then Err InvalidFen else
  let part := fun n => nth n parts [] in
  let position := Position_empty in
  let* b := parse_piece_placement (board position) (part 0%nat) in
  let* stm := parse_active_color (part 1%nat) in
  let* cr := parse_castling_rights (part 2%nat) in
  let* ep := parse_en_passant (part 3%nat) in
  let* hm := match parse_u32 (part 4%nat) with Some n => Ok n | None => Err InvalidFen end in
  let* fm := match parse_u32 (part 5%nat) with Some n => Ok n | None => Err InvalidFen end in
  let position := mkPosition b stm cr ep hm fm (position_history position) in
  let* _ := validate_position position in
  let hash := Position_compute_zobrist_hash position in
  Ok (with_position_history position (position_history position ++ [hash])).

(** One rank of the placement field: piece letters and runs of empty squares. *)
Fixpoint rank_to_fen (b : Board) (rank : Z) (files : list Z) (empty_count : Z) : rstr :=
  match files with
  | [] => if empty_count >? 0 then u32_to_string empty_count else []
  | file :: files' =>
      match Board_get b (mkSquare (rank * 8 + file)) with
      | Some (piece, color) =>
          (if empty_count >? 0 then u32_to_string empty_count else [])
          ++ piece_to_fen_char piece color :: rank_to_fen b rank files' 0
      | None => rank_to_fen b rank files' (empty_count + 1)
      end
  end.

Definition FILES : list Z := [0; 1; 2; 3; 4; 5; 6; 7].

Definition position_to_fen (position : Position) : rstr :=
  let b := board position in
  let placement :=
    flat_map (fun rank => rank_to_fen b rank FILES 0 ++ (if rank >? 0 then [47] else []))
      [7; 6; 5; 4; 3; 2; 1; 0] in
  let cr := castling_rights position in
  let castling :=
    (if white_kingside cr then [75] else []) ++ (if white_queenside cr then [81] else [])
    ++ (if black_kingside cr then [107] else []) ++ (if black_queenside cr then [113] else []) in
  placement
  ++ [32] ++ [match side_to_move position with White => 119 | Black => 98 end]
  ++ [32] ++ (match castling with [] => [45] | _ => castling end)
  ++ [32] ++ (match en_passant_target position with
              | Some ep_square => Square_to_algebraic ep_square
              | None => [45]
              end)
  ++ [32] ++ u32_to_string (halfmove_clock position)
  ++ [32] ++ u32_to_string (fullmove_number position).

(* ------------------------------------------------------------------ *)
(** ** game.rs *)

(** [move_history] and [position_snapshots] are Vecs: [push] appends at the
    end, [pop] removes the last element. *)
Record ChessGame := mkChessGame {
  position : Position;
  move_history : list Move;
  position_snapshots : list Position;
  status : GameStatus
}.

Definition with_position (g : ChessGame) (p : Position) : ChessGame :=
  mkChessGame p (move_history g) (position_snapshots g) (status g).
Definition with_move_history (g : ChessGame) (h : list Move) : ChessGame :=
  mkChessGame (position g) h (position_snapshots g) (status g).
Definition with_position_snapshots (g : ChessGame) (s : list Position) : ChessGame :=
  mkChessGame (position g) (move_history g) s (status g).
Definition with_status (g : ChessGame) (st : GameStatus) : ChessGame :=
  mkChessGame (position g) (move_history g) (position_snapshots g) st.

(** u32 [+= 1]; the release build wraps. *)
Definition u32_incr (n : Z) : Z := (n + 1) mod 2 ^ 32.

Definition compute_game_status_static (position : Position) : GameStatus :=
  if is_checkmate position then Checkmate (Color_opposite (side_to_move position))
  else if is_stalemate position then Stalemate
  else if 100 <=? halfmove_clock position then DrawByFiftyMoveRule
  else if Position_has_insufficient_material position then DrawByInsufficientMaterial
  else if Position_is_repetition position then DrawByRepetition
  else if is_in_check position (side_to_move position) then Check
  else InProgress.

Definition compute_game_status (g : ChessGame) : GameStatus :=
  compute_game_status_static (position g).

Definition ChessGame_new : ChessGame :=
  let position := Position_new in
  mkChessGame position [] [] (compute_game_status_static position).

Definition ChessGame_from_fen (fen : rstr) : result ChessGame :=
  let* position := parse_fen fen in
  Ok (mkChessGame position [] [] (compute_game_status_static position)).

Definition is_active (st : GameStatus) : bool :=
  match st with InProgress | Check => true | _ => false end.

Definition ChessGame_get_legal_moves (g : ChessGame) : list Move :=
  if negb (is_active (status g)) then [] else generate_legal_moves (position g).

Definition ChessGame_to_fen (g : ChessGame) : rstr := position_to_fen (position g).

Definition apply_normal_move (g : ChessGame) (mv : Move) : ChessGame :=
  let p := position g in
  let b := board p in
  let piece := Board_get b (from mv) in
  let b := Board_set b (from mv) None in
  let b := match promotion mv with
           | Some promotion_piece =>
               match piece with
               | Some (_, color) => Board_set b (to mv) (Some (promotion_piece, color))
               | None => b
               end
           | None => Board_set b (to mv) piece
           end in
  with_position g (with_board p b).

(** [apply_castling(&mut self)]: returns the result and the state after the
    call. *)
Definition apply_castling (g : ChessGame) (mv : Move) : result unit * ChessGame :=
  let p := position g in
  let b := board p in
  let rank := Square_rank (from mv) in
  let king := Board_get b (from mv) in
  match king with
  | Some (King, king_color) =>
      let '(rook_from, rook_to) :=
        if Square_file (to mv) >? Square_file (from mv)
        then (mkSquare (rank * 8 + 7), mkSquare (rank * 8 + 5))
        else (mkSquare (rank * 8 + 0), mkSquare (rank * 8 + 3)) in
      let rook := Board_get b rook_from in
      if negb (is_piece rook Rook king_color) then (Err InvalidMove, g) else
      let b := Board_set b (from mv) None in
      let b := Board_set b (to mv) king in
      let b := Board_set b rook_from None in
      let b := Board_set b rook_to rook in
      (Ok tt, with_position g (with_board p b))
  | _ => (Err InvalidMove, g)
  end.

Definition apply_en_passant (g : ChessGame) (mv : Move) : ChessGame :=
  let p := position g in
  let b := board p in
  let pawn := Board_get b (from mv) in
  let b := Board_set b (from mv) None in
  let b := Board_set b (to mv) pawn in
  let captured_pawn_rank :=
    if Color_eqb (side_to_move p) White
    then u8_sub (Square_rank (to mv)) 1 else Square_rank (to mv) + 1 in
  let b := match Square_from_rank_file captured_pawn_rank (Square_file (to mv)) with
           | Some captured_square => Board_set b captured_square None
           | None => b
           end in
  with_position g (with_board p b).

Definition update_en_passant_target (g : ChessGame) (mv : Move) : ChessGame :=
  let p := position g in
  let ep :=
    match Board_get (board p) (to mv) with
    | Some (Pawn, _) =>
        let from_rank := Square_rank (from mv) in
        let to_rank := Square_rank (to mv) in
        if Z.eqb (Z.abs (from_rank - to_rank)) 2
        then Square_from_rank_file ((from_rank + to_rank) / 2) (Square_file (from mv))
        else None
    | _ => None
    end in
  with_position g (with_en_passant_target p ep).

Definition update_halfmove_clock (g : ChessGame) (mv : Move) : ChessGame :=
  let p := position g in
  let is_pawn_move :=
    match Board_get (board p) (to mv) with
    | Some (piece, _) => Piece_eqb piece Pawn
    | None => false
    end in
  let is_capture :=
    match position_snapshots g with
    | [] => false
    | _ :: _ =>
        match Board_get (board (last (position_snapshots g) p)) (to mv) with
        | Some _ => true
        | None => false
        end
    end || is_en_passant mv in
  if is_pawn_move || is_capture then with_position g (with_halfmove_clock p 0)
  else with_position g (with_halfmove_clock p (u32_incr (halfmove_clock p))).

Definition apply_move_to_position (g : ChessGame) (mv : Move) : result unit * ChessGame :=
  let '(r, g) :=
    if is_castling mv then apply_castling g mv
    else if is_en_passant mv then (Ok tt, apply_en_passant g mv)
    else (Ok tt, apply_normal_move g mv) in
  match r with
  | Err e => (Err e, g)
  | Ok _ =>
      let g := with_position g (Position_update_castling_rights_after_move (position g) mv) in
      let g := update_en_passant_target g mv in
      let g := update_halfmove_clock g mv in
      let g := if Color_eqb (side_to_move (position g)) Black
               then with_position g (with_fullmove_number (position g)
                                       (u32_incr (fullmove_number (position g))))
               else g in
      let g := with_position g (with_side_to_move (position g)
                                  (Color_opposite (side_to_move (position g)))) in
      let hash := Position_compute_zobrist_hash (position g) in
      let g := with_position g (with_position_history (position g)
                                  (position_history (position g) ++ [hash])) in
      (Ok tt, g)
  end.

Definition make_move (g : ChessGame) (mv : Move) : result unit * ChessGame :=
  if negb (is_active (status g)) then (Err GameOver, g) else
  if negb (is_legal_move (position g) mv) then (Err InvalidMove, g) else
  let g := with_position_snapshots g (position_snapshots g ++ [position g]) in
  let '(r, g) := apply_move_to_position g mv in
  match r with
  | Err e => (Err e, with_position_snapshots g (removelast (position_snapshots g)))
  | Ok _ =>
      let g := with_move_history g (move_history g ++ [mv]) in
      (Ok tt, with_status g (compute_game_status g))
  end.

Definition undo_move (g : ChessGame) : result unit * ChessGame :=
  match position_snapshots g with
  | [] => (Err InvalidMove, g)
  | _ :: _ =>
      let g := mkChessGame (last (position_snapshots g) (position g)) (move_history g)
                 (removelast (position_snapshots g)) (status g) in
      let g := with_move_history g (removelast (move_history g)) in
      (Ok tt, with_status g (compute_game_status g))
  end.

(* ------------------------------------------------------------------ *)
(** ** tests.rs: the perft helper *)

(** [apply_move_for_perft]: castling rights first, then the board effect,
    the en-passant target and the side to move (no clocks, no hash). *)
Definition apply_move_for_perft (position : Position) (mv : Move) : Position :=
  let position := Position_update_castling_rights_after_move position mv in
  let b := board position in
  let b :=
    if is_en_passant mv then
      let captured_pawn_rank :=
        if Color_eqb (side_to_move position) White
        then u8_sub (Square_rank (to mv)) 1 else Square_rank (to mv) + 1 in
      match Square_from_rank_file captured_pawn_rank (Square_file (to mv)) with
      | Some captured_square => Board_set b captured_square None
      | None => b
      end
    else b in
  let b :=
    if is_castling mv then
      let rank := Square_rank (from mv) in
      if Square_file (to mv) >? Square_file (from mv) then
        let rook_from := mkSquare (rank * 8 + 7) in
        let rook_to := mkSquare (rank * 8 + 5) in
        let rook := Board_get b rook_from in
        Board_set (Board_set b rook_from None) rook_to rook
      else
        let rook_from := mkSquare (rank * 8 + 0) in
        let rook_to := mkSquare (rank * 8 + 3) in
        let rook := Board_get b rook_from in
        Board_set (Board_set b rook_from None) rook_to rook
    else b in
  let piece := Board_get b (from mv) in
  let b := Board_set b (from mv) None in
  let b := match promotion mv with
           | Some promotion_piece =>
               match piece with
               | Some (_, color) => Board_set b (to mv) (Some (promotion_piece, color))
               | None => b
               end
           | None => Board_set b (to mv) piece
           end in
  let position := with_board position b in
  let ep :=
    match Board_get b (to mv) with
    | Some (Pawn, _) =>
        let from_rank := Square_rank (from mv) in
        let to_rank := Square_rank (to mv) in
        if Z.eqb (Z.abs (from_rank - to_rank)) 2
        then Square_from_rank_file ((from_rank + to_rank) / 2) (Square_file (from mv))
        else None
    | _ => None
    end in
  let position := with_en_passant_target position ep in
  with_side_to_move position (Color_opposite (side_to_move position)).

(** [perft]: the snapshot/restore of the source is the functional
    [position] left unchanged across iterations. *)
Fixpoint perft (position : Position) (depth : nat) : Z :=
  match depth with
  | O => 1
  | S depth' =>
      let moves := generate_legal_moves position in
      match depth' with
      | O => Z.of_nat (length moves)
      | _ => fold_left (fun count mv => count + perft (apply_move_for_perft position mv) depth')
               moves 0
      end
  end.

(* ------------------------------------------------------------------ *)
(** ** board.rs: the serde implementations of [Board] *)

(** [Serialize]: the 64 cells as a slice, in index order. *)
Definition Board_serialize (b : Board) : list Cell := cells_to_list (squares b).

(** [squares.copy_from_slice(&squares_vec)]: cell [i] of the array is
    element [i] of the vector. *)
Definition cells_of_list (l : list Cell) : Cells64 :=
  let b1 := fun k : nat => nth k l None in
  let b2 := fun k : nat => ((b1 k, b1 (k + 1)%nat) : Cells2) in
  let b4 := fun k : nat => ((b2 k, b2 (k + 2)%nat) : Cells4) in
  let b8 := fun k : nat => ((b4 k, b4 (k + 4)%nat) : Cells8) in
  let b16 := fun k : nat => ((b8 k, b8 (k + 8)%nat) : Cells16) in
  let b32 := fun k : nat => ((b16 k, b16 (k + 16)%nat) : Cells32) in
  ((b32 0%nat, b32 32%nat) : Cells64).

(** [Deserialize]: a vector of length other than 64 is an error ([None];
    the message is not modelled). *)
Definition Board_deserialize (squares_vec : list Cell) : option Board :=
  if negb (length squares_vec =? 64)%nat then None
  else Some (mkBoard (cells_of_list squares_vec)).

(* ------------------------------------------------------------------ *)
(** ** types.rs: [Move::to_uci] *)


(* ------------------------------------------------------------------ *)
(** ** validation.rs: [get_pinned_pieces] *)

Definition PIN_DIRECTIONS : list (Z * Z) :=
  [(-1, -1); (-1, 0); (-1, 1); (0, -1); (0, 1); (1, -1); (1, 0); (1, 1)].

(** The inner [loop] along one direction, with [our_piece] the own piece
    met so far; the ray leaves the board within 8 steps. *)
Fixpoint pin_scan (fuel : nat) (b : Board) (color : Color) (rank file rank_dir file_dir : Z)
    (our_piece : option Square) : list Square :=
  match fuel with
  | O => []
  | S fuel' =>
      let rank := rank + rank_dir in
      let file := file + file_dir in
      if (rank <? 0) || (rank >=? 8) || (file <? 0) || (file >=? 8) then [] else
      match Square_from_rank_file rank file with
      | Some square =>
          match Board_get b square with
          | Some (piece, piece_color) =>
              if Color_eqb piece_color color then
                match our_piece with
                | Some _ => []
                | None => pin_scan fuel' b color rank file rank_dir file_dir (Some square)
                end
              else
                match our_piece with
                | Some pinned_square =>
                    let is_diagonal := negb (rank_dir =? 0) && negb (file_dir =? 0) in
                    let can_pin := match piece with
                                   | Queen => true
                                   | Bishop => is_diagonal
                                   | Rook => negb is_diagonal
                                   | _ => false
                                   end in
                    if can_pin then [pinned_square] else []
                | None => []
                end
          | None => pin_scan fuel' b color rank file rank_dir file_dir our_piece
          end
      | None => pin_scan fuel' b color rank file rank_dir file_dir our_piece
      end
  end.

Definition get_pinned_pieces (position : Position) (color : Color) : list Square :=
  match Board_find_king (board position) color with
  | Some king_square =>
      flat_map (fun '(rank_dir, file_dir) =>
        pin_scan 8 (board position) color (Square_rank king_square) (Square_file king_square)
          rank_dir file_dir None) PIN_DIRECTIONS
  | None => []
  end.

(* ------------------------------------------------------------------ *)
(** ** game.rs: the remaining accessors *)

Definition ChessGame_get_legal_moves_for_square (g : ChessGame) (square : Square) : list Move :=
  filter (fun mv => Square_eqb (from mv) square) (ChessGame_get_legal_moves g).

Definition ChessGame_get_status (g : ChessGame) : GameStatus := status g.

(* ------------------------------------------------------------------ *)
(** ** analysis.rs *)

Module MoveCategory.
Inductive t := Quiet | Capture | Check | CheckCapture | Castle | Promotion | PromotionCapture
             | EnPassant.
End MoveCategory.

(** [material_change: i32]; the values involved are small. *)
Record MoveAnalysis := mkMoveAnalysis {
  move_data : Move;
  is_capture : bool;
  is_check : bool;
  captured_piece : option Piece;
  category : MoveCategory.t;
  material_change : Z
}.

Definition piece_value (piece : Piece) : Z :=
  match piece with
  | Pawn => 100 | Knight => 320 | Bishop => 330 | Rook => 500 | Queen => 900 | King => 0
  end.

Definition categorize_move (chess_move : Move) (is_capture is_check : bool) : MoveCategory.t :=
  if is_castling chess_move then MoveCategory.Castle else
  if is_en_passant chess_move then MoveCategory.EnPassant else
  match promotion chess_move with
  | Some _ => if is_capture then MoveCategory.PromotionCapture else MoveCategory.Promotion
  | None =>
      match is_capture, is_check with
      | true, true => MoveCategory.CheckCapture
      | true, false => MoveCategory.Capture
      | false, true => MoveCategory.Check
      | false, false => MoveCategory.Quiet
      end
  end.

Definition MoveAnalysis_analyze (chess_move : Move) (position : Position) : MoveAnalysis :=
  let captured_piece :=
    if is_en_passant chess_move then Some Pawn
    else option_map fst (Board_get (board position) (to chess_move)) in
  let is_capture := match captured_piece with Some _ => true | None => false end in
  let material_change := match captured_piece with Some piece => piece_value piece | None => 0 end in
  let test_position := apply_move_for_validation position chess_move in
  let opponent_color := Color_opposite (side_to_move position) in
  let is_check := is_in_check test_position opponent_color in
  let category := categorize_move chess_move is_capture is_check in
  mkMoveAnalysis chess_move is_capture is_check captured_piece category material_change.

Definition analyze_all_moves (position : Position) : list MoveAnalysis :=
  map (fun m => MoveAnalysis_analyze m position) (generate_legal_moves position).

(* ------------------------------------------------------------------ *)
(** ** evaluator.rs *)

Definition PAWN_TABLE : list (list Z) :=
  [[0;  0;  0;  0;  0;  0;  0;  0];
   [50; 50; 50; 50; 50; 50; 50; 50];
   [10; 10; 20; 30; 30; 20; 10; 10];
   [5;  5; 10; 25; 25; 10;  5;  5];
   [0;  0;  0; 20; 20;  0;  0;  0];
   [5; -5;-10;  0;  0;-10; -5;  5];
   [5; 10; 10;-20;-20; 10; 10;  5];
   [0;  0;  0;  0;  0;  0;  0;  0]].

Definition KNIGHT_TABLE : list (list Z) :=
  [[-50;-40;-30;-30;-30;-30;-40;-50];
   [-40;-20;  0;  0;  0;  0;-20;-40];
   [-30;  0; 10; 15; 15; 10;  0;-30];
   [-30;  5; 15; 20; 20; 15;  5;-30];
   [-30;  0; 15; 20; 20; 15;  0;-30];
   [-30;  5; 10; 15; 15; 10;  5;-30];
   [-40;-20;  0;  5;  5;  0;-20;-40];
   [-50;-40;-30;-30;-30;-30;-40;-50]].

Definition BISHOP_TABLE : list (list Z) :=
  [[-20;-10;-10;-10;-10;-10;-10;-20];
   [-10;  0;  0;  0;  0;  0;  0;-10];
   [-10;  0;  5; 10; 10;  5;  0;-10];
   [-10;  5;  5; 10; 10;  5;  5;-10];
   [-10;  0; 10; 10; 10; 10;  0;-10];
   [-10; 10; 10; 10; 10; 10; 10;-10];
   [-10;  5;  0;  0;  0;  0;  5;-10];
   [-20;-10;-10;-10;-10;-10;-10;-20]].

Definition ROOK_TABLE : list (list Z) :=
  [[0;  0;  0;  0;  0;  0;  0;  0];
   [5; 10; 10; 10; 10; 10; 10;  5];
   [-5;  0;  0;  0;  0;  0;  0; -5];
   [-5;  0;  0;  0;  0;  0;  0; -5];
   [-5;  0;  0;  0;  0;  0;  0; -5];
   [-5;  0;  0;  0;  0;  0;  0; -5];
   [-5;  0;  0;  0;  0;  0;  0; -5];
   [0;  0;  0;  5;  5;  0;  0;  0]].

Definition QUEEN_TABLE : list (list Z) :=
  [[-20;-10;-10; -5; -5;-10;-10;-20];
   [-10;  0;  0;  0;  0;  0;  0;-10];
   [-10;  0;  5;  5;  5;  5;  0;-10];
   [ -5;  0;  5;  5;  5;  5;  0; -5];
   [  0;  0;  5;  5;  5;  5;  0; -5];
   [-10;  5;  5;  5;  5;  5;  0;-10];
   [-10;  0;  5;  0;  0;  0;  0;-10];
   [-20;-10;-10; -5; -5;-10;-10;-20]].

Definition KING_MIDDLEGAME_TABLE : list (list Z) :=
  [[-30;-40;-40;-50;-50;-40;-40;-30];
   [-30;-40;-40;-50;-50;-40;-40;-30];
   [-30;-40;-40;-50;-50;-40;-40;-30];
   [-30;-40;-40;-50;-50;-40;-40;-30];
   [-20;-30;-30;-40;-40;-30;-30;-20];
   [-10;-20;-20;-20;-20;-20;-20;-10];
   [ 20; 20;  0;  0;  0;  0; 20; 20];
   [ 20; 30; 10;  0;  0; 10; 30; 20]].

(** [TABLE[rank][file]] (the indices used are in range). *)
Definition table_get (table : list (list Z)) (rank file : Z) : Z :=
  nth (Z.to_nat file) (nth (Z.to_nat rank) table []) 0.

Definition get_piece_square_value (piece : Piece) (color : Color) (square_idx : Z) : Z :=
  let rank := square_idx / 8 in
  let file := square_idx mod 8 in
  let table_rank := match color with White => rank | Black => 7 - rank end in
  let bonus := match piece with
               | Pawn => table_get PAWN_TABLE table_rank file
               | Knight => table_get KNIGHT_TABLE table_rank file
               | Bishop => table_get BISHOP_TABLE table_rank file
               | Rook => table_get ROOK_TABLE table_rank file
               | Queen => table_get QUEEN_TABLE table_rank file
               | King => table_get KING_MIDDLEGAME_TABLE table_rank file
               end in
  match color with White => bonus | Black => - bonus end.

(** The sums are far from the i32 bounds. *)
Definition material_balance (position : Position) : Z :=
  let '(white_material, black_material) :=
    fold_left (fun '(w, bl) square_idx =>
      match Square_new square_idx with
      | Some square =>
          match Board_get (board position) square with
          | Some (piece, color) =>
              let value := piece_value piece in
              match color with
              | White => (w + value, bl)
              | Black => (w, bl + value)
              end
          | None => (w, bl)
          end
      | None => (w, bl)
      end) ALL_SQUARES (0, 0) in
  white_material - black_material.

Definition piece_square_value (position : Position) : Z :=
  fold_left (fun score square_idx =>
    match Square_new square_idx with
    | Some square =>
        match Board_get (board position) square with
        | Some (piece, color) => score + get_piece_square_value piece color square_idx
        | None => score
        end
    | None => score
    end) ALL_SQUARES 0.

(** [moves.len() as i32] and [(mobility - 20).clamp(-20, 20)]. *)
Definition mobility_bonus (position : Position) : Z :=
  let mobility := Z.of_nat (length (generate_legal_moves position)) in
  let bonus := Z.max (-20) (Z.min 20 (mobility - 20)) in
  match side_to_move position with White => bonus | Black => - bonus end.

Definition Evaluator_evaluate (position : Position) : Z :=
  material_balance position + piece_square_value position + mobility_bonus position.

(* ------------------------------------------------------------------ *)
(** ** commands.rs: the callers of the engine

    A command's [Result<T, String>] is an [option] ([None] for the [Err];
    the messages are not modelled), and the [Mutex<ChessGame>] state is
    passed explicitly (a poisoned lock is not modelled). *)

(** [parse_promotion]: [s.to_ascii_lowercase()] matched against the four
    names. *)
Definition parse_promotion (s : rstr) : option Piece :=
  let l := map to_ascii_lowercase s in
  if rstr_eqb l (str "queen") then Some Queen
  else if rstr_eqb l (str "rook") then Some Rook
  else if rstr_eqb l (str "bishop") then Some Bishop
  else if rstr_eqb l (str "knight") then Some Knight
  else None.


(** The [find] over the legal moves of the game. *)
Definition find_matching_move (game : ChessGame) (from_square to_square : Square)
    (promotion_piece : option Piece) : option Move :=
  find (fun m => Square_eqb (from m) from_square && Square_eqb (to m) to_square
                 && option_eqb Piece_eqb (promotion m) promotion_piece)
    (ChessGame_get_legal_moves game).

(** [promotion.as_deref()] parsed with [parse_promotion]. *)
Definition parse_promotion_arg (promotion : option rstr) : option (option Piece) :=
  match promotion with
  | Some p => match parse_promotion p with Some piece => Some (Some piece) | None => None end
  | None => Some None
  end.

Definition commands_make_move (game : ChessGame) (from_s to_s : rstr) (promotion : option rstr)
    : option GameStatus * ChessGame :=
  match Square_from_algebraic from_s with
  | Err _ => (None, game)
  | Ok from_square =>
  match Square_from_algebraic to_s with
  | Err _ => (None, game)
  | Ok to_square =>
  match parse_promotion_arg promotion with
  | None => (None, game)
  | Some promotion_piece =>
  match find_matching_move game from_square to_square promotion_piece with
  | None => (None, game)
  | Some mv =>
      let '(r, game) := make_move game mv in
      match r with
      | Err _ => (None, game)
      | Ok _ => (Some (ChessGame_get_status game), game)
      end
  end end end end.

Definition commands_undo_move (game : ChessGame) : option GameStatus * ChessGame :=
  let '(r, game) := undo_move game in
  match r with
  | Err _ => (None, game)
  | Ok _ => (Some (ChessGame_get_status game), game)
  end.

Definition commands_analyze_move (game : ChessGame) (from_s to_s : rstr) (promotion : option rstr)
    : option MoveAnalysis :=
  match Square_from_algebraic from_s with
  | Err _ => None
  | Ok from_square =>
  match Square_from_algebraic to_s with
  | Err _ => None
  | Ok to_square =>
  match parse_promotion_arg promotion with
  | None => None
  | Some promotion_piece =>
  match find_matching_move game from_square to_square promotion_piece with
  | None => None
  | Some chess_move => Some (MoveAnalysis_analyze chess_move (position game))
  end end end end.

(** [load_fen]: the game is replaced only when the FEN string parses. *)
Definition commands_load_fen (game : ChessGame) (fen : rstr) : option Position * ChessGame :=
  match ChessGame_from_fen fen with
  | Err _ => (None, game)
  | Ok new_game => (Some (position new_game), new_game)
  end.

(* ------------------------------------------------------------------ *)
(** ** Properties stated by the specification *)

(** The status precedence, read off the specification's list: first match
    wins. *)
Definition status_by_precedence (p : Position) : GameStatus :=
  let c := side_to_move p in
  let no_legal_move := match generate_legal_moves p with [] => true | _ => false end in
  let in_check := is_in_check p c in
  if no_legal_move && in_check then Checkmate (Color_opposite c)
  else if no_legal_move && negb in_check then Stalemate
  else if 100 <=? halfmove_clock p then DrawByFiftyMoveRule
  else if Position_has_insufficient_material p then DrawByInsufficientMaterial
  else if Position_is_repetition p then DrawByRepetition
  else if in_check && negb no_legal_move then Check
  else InProgress.

(** The castling right named by a colour and a side. *)
Definition castling_right (cr : CastlingRights) (c : Color) (kingside : bool) : bool :=
  if kingside then
    match c with White => white_kingside cr | Black => black_kingside cr end
  else
    match c with White => white_queenside cr | Black => black_queenside cr end.

(** The conditions under which the specification allows a castling move of
    the side to move: right, king and rook at home, the squares strictly
    between them empty, not in check, the passed and the landing square of
    the king not attacked. *)
Definition castling_conditions (p : Position) (mv : Move) : Prop :=
  let c := side_to_move p in
  let b := board p in
  let kingside := Square_file (to mv) >? Square_file (from mv) in
  let home_rank := match c with White => 0 | Black => 7 end in
  let rook_file := if kingside then 7 else 0 in
  let pass_file := if kingside then 5 else 3 in
  let land_file := if kingside then 6 else 2 in
  castling_right (castling_rights p) c kingside = true
  /\ Board_get b (mkSquare (home_rank * 8 + 4)) = Some (King, c)
  /\ Board_get b (mkSquare (home_rank * 8 + rook_file)) = Some (Rook, c)
  /\ (forall f, Z.min 4 rook_file < f < Z.max 4 rook_file ->
        Board_get b (mkSquare (home_rank * 8 + f)) = None)
  /\ is_in_check p c = false
  /\ Board_is_attacked_by b (mkSquare (home_rank * 8 + pass_file)) (Color_opposite c) = false
  /\ Board_is_attacked_by b (mkSquare (home_rank * 8 + land_file)) (Color_opposite c) = false.

(** The states a client can reach: [new()], a successful [from_fen()], and
    any call of [make_move] or [undo_move], successful or not. *)
Inductive reachable : ChessGame -> Prop :=
  | reachable_new : reachable ChessGame_new
  | reachable_from_fen (fen : rstr) (g : ChessGame) :
      ChessGame_from_fen fen = Ok g -> reachable g
  | reachable_make_move (g : ChessGame) (mv : Move) :
      reachable g -> reachable (snd (make_move g mv))
  | reachable_undo_move (g : ChessGame) :
      reachable g -> reachable (snd (undo_move g)).

Definition is_ok {A} (r : result A) : bool :=
  match r with Ok _ => true | Err _ => false end.

(** The bookkeeping fields a move application leaves alone. *)
Definition meta (g : ChessGame) : list Move * list Position * GameStatus :=
  (move_history g, position_snapshots g, status g).

Definition e2e4 : Move := Move_new (mkSquare 12) (mkSquare 28).

(** Castling e1-g1 in the initial position, refused by [is_legal_move]. *)
Definition e1g1_castling : Move := mkMove (mkSquare 4) (mkSquare 6) None true false.

(** A pawn jump e2-e5, which the move generator never produces. *)
Definition e2e5 : Move := Move_new (mkSquare 12) (mkSquare 36).

(** A game from a FEN, the initial game if the FEN is refused. *)
Definition game_of_fen (fen : string) : ChessGame :=
  match ChessGame_from_fen (str fen) with Ok g => g | Err _ => ChessGame_new end.

(** White king and kingside rook at home, White keeps the right K. *)
Definition king_rook_game : ChessGame := game_of_fen "4k3/8/8/8/8/8/8/4K2R w K - 0 1".

Definition e1e2 : Move := Move_new (mkSquare 4) (mkSquare 12).

(** A black bishop on a8 facing the White rook at home on h1. *)
Definition bishop_takes_rook_game : ChessGame :=
  game_of_fen "b3k3/8/8/8/8/8/8/4K2R b K - 0 1".

Definition a8h1 : Move := Move_new (mkSquare 56) (mkSquare 7).

(** The position after the fool's mate: White is checkmated. *)
Definition fools_mate_game : ChessGame :=
  game_of_fen "rnb1kbnr/pppp1ppp/8/4p3/6Pq/5P2/PPPPP2P/RNBQKBNR w KQkq - 1 3".

(** [STARTING_FEN] of fen.rs. *)
Definition STARTING_FEN : rstr :=
  str "rnbqkbnr/pppppppp/8/8/8/8/PPPPPPPP/RNBQKBNR w KQkq - 0 1".

Definition position_of_fen (s : rstr) : Position :=
  match parse_fen s with Ok p => p | Err _ => Position_empty end.

(** A position with all four castlings available. *)
Definition castling_position : Position :=
  match parse_fen (str "r3k2r/8/8/8/8/8/8/R3K2R w KQkq - 0 1") with
  | Ok p => p
  | Err _ => Position_empty
  end.

(** *** What the placement field describes *)

(** The cells a FEN rank string stands for: a digit [n] for [n] empty cells,
    a letter for its piece. *)
Definition expand_char (c : Z) : list Cell :=
  if is_ascii_digit c then repeat None (Z.to_nat (c - 48)) else [fen_char_to_piece c].

Definition expand_rank (cs : rstr) : list Cell := flat_map expand_char cs.

(** The pieces of [L] written onto rank [rank] from file [file] on. *)
Fixpoint place (b : Board) (rank file : Z) (L : list Cell) : Board :=
  match L with
  | [] => b
  | None :: L' => place b rank (file + 1) L'
  | Some c :: L' => place (Board_set b (mkSquare (rank * 8 + file)) (Some c)) rank (file + 1) L'
  end.

Definition overlay (x y : Cell) : Cell := match x with Some c => Some c | None => y end.

(** The cell at rank [r] (0 = rank 1) and file [f] described by the list of
    rank strings of a placement field, rank 8 first. *)
Definition described_cell (ranks : list rstr) (r f : Z) : Cell :=
  nth (Z.to_nat f) (expand_rank (nth (Z.to_nat (7 - r)) ranks [])) None.

(** The requirements on a FEN string that the specification lists, read on
    the string itself: six whitespace-separated fields; eight ['/']-separated
    ranks each describing eight files; exactly one king of each colour; no
    pawn on ranks 1 and 8; an en-passant field ["-"] or a square on rank 6
    when White moves, rank 3 when Black moves; for each castling letter,
    king and rook of that side on their home squares. *)
Definition fen_well_formed (s : rstr) : Prop :=
  exists f0 f1 f2 f3 f4 f5,
    split_whitespace s = [f0; f1; f2; f3; f4; f5]
    /\ let ranks := split_on (Z.eqb 47) f0 in
       let cell := described_cell ranks in
       length ranks = 8%nat
       /\ Forall (fun r => length (expand_rank r) = 8%nat) ranks
       /\ (forall c, length (filter (fun i => is_piece (cell (i / 8) (i mod 8)) King c)
                                    ALL_SQUARES) = 1%nat)
       /\ (forall f c, 0 <= f < 8 -> cell 0 f <> Some (Pawn, c) /\ cell 7 f <> Some (Pawn, c))
       /\ (f3 = str "-"
           \/ exists c0, 97 <= c0 <= 104
                         /\ ((f1 = str "w" /\ f3 = [c0; 54]) \/ (f1 = str "b" /\ f3 = [c0; 51])))
       /\ (In 75 f2 -> cell 0 4 = Some (King, White) /\ cell 0 7 = Some (Rook, White))
       /\ (In 81 f2 -> cell 0 4 = Some (King, White) /\ cell 0 0 = Some (Rook, White))
       /\ (In 107 f2 -> cell 7 4 = Some (King, Black) /\ cell 7 7 = Some (Rook, Black))
       /\ (In 113 f2 -> cell 7 4 = Some (King, Black) /\ cell 7 0 = Some (Rook, Black)).

(** *** Canonical FEN strings *)

(** No two digits in a row: each run of empty squares is one digit. *)
Fixpoint no_adjacent_digits (s : rstr) : bool :=
  match s with
  | c1 :: ((c2 :: _) as rest) =>
      negb (is_ascii_digit c1 && is_ascii_digit c2) && no_adjacent_digits rest
  | _ => true
  end.

(** [s] is [t] with some characters left out, the rest in order. *)
Fixpoint is_subsequence (s t : rstr) {struct t} : bool :=
  match t with
  | [] => match s with [] => true | _ :: _ => false end
  | d :: t' =>
      match s with
      | [] => true
      | c :: s' => if c =? d then is_subsequence s' t' else is_subsequence s t'
      end
  end.

(** A counter without a sign and without a leading zero. *)
Definition canonical_counter (s : rstr) : bool :=
  match s with
  | 48 :: _ :: _ => false
  | 43 :: _ | 45 :: _ => false
  | _ => true
  end.

Definition no_whitespace (f : rstr) : bool := forallb (fun c => negb (is_whitespace c)) f.

(** A canonical FEN string: six non-empty fields without whitespace joined by
    single spaces, one digit per run of empty squares, the castling field
    ["-"] or a non-empty part of ["KQkq"] in this order, the counters
    without sign or leading zero. *)
Definition canonical_fen (s : rstr) : Prop :=
  exists f0 f1 f2 f3 f4 f5,
    s = f0 ++ [32] ++ f1 ++ [32] ++ f2 ++ [32] ++ f3 ++ [32] ++ f4 ++ [32] ++ f5
    /\ Forall (fun f => f <> [] /\ no_whitespace f = true) [f0; f1; f2; f3; f4; f5]
    /\ no_adjacent_digits f0 = true
    /\ (f2 = str "-" \/ (f2 <> [] /\ is_subsequence f2 (str "KQkq") = true))
    /\ canonical_counter f4 = true /\ canonical_counter f5 = true.

(** The pieces of a list joined by a separator. *)
Fixpoint join (sep : Z) (l : list rstr) : rstr :=
  match l with
  | [] => []
  | [x] => x
  | x :: l' => x ++ sep :: join sep l'
  end.

(** [rank_to_fen] on the list of cells of the rank. *)
Fixpoint cells_to_fen (cells : list Cell) (empty_count : Z) : rstr :=
  match cells with
  | [] => if empty_count >? 0 then u32_to_string empty_count else []
  | cell :: cells' =>
      match cell with
      | Some (piece, color) =>
          (if empty_count >? 0 then u32_to_string empty_count else [])
          ++ piece_to_fen_char piece color :: cells_to_fen cells' 0
      | None => cells_to_fen cells' (empty_count + 1)
      end
  end.

(** The characters the placement parser accepts. *)
Definition valid_rank_char (c : Z) : bool :=
  if is_ascii_digit c then (1 <=? c - 48) && (c - 48 <=? 8)
  else match fen_char_to_piece c with Some _ => true | None => false end.

(** The value of a string of decimal digits. *)
Definition digits_value (acc : Z) (s : rstr) : Z :=
  fold_left (fun acc c => acc * 10 + (c - 48)) s acc.

(** A side with at most two pieces, each a king, bishop or knight. *)
Definition minor_only_side (L : list (Square * Piece)) : Prop :=
  (length L <= 2)%nat /\ forall z, In z L -> snd z = King \/ snd z = Bishop \/ snd z = Knight.

(** What a generated move of a piece standing on [from_sq] satisfies: it
    starts there, ends on the board, and, unless it is en passant, not on a
    piece of the mover's colour. *)
Definition lands_ok (b : Board) (color : Color) (from_sq : Square) (mv : Move) : Prop :=
  from mv = from_sq /\ 0 <= index (to mv) < 64
  /\ (is_en_passant mv = false -> forall piece, Board_get b (to mv) <> Some (piece, color)).

(** The square on the same file, on the rank seen from the other side. *)
Definition mirror_index (i : Z) : Z := (7 - i / 8) * 8 + i mod 8.

(** A cell with the colour of its piece swapped. *)
Definition cell_flip (c : Cell) : Cell :=
  option_map (fun '(piece, color) => (piece, Color_opposite color)) c.

Definition zsum (l : list Z) : Z := fold_right Z.add 0 l.

(** A cell's contribution to [material_balance] and to
    [piece_square_value] (square index [i]). *)
Definition cell_material (c : Cell) : Z :=
  match c with
  | Some (piece, White) => piece_value piece
  | Some (piece, Black) => - piece_value piece
  | None => 0
  end.

Definition cell_psqt (i : Z) (c : Cell) : Z :=
  match c with
  | Some (piece, color) => get_piece_square_value piece color i
  | None => 0
  end.

(* ------------------------------------------------------------------ *)
(** ** Lemmas about the embedding *)

Lemma Square_rank_div (s : Square) : 0 <= index s -> Square_rank s = index s / 8.
Proof. intros H. unfold Square_rank. rewrite Z.shiftr_div_pow2 by lia. reflexivity. Qed.

Lemma Square_file_mod (s : Square) : 0 <= index s -> Square_file s = index s mod 8.
Proof.
  intros H. unfold Square_file. change 7 with (Z.ones 3).
  rewrite Z.land_ones by lia. reflexivity.
Qed.

Lemma meta_with_position g p : meta (with_position g p) = meta g.
Proof. reflexivity. Qed.

Lemma meta_update_halfmove_clock g mv : meta (update_halfmove_clock g mv) = meta g.
Proof. unfold update_halfmove_clock. destruct (_ || _); reflexivity. Qed.

Lemma apply_castling_meta g mv r g' :
  apply_castling g mv = (r, g') ->
  meta g' = meta g /\ (forall e, r = Err e -> g' = g).
Proof.
  unfold apply_castling.
  destruct (Board_get _ (from mv)) as [[[] c]|]; intros H;
    try (inversion H; subst; split; [reflexivity | reflexivity]).
  destruct (_ >? _); destruct (is_piece _ Rook c); simpl in H; inversion H; subst;
    split; try reflexivity; intros e He; discriminate.
Qed.

Lemma meta_update_en_passant_target g mv : meta (update_en_passant_target g mv) = meta g.
Proof. reflexivity. Qed.

Lemma apply_move_to_position_meta g mv r g' :
  apply_move_to_position g mv = (r, g') ->
  meta g' = meta g /\ (forall e, r = Err e -> g' = g).
Proof.
  unfold apply_move_to_position.
  destruct (is_castling mv) eqn:Hc.
  - destruct (apply_castling g mv) as [r1 g1] eqn:Ha.
    apply apply_castling_meta in Ha as [Hm He].
    destruct r1 as [u|e1]; intros H; inversion H; subst; clear H.
    + split; [|intros e Hx; discriminate].
      cbv zeta. destruct (Color_eqb _ Black);
        rewrite ?meta_with_position, meta_update_halfmove_clock,
          meta_update_en_passant_target, meta_with_position; exact Hm.
    + split; [assumption|]. intros e _. apply He with e1. reflexivity.
  - destruct (is_en_passant mv); intros H; inversion H; subst; clear H;
      (split; [|intros e Hx; discriminate]); cbv zeta;
      destruct (Color_eqb _ Black);
      rewrite ?meta_with_position, meta_update_halfmove_clock,
        meta_update_en_passant_target, meta_with_position; reflexivity.
Qed.

Lemma make_move_cases g mv r g' :
  make_move g mv = (r, g') ->
  (exists e, r = Err e /\ g' = g)
  \/ (r = Ok tt /\ exists ga,
        meta ga = (move_history g, position_snapshots g ++ [position g], status g)
        /\ g' = with_status (with_move_history ga (move_history ga ++ [mv]))
                  (compute_game_status (with_move_history ga (move_history ga ++ [mv])))).
Proof.
  unfold make_move.
  destruct (negb (is_active (status g))).
  { intros H; inversion H; subst. left. eexists; split; reflexivity. }
  destruct (negb (is_legal_move (position g) mv)).
  { intros H; inversion H; subst. left. eexists; split; reflexivity. }
  destruct (apply_move_to_position _ mv) as [r1 g1] eqn:Ha.
  apply apply_move_to_position_meta in Ha as [Hm He].
  destruct r1 as [[]|e1]; intros H; inversion H; subst; clear H.
  - right. split; [reflexivity|]. exists g1. split; [exact Hm | reflexivity].
  - left. exists e1. split; [reflexivity|].
    rewrite (He e1 eq_refl). destruct g; simpl. rewrite removelast_last. reflexivity.
Qed.

Lemma length_removelast_S {A} (l : list A) :
  l <> [] -> (length (removelast l) + 1 = length l)%nat.
Proof.
  intros H. destruct l as [|a l]; [congruence|].
  rewrite (app_removelast_last a H) at 2. rewrite length_app. reflexivity.
Qed.

Lemma undo_move_cases g r g' :
  undo_move g = (r, g') ->
  (position_snapshots g = [] /\ r = Err InvalidMove /\ g' = g)
  \/ (position_snapshots g <> [] /\ r = Ok tt
      /\ position g' = last (position_snapshots g) (position g)
      /\ position_snapshots g' = removelast (position_snapshots g)
      /\ move_history g' = removelast (move_history g)
      /\ status g' = compute_game_status_static (position g')).
Proof.
  unfold undo_move. intros H.
  destruct (position_snapshots g) as [|p ps] eqn:E; injection H as <- <-.
  - left. auto.
  - right. split; [discriminate|]. repeat split; reflexivity.
Qed.

(* ------------------------------------------------------------------ *)
(** ** The claims *)

(** C2: a [make_move] that returns an error leaves the game unchanged: the
    position (hence its FEN), the move history, the snapshot stack and the
    status are all as before the call. *)
Theorem make_move_error_leaves_game_unchanged (g : ChessGame) (mv : Move)
    (e : ChessError) (g' : ChessGame) :
  make_move g mv = (Err e, g') ->
  g' = g /\ ChessGame_to_fen g' = ChessGame_to_fen g
  /\ position g' = position g /\ move_history g' = move_history g
  /\ position_snapshots g' = position_snapshots g /\ status g' = status g.
Proof.
  intros H. apply make_move_cases in H as [[e' [_ ->]]|[Hr _]]; [|discriminate].
  repeat split; reflexivity.
Qed.

Lemma make_move_error_leaves_game_unchanged_witness :
  make_move ChessGame_new e1g1_castling = (Err InvalidMove, ChessGame_new)
  /\ (ChessGame_new = ChessGame_new
      /\ ChessGame_to_fen ChessGame_new = ChessGame_to_fen ChessGame_new
      /\ position ChessGame_new = position ChessGame_new
      /\ move_history ChessGame_new = move_history ChessGame_new
      /\ position_snapshots ChessGame_new = position_snapshots ChessGame_new
      /\ status ChessGame_new = status ChessGame_new).
Proof.
  assert (H : make_move ChessGame_new e1g1_castling = (Err InvalidMove, ChessGame_new))
    by (vm_compute; reflexivity).
  split; [exact H|].
  exact (make_move_error_leaves_game_unchanged _ _ _ _ H).
Defined.

(** C3: after a successful [make_move], [undo_move] succeeds and restores
    the position, so the FEN is the one before the pair of calls. *)
Theorem make_move_then_undo_restores_fen (g : ChessGame) (mv : Move) (g1 : ChessGame) :
  make_move g mv = (Ok tt, g1) ->
  exists g2, undo_move g1 = (Ok tt, g2)
             /\ position g2 = position g
             /\ ChessGame_to_fen g2 = ChessGame_to_fen g.
Proof.
  intros H. apply make_move_cases in H as [[e [He _]]|[_ [ga [Hm ->]]]]; [discriminate|].
  unfold meta in Hm. injection Hm as _ Hs _.
  match goal with |- exists g2, undo_move ?g1 = _ /\ _ => destruct (undo_move g1) as [r g2] eqn:Hu end.
  apply undo_move_cases in Hu as [[Hn _]|[_ [-> [Hp _]]]]; simpl in *; rewrite Hs in *.
  - destruct (position_snapshots g); discriminate.
  - exists g2. rewrite last_last in Hp. unfold ChessGame_to_fen. rewrite Hp.
    repeat split; reflexivity.
Qed.

Lemma make_move_then_undo_restores_fen_witness :
  make_move ChessGame_new e2e4 = (Ok tt, snd (make_move ChessGame_new e2e4))
  /\ exists g2, undo_move (snd (make_move ChessGame_new e2e4)) = (Ok tt, g2)
               /\ position g2 = position ChessGame_new
               /\ ChessGame_to_fen g2 = ChessGame_to_fen ChessGame_new.
Proof.
  assert (H : make_move ChessGame_new e2e4 = (Ok tt, snd (make_move ChessGame_new e2e4)))
    by (vm_compute; reflexivity).
  split; [exact H|].
  exact (make_move_then_undo_restores_fen _ _ _ H).
Defined.

(** C10: in every reachable state the move history and the snapshot stack
    have the same length; [make_move] grows both by one exactly when it
    returns [Ok] (and leaves them alone otherwise), and [undo_move] shrinks
    both by one exactly when it returns [Ok]. *)
Theorem history_and_snapshots_in_step (g : ChessGame) :
  reachable g ->
  length (move_history g) = length (position_snapshots g)
  /\ (forall mv, let '(r, g') := make_move g mv in
        length (move_history g') = (length (move_history g) + if is_ok r then 1 else 0)%nat
        /\ length (position_snapshots g')
           = (length (position_snapshots g) + if is_ok r then 1 else 0)%nat)
  /\ (let '(r, g') := undo_move g in
        (length (move_history g') + (if is_ok r then 1 else 0) = length (move_history g))%nat
        /\ (length (position_snapshots g') + (if is_ok r then 1 else 0)
            = length (position_snapshots g))%nat).
Proof.
  assert (Hmake : forall g mv, let '(r, g') := make_move g mv in
        length (move_history g') = (length (move_history g) + if is_ok r then 1 else 0)%nat
        /\ length (position_snapshots g')
           = (length (position_snapshots g) + if is_ok r then 1 else 0)%nat).
  { intros g0 mv. destruct (make_move g0 mv) as [r g'] eqn:H.
    apply make_move_cases in H as [[e [-> ->]]|[-> [ga [Hm ->]]]].
    - simpl. lia.
    - unfold meta in Hm. injection Hm as Hh Hs _. simpl.
      rewrite length_app, Hh, Hs, length_app. simpl. lia. }
  assert (Hundo : forall g, length (move_history g) = length (position_snapshots g) ->
        let '(r, g') := undo_move g in
        (length (move_history g') + (if is_ok r then 1 else 0) = length (move_history g))%nat
        /\ (length (position_snapshots g') + (if is_ok r then 1 else 0)
            = length (position_snapshots g))%nat).
  { intros g0 Hl. destruct (undo_move g0) as [r g'] eqn:H.
    apply undo_move_cases in H as [[_ [-> ->]]|[Hn [-> [_ [Hs [Hh _]]]]]].
    - simpl. lia.
    - simpl. rewrite Hs, Hh. split; apply length_removelast_S; [|exact Hn].
      intros E. rewrite E in Hl. destruct (position_snapshots g0); [congruence|discriminate]. }
  intros Hr. induction Hr as [|fen g0 Hf|g0 mv _ IH|g0 _ IH].
  - split; [reflexivity|split]; [apply Hmake | apply Hundo; reflexivity].
  - unfold ChessGame_from_fen in Hf. destruct (parse_fen fen); [|discriminate].
    injection Hf as <-.
    split; [reflexivity|split]; [apply Hmake | apply Hundo; reflexivity].
  - destruct IH as [Hl _]. split; [|split]; [|apply Hmake|apply Hundo].
    + generalize (Hmake g0 mv). destruct (make_move g0 mv) as [r g']. simpl. lia.
    + generalize (Hmake g0 mv). destruct (make_move g0 mv) as [r g']. simpl. lia.
  - destruct IH as [Hl _]. split; [|split]; [|apply Hmake|apply Hundo].
    + generalize (Hundo g0 Hl). destruct (undo_move g0) as [r g']. simpl. lia.
    + generalize (Hundo g0 Hl). destruct (undo_move g0) as [r g']. simpl. lia.
Qed.

Lemma history_and_snapshots_in_step_witness :
  reachable ChessGame_new
  /\ length (move_history ChessGame_new) = length (position_snapshots ChessGame_new)
  /\ (forall mv, let '(r, g') := make_move ChessGame_new mv in
        length (move_history g')
        = (length (move_history ChessGame_new) + if is_ok r then 1 else 0)%nat
        /\ length (position_snapshots g')
           = (length (position_snapshots ChessGame_new) + if is_ok r then 1 else 0)%nat)
  /\ (let '(r, g') := undo_move ChessGame_new in
        (length (move_history g') + (if is_ok r then 1 else 0)
         = length (move_history ChessGame_new))%nat
        /\ (length (position_snapshots g') + (if is_ok r then 1 else 0)
            = length (position_snapshots ChessGame_new))%nat).
Proof.
  split; [exact reachable_new|].
  exact (history_and_snapshots_in_step ChessGame_new reachable_new).
Defined.

Lemma compute_game_status_static_precedence (p : Position) :
  compute_game_status_static p = status_by_precedence p.
Proof.
  unfold compute_game_status_static, status_by_precedence, is_checkmate, is_stalemate.
  destruct (generate_legal_moves p); simpl;
    destruct (is_in_check p (side_to_move p)); simpl; reflexivity.
Qed.

(** C5: the status is the first match of the specification's precedence
    list (checkmate, stalemate, fifty-move rule, insufficient material,
    repetition, check, in progress), and the game stores exactly this
    status, recomputed from its new position, after every successful
    [make_move] and [undo_move]. *)
Theorem game_status_follows_precedence (g : ChessGame) (mv : Move) :
  compute_game_status_static (position g) = status_by_precedence (position g)
  /\ (forall g', make_move g mv = (Ok tt, g') -> status g' = status_by_precedence (position g'))
  /\ (forall g', undo_move g = (Ok tt, g') -> status g' = status_by_precedence (position g')).
Proof.
  split; [apply compute_game_status_static_precedence|split]; intros g' H.
  - apply make_move_cases in H as [[e [He _]]|[_ [ga [_ ->]]]]; [discriminate|].
    apply compute_game_status_static_precedence.
  - apply undo_move_cases in H as [[_ [He _]]|[_ [_ [_ [_ [_ ->]]]]]]; [discriminate|].
    apply compute_game_status_static_precedence.
Qed.

Lemma game_status_follows_precedence_witness :
  status ChessGame_new = InProgress
  /\ compute_game_status_static (position ChessGame_new)
     = status_by_precedence (position ChessGame_new)
  /\ (forall g', make_move ChessGame_new e2e4 = (Ok tt, g') ->
        status g' = status_by_precedence (position g'))
  /\ (forall g', undo_move ChessGame_new = (Ok tt, g') ->
        status g' = status_by_precedence (position g')).
Proof.
  split; [vm_compute; reflexivity|].
  exact (game_status_follows_precedence ChessGame_new e2e4).
Defined.

Lemma if_negb_then_false (a r : bool) : (if negb a then false else r) = a && r.
Proof. destruct a; reflexivity. Qed.

Lemma if_then_false (a r : bool) : (if a then false else r) = negb a && r.
Proof. destruct a; reflexivity. Qed.

Lemma is_own_piece_iff x p c : is_own_piece x p c = true <-> x = Some (p, c).
Proof.
  destruct x as [[p' c']|]; [|split; discriminate].
  destruct p, p', c, c'; simpl; split; congruence.
Qed.

Lemma Board_is_empty_iff b sq : Board_is_empty b sq = true <-> Board_get b sq = None.
Proof. unfold Board_is_empty. destruct (Board_get b sq); split; congruence. Qed.

Ltac castling_case :=
  rewrite ?if_negb_then_false, ?if_then_false, ?negb_orb, ?negb_involutive;
  rewrite ?andb_true_iff, ?negb_true_iff, ?is_own_piece_iff, ?Board_is_empty_iff;
  cbn [castling_right CastlingRights_can_castle Z.min Z.max];
  split; intros H; decompose [and] H; clear H; repeat split; try assumption;
  [ intros f Hf; simpl in Hf;
    assert (Hcases : f = 1 \/ f = 2 \/ f = 3 \/ f = 5 \/ f = 6) by lia;
    destruct Hcases as [->|[->|[->|[->| ->]]]]; first [assumption | lia]
  | .. ];
  match goal with Hb : forall f, _ |- _ => apply Hb; simpl; lia end.

(** C6: a move flagged as castling is legal exactly when the side to move
    holds the matching right (kingside iff the target file is beyond the
    source file), its king and that rook stand on their home squares, the
    squares strictly between them are empty, the side is not in check, and
    neither the square the king passes nor the one it lands on is attacked
    by the opponent. *)
Theorem castling_legality (p : Position) (mv : Move) :
  is_castling mv = true ->
  (is_legal_move p mv = true <-> castling_conditions p mv).
Proof.
  intros Hc. unfold is_legal_move, castling_conditions. rewrite Hc.
  destruct (Square_file (to mv) >? Square_file (from mv));
    destruct (side_to_move p);
    unfold can_castle_kingside, can_castle_queenside; cbn [Color_eqb Color_opposite];
    castling_case.
Qed.

Lemma castling_legality_witness :
  is_castling e1g1_castling = true
  /\ is_legal_move castling_position e1g1_castling = true
  /\ (is_legal_move castling_position e1g1_castling = true
      <-> castling_conditions castling_position e1g1_castling).
Proof.
  split; [reflexivity|]. split; [vm_compute; reflexivity|].
  apply castling_legality. reflexivity.
Defined.

(** C9: a move not flagged as castling, with any squares, is legal exactly
    when the mover's king is not attacked by the opponent on the board of
    the position with the move's effect applied; being a generated move is
    not required, and [make_move] accepts the pawn jump e2-e5 from the
    initial position although the generator never produces it. *)
Theorem non_castling_legality_is_king_safety :
  (forall (p : Position) (mv : Move), is_castling mv = false ->
     (is_legal_move p mv = true
      <-> let t := apply_move_for_validation p mv in
          forall k, Board_find_king (board t) (side_to_move p) = Some k ->
                    Board_is_attacked_by (board t) k (Color_opposite (side_to_move p)) = false))
  /\ fst (make_move ChessGame_new e2e5) = Ok tt
  /\ existsb (Move_eqb e2e5) (generate_pseudo_legal_moves (position ChessGame_new)) = false.
Proof.
  split; [|split; vm_compute; reflexivity].
  intros p mv Hc. unfold is_legal_move, is_in_check. rewrite Hc. cbv zeta.
  destruct (Board_find_king _ _) as [k|].
  - rewrite negb_true_iff. split.
    + intros H k' Hk. injection Hk as <-. exact H.
    + intros H. apply H. reflexivity.
  - split; [intros _ k' Hk; discriminate | reflexivity].
Qed.

Lemma non_castling_legality_is_king_safety_witness :
  is_castling e2e5 = false
  /\ (is_legal_move Position_new e2e5 = true
      <-> let t := apply_move_for_validation Position_new e2e5 in
          forall k, Board_find_king (board t) (side_to_move Position_new) = Some k ->
                    Board_is_attacked_by (board t) k
                      (Color_opposite (side_to_move Position_new)) = false).
Proof.
  split; [reflexivity|].
  apply (proj1 non_castling_legality_is_king_safety). reflexivity.
Defined.

(** C1 (the code does not do what the specification asks): the castling
    rights are updated after the board has been changed, so the source
    square is already empty and the target square holds the mover.  A king
    move e1-e2 succeeds and White keeps its kingside right, whereas the perft
    helper of the tests, which updates the rights before moving, clears it;
    a black bishop taking the White rook on h1 succeeds and White keeps its
    kingside right as well. *)
Theorem castling_rights_read_post_move_board :
  Board_get (board (position king_rook_game)) (mkSquare 4) = Some (King, White)
  /\ make_move king_rook_game e1e2
     = (Ok tt, snd (make_move king_rook_game e1e2))
  /\ white_kingside (castling_rights (position (snd (make_move king_rook_game e1e2)))) = true
  /\ ChessGame_to_fen (snd (make_move king_rook_game e1e2))
     = str "4k3/8/8/8/8/8/4K3/7R b K - 1 1"
  /\ white_kingside (castling_rights
       (apply_move_for_perft (position king_rook_game) e1e2)) = false
  /\ Board_get (board (position bishop_takes_rook_game)) (mkSquare 7) = Some (Rook, White)
  /\ make_move bishop_takes_rook_game a8h1
     = (Ok tt, snd (make_move bishop_takes_rook_game a8h1))
  /\ white_kingside
       (castling_rights (position (snd (make_move bishop_takes_rook_game a8h1)))) = true
  /\ ChessGame_to_fen (snd (make_move bishop_takes_rook_game a8h1))
     = str "4k3/8/8/8/8/8/8/4K2b w K - 0 2".
Proof. repeat match goal with |- _ /\ _ => split end; vm_compute; reflexivity. Qed.

(** C8: perft from the initial position, with the legal moves of
    [generate_legal_moves] and the tests' move application, is 20, 400, 8902
    and 197281 at depths 1 to 4; the initial position has 20 legal moves
    and its game status is [InProgress]. *)
Theorem perft_initial_position :
  length (generate_legal_moves Position_new) = 20%nat
  /\ status ChessGame_new = InProgress
  /\ perft Position_new 1 = 20
  /\ perft Position_new 2 = 400
  /\ perft Position_new 3 = 8902
  /\ perft Position_new 4 = 197281.
Proof. repeat match goal with |- _ /\ _ => split end; vm_compute; reflexivity. Qed.

(** *** The board tree as an array *)

Section TreeLevel.
Context {A : Type} (get : A -> Z -> Cell) (set : A -> Z -> Cell -> A)
  (same : Z -> Z -> bool).
Hypothesis get_set : forall t i j x, get (set t i x) j = if same i j then x else get t j.

Lemma get_set_node (bit : Z) t i j x :
  get_node bit get (set_node bit set t i x) j
  = if Bool.eqb (Z.testbit i bit) (Z.testbit j bit) && same i j then x
    else get_node bit get t j.
Proof.
  unfold get_node, set_node.
  destruct (Z.testbit i bit), (Z.testbit j bit); simpl; apply get_set || reflexivity.
Qed.
End TreeLevel.

Lemma testbits_6_inj i j :
  0 <= i < 64 -> 0 <= j < 64 ->
  (forall n, 0 <= n < 6 -> Z.testbit i n = Z.testbit j n) -> i = j.
Proof.
  intros Hi Hj H. apply Z.bits_inj'. intros n Hn.
  destruct (Z.lt_ge_cases n 6) as [Hlt|Hge]; [apply H; lia|].
  assert (Hz : forall k, 0 <= k < 64 -> Z.testbit k n = false).
  { intros k Hk. destruct (Z.eq_dec k 0) as [->|Hk0]; [apply Z.testbit_0_l|].
    apply Z.bits_above_log2; [lia|].
    assert (Z.log2 k < 6) by (apply Z.log2_lt_pow2; lia). lia. }
  rewrite !Hz; auto.
Qed.

Lemma cells_get_set t i j x :
  0 <= i < 64 -> 0 <= j < 64 ->
  cells_get (cells_set t i x) j = if i =? j then x else cells_get t j.
Proof.
  intros Hi Hj.
  assert (H0 : forall (t : Cell) i j x,
             get_leaf (set_leaf t i x) j = if (fun _ _ => true) i j then x else get_leaf t j)
    by reflexivity.
  pose proof (get_set_node _ _ (fun _ _ => true) H0 0) as H1.
  pose proof (get_set_node _ _ _ H1 1) as H2.
  pose proof (get_set_node _ _ _ H2 2) as H3.
  pose proof (get_set_node _ _ _ H3 3) as H4.
  pose proof (get_set_node _ _ _ H4 4) as H5.
  pose proof (get_set_node _ _ _ H5 5) as H6.
  unfold cells_get, cells_set. rewrite H6. clear H0 H1 H2 H3 H4 H5 H6.
  destruct (i =? j) eqn:E.
  - apply Z.eqb_eq in E. subst. rewrite !eqb_reflx. reflexivity.
  - apply Z.eqb_neq in E.
    destruct (Bool.eqb (Z.testbit i 5) (Z.testbit j 5) && _) eqn:Hb; [|reflexivity].
    exfalso. apply E. apply testbits_6_inj; auto.
    rewrite !andb_true_iff, !eqb_true_iff in Hb.
    intros n Hn. assert (n = 0 \/ n = 1 \/ n = 2 \/ n = 3 \/ n = 4 \/ n = 5) by lia.
    intuition (subst; assumption).
Qed.

Lemma Board_get_set b sq sq' x :
  0 <= index sq < 64 -> 0 <= index sq' < 64 ->
  Board_get (Board_set b sq x) sq'
  = if index sq =? index sq' then x else Board_get b sq'.
Proof. intros. apply cells_get_set; assumption. Qed.

Lemma Board_get_new sq : Board_get Board_new sq = None.
Proof.
  cbv beta iota zeta delta [Board_get Board_new cells_get cells_empty get_node get_leaf
    squares fst snd].
  repeat destruct (Z.testbit _ _); reflexivity.
Qed.

(** *** The placement parser *)

Ltac zcases :=
  repeat match goal with
         | |- context [?a =? ?b] => destruct (Z.eqb_spec a b)
         | |- context [?a <=? ?b] => destruct (Z.leb_spec a b)
         | |- context [?a <? ?b] => destruct (Z.ltb_spec a b)
         end; cbn [andb orb negb].

Lemma place_repeat_None b rank file n L :
  place b rank file (repeat None n ++ L) = place b rank (file + Z.of_nat n) L.
Proof.
  revert file. induction n as [|n IH]; intros file; simpl.
  - rewrite Z.add_0_r. reflexivity.
  - rewrite IH. f_equal. lia.
Qed.

Lemma expand_rank_cons c cs : expand_rank (c :: cs) = expand_char c ++ expand_rank cs.
Proof. reflexivity. Qed.

Lemma parse_rank_chars_place b rank file cs b' file' :
  0 <= rank < 8 -> 0 <= file <= 8 ->
  parse_rank_chars b rank file cs = Ok (b', file') ->
  b' = place b rank file (expand_rank cs)
  /\ file' = file + Z.of_nat (length (expand_rank cs)) /\ file' <= 8.
Proof.
  revert b file. induction cs as [|c cs IH]; intros b file Hr Hf; cbn [parse_rank_chars].
  - intros H. injection H as <- <-. simpl. repeat split; lia.
  - destruct (Z.geb_spec file 8); [discriminate|].
    rewrite expand_rank_cons. unfold expand_char.
    destruct (is_ascii_digit c) eqn:Hd.
    + destruct (Z.leb_spec 1 (c - 48)); [|discriminate].
      destruct (Z.leb_spec (c - 48) 8); [|discriminate].
      destruct (Z.gtb_spec (file + (c - 48)) 8); [discriminate|].
      intros Hpr. apply IH in Hpr as [-> [-> Hle]]; [|lia|lia].
      rewrite place_repeat_None, Z2Nat.id by lia.
      rewrite length_app, repeat_length. repeat split; lia.
    + destruct (fen_char_to_piece c) as [[p col]|] eqn:Hp; [|discriminate].
      unfold Square_from_rank_file.
      destruct (Z.ltb_spec rank 8); [|lia]. destruct (Z.ltb_spec file 8); [|lia]. simpl.
      intros Hpr. apply IH in Hpr as [-> [-> Hle]]; [|lia|lia].
      repeat split; lia.
Qed.

Lemma get_place b rank file L r f :
  0 <= rank < 8 -> 0 <= file -> file + Z.of_nat (length L) <= 8 ->
  0 <= r < 8 -> 0 <= f < 8 ->
  Board_get (place b rank file L) (mkSquare (r * 8 + f))
  = if (r =? rank) && (file <=? f) && (f <? file + Z.of_nat (length L))
    then overlay (nth (Z.to_nat (f - file)) L None) (Board_get b (mkSquare (r * 8 + f)))
    else Board_get b (mkSquare (r * 8 + f)).
Proof.
  revert b file. induction L as [|x L IH]; intros b file Hrk Hf Hlen Hr Hff.
  - simpl. zcases; reflexivity || lia.
  - cbn [length] in Hlen |- *. rewrite Nat2Z.inj_succ in Hlen |- *.
    destruct x as [c|]; simpl; rewrite IH by lia;
      [rewrite Board_get_set by (simpl; lia); simpl|];
      zcases; try lia; try reflexivity;
      first [ replace f with file by lia; rewrite Z.sub_diag; reflexivity
            | replace (Z.to_nat (f - file)) with (S (Z.to_nat (f - (file + 1)))) by lia;
              reflexivity ].
Qed.

Lemma parse_ranks_get b ri ranks b' :
  parse_ranks b ri ranks = Ok b' -> 0 <= ri -> ri + Z.of_nat (length ranks) <= 8 ->
  Forall (fun r => length (expand_rank r) = 8%nat) ranks
  /\ forall r f, 0 <= r < 8 -> 0 <= f < 8 ->
       Board_get b' (mkSquare (r * 8 + f))
       = if (7 - ri - Z.of_nat (length ranks) <? r) && (r <=? 7 - ri)
         then overlay (nth (Z.to_nat f) (expand_rank (nth (Z.to_nat (7 - ri - r)) ranks [])) None)
                (Board_get b (mkSquare (r * 8 + f)))
         else Board_get b (mkSquare (r * 8 + f)).
Proof.
  revert b ri. induction ranks as [|r0 rs IH]; intros b ri Hp Hri Hlen; cbn [parse_ranks] in Hp.
  - injection Hp as <-. split; [constructor|]. intros r f Hr Hf. simpl. zcases; reflexivity || lia.
  - destruct (parse_rank_chars b (7 - ri) 0 r0) as [[b1 file]|e] eqn:Hc; [|discriminate].
    simpl in Hp. destruct (Z.eqb_spec file 8) as [->|]; [|discriminate]. simpl in Hp.
    cbn [length] in Hlen. rewrite Nat2Z.inj_succ in Hlen.
    apply parse_rank_chars_place in Hc as [-> [H8 _]]; [|lia|lia].
    apply IH in Hp as [Hall Hget]; [|lia|lia].
    split; [constructor; [lia|exact Hall]|].
    intros r f Hr Hf. rewrite Hget by assumption.
    rewrite get_place by lia.
    cbn [length]. rewrite Nat2Z.inj_succ.
    rewrite <- H8. zcases; try lia; try reflexivity;
      first [ replace (Z.to_nat (7 - ri - r)) with (S (Z.to_nat (7 - (ri + 1) - r))) by lia;
              reflexivity
            | replace (Z.to_nat (7 - ri - r)) with 0%nat by lia; rewrite Z.sub_0_r;
              reflexivity ].
Qed.

Lemma parse_piece_placement_get placement b :
  parse_piece_placement Board_new placement = Ok b ->
  length (split_on (Z.eqb 47) placement) = 8%nat
  /\ Forall (fun r => length (expand_rank r) = 8%nat) (split_on (Z.eqb 47) placement)
  /\ forall r f, 0 <= r < 8 -> 0 <= f < 8 ->
       Board_get b (mkSquare (r * 8 + f)) = described_cell (split_on (Z.eqb 47) placement) r f.
Proof.
  unfold parse_piece_placement.
  destruct (Nat.eqb_spec (length (split_on (Z.eqb 47) placement)) 8) as [H8|]; [|discriminate].
  cbn [negb]. intros Hp. apply parse_ranks_get in Hp as [Hall Hget]; [|lia|rewrite H8; lia].
  split; [exact H8|]. split; [exact Hall|].
  intros r f Hr Hf. rewrite Hget by assumption. rewrite H8.
  zcases; try lia. rewrite Board_get_new, Z.sub_0_r.
  unfold described_cell, overlay. destruct (nth _ _ _); reflexivity.
Qed.

Lemma validate_position_history p h :
  validate_position (with_position_history p h) = validate_position p.
Proof.
  unfold validate_position, with_position_history.
  cbn [board side_to_move castling_rights en_passant_target]. reflexivity.
Qed.

(** The steps of a successful [parse_fen]. *)
Lemma parse_fen_fields s p :
  parse_fen s = Ok p ->
  exists f0 f1 f2 f3 f4 f5,
    split_whitespace s = [f0; f1; f2; f3; f4; f5]
    /\ parse_piece_placement Board_new f0 = Ok (board p)
    /\ parse_active_color f1 = Ok (side_to_move p)
    /\ parse_castling_rights f2 = Ok (castling_rights p)
    /\ parse_en_passant f3 = Ok (en_passant_target p)
    /\ parse_u32 f4 = Some (halfmove_clock p)
    /\ parse_u32 f5 = Some (fullmove_number p)
    /\ validate_position p = Ok tt.
Proof.
  unfold parse_fen.
  destruct (split_whitespace s) as [|f0 [|f1 [|f2 [|f3 [|f4 [|f5 [|f6 rest]]]]]]];
    try discriminate.
  cbn [length Nat.eqb negb nth].
  destruct (parse_piece_placement _ f0) as [b|] eqn:H0; [|discriminate]. cbn [bind].
  destruct (parse_active_color f1) as [c|] eqn:H1; [|discriminate]. cbn [bind].
  destruct (parse_castling_rights f2) as [cr|] eqn:H2; [|discriminate]. cbn [bind].
  destruct (parse_en_passant f3) as [ep|] eqn:H3; [|discriminate]. cbn [bind].
  destruct (parse_u32 f4) as [hm|] eqn:H4; [|discriminate]. cbn [bind].
  destruct (parse_u32 f5) as [fm|] eqn:H5; [|discriminate]. cbn [bind].
  destruct (validate_position _) as [[]|] eqn:H6; [|discriminate]. cbn [bind].
  intros Hp. injection Hp as <-.
  exists f0, f1, f2, f3, f4, f5. rewrite validate_position_history.
  unfold with_position_history.
  cbn [board side_to_move castling_rights en_passant_target halfmove_clock fullmove_number].
  repeat (split; [first [reflexivity | assumption]|]). exact H6.
Qed.

(** *** The other fields *)

Lemma rstr_eqb_true a b : rstr_eqb a b = true <-> a = b.
Proof.
  unfold rstr_eqb. revert b. induction a as [|x a IH]; intros [|y b];
    try (simpl; split; [discriminate|congruence]); [simpl; split; reflexivity|].
  specialize (IH b). rewrite andb_true_iff in IH.
  cbn [length combine forallb Nat.eqb]. rewrite !andb_true_iff, Z.eqb_eq. split.
  - intros [Hl [-> Hf]]. f_equal. apply IH. auto.
  - intros H. injection H as -> ->. destruct (proj2 IH eq_refl) as [HA HB]. auto.
Qed.

Lemma parse_active_color_ok s c :
  parse_active_color s = Ok c -> (c = White /\ s = str "w") \/ (c = Black /\ s = str "b").
Proof.
  unfold parse_active_color.
  destruct (rstr_eqb s (str "w")) eqn:Hw.
  - intros H. injection H as <-. left. split; [reflexivity|]. apply rstr_eqb_true, Hw.
  - destruct (rstr_eqb s (str "b")) eqn:Hb; [|discriminate].
    intros H. injection H as <-. right. split; [reflexivity|]. apply rstr_eqb_true, Hb.
Qed.

Lemma parse_castling_chars_In rights s cr :
  parse_castling_chars rights s = Ok cr ->
  ((In 75 s \/ white_kingside rights = true) -> white_kingside cr = true)
  /\ ((In 81 s \/ white_queenside rights = true) -> white_queenside cr = true)
  /\ ((In 107 s \/ black_kingside rights = true) -> black_kingside cr = true)
  /\ ((In 113 s \/ black_queenside rights = true) -> black_queenside cr = true).
Proof.
  revert rights. induction s as [|c s IH]; intros rights; cbn [parse_castling_chars].
  - intros H. injection H as <-. simpl. intuition.
  - destruct rights as [wk wq bk bq].
    destruct (Z.eqb_spec c 75) as [->|];
      [intros H; apply IH in H; simpl in *; intuition congruence|].
    destruct (Z.eqb_spec c 81) as [->|];
      [intros H; apply IH in H; simpl in *; intuition congruence|].
    destruct (Z.eqb_spec c 107) as [->|];
      [intros H; apply IH in H; simpl in *; intuition congruence|].
    destruct (Z.eqb_spec c 113) as [->|]; [|discriminate].
    intros H; apply IH in H; simpl in *; intuition congruence.
Qed.

Lemma parse_castling_rights_In s cr :
  parse_castling_rights s = Ok cr ->
  (In 75 s -> white_kingside cr = true) /\ (In 81 s -> white_queenside cr = true)
  /\ (In 107 s -> black_kingside cr = true) /\ (In 113 s -> black_queenside cr = true).
Proof.
  unfold parse_castling_rights. destruct (rstr_eqb s (str "-")) eqn:E.
  - apply rstr_eqb_true in E. subst. intros _. simpl. intuition discriminate.
  - intros H. apply parse_castling_chars_In in H. intuition.
Qed.

Lemma utf8_len_nonneg s : 0 <= utf8_len s.
Proof.
  induction s as [|c s IH]; simpl; [lia|].
  destruct (c <? 128), (c <? 2048), (c <? 65536); lia.
Qed.

Lemma Square_from_algebraic_ok s sq :
  Square_from_algebraic s = Ok sq ->
  exists c0 c1, s = [c0; c1] /\ 97 <= c0 <= 104 /\ 49 <= c1 <= 56
                /\ sq = mkSquare ((c1 - 49) * 8 + (c0 - 97)).
Proof.
  unfold Square_from_algebraic.
  destruct s as [|c0 [|c1 [|c2 rest]]]; try discriminate.
  - intros H. destruct (negb _); [discriminate|].
    destruct (_ && _); discriminate.
  - intros H. destruct (negb _); [discriminate|].
    destruct (Z.leb_spec 97 c0), (Z.leb_spec c0 104); try discriminate.
    destruct (Z.leb_spec 49 c1), (Z.leb_spec c1 56); try discriminate.
    injection H as <-. exists c0, c1. repeat split; lia.
  - intros H. exfalso.
    destruct (Z.eqb_spec (utf8_len (c0 :: c1 :: c2 :: rest)) 2) as [E|]; [|discriminate].
    pose proof (utf8_len_nonneg rest) as Hn. cbn [utf8_len fold_right] in E.
    unfold utf8_len in Hn.
    destruct (c0 <? 128), (c0 <? 2048), (c0 <? 65536), (c1 <? 128), (c1 <? 2048),
      (c1 <? 65536), (c2 <? 128), (c2 <? 2048), (c2 <? 65536); lia.
Qed.

Lemma Square_rank_file_of c0 c1 :
  97 <= c0 <= 104 -> 49 <= c1 <= 56 ->
  Square_rank (mkSquare ((c1 - 49) * 8 + (c0 - 97))) = c1 - 49
  /\ Square_file (mkSquare ((c1 - 49) * 8 + (c0 - 97))) = c0 - 97.
Proof.
  intros H0 H1. rewrite Square_rank_div, Square_file_mod by (simpl; lia). simpl.
  split.
  - rewrite Z.div_add_l by lia. rewrite (Z.div_small (c0 - 97)) by lia. lia.
  - rewrite Z.add_comm, Z.mod_add by lia. apply Z.mod_small. lia.
Qed.

Lemma existsb_false_forall {A} (g : A -> bool) l :
  existsb g l = false -> forall x, In x l -> g x = false.
Proof.
  induction l as [|a l IH]; simpl; [tauto|].
  intros H x [<-|Hx]; apply orb_false_iff in H as [H1 H2]; auto.
Qed.

Lemma is_piece_true x p c : is_piece x p c = true <-> x = Some (p, c).
Proof. apply is_own_piece_iff. Qed.

Lemma validate_position_ok p :
  validate_position p = Ok tt ->
  count_kings (board p) White = 1%nat /\ count_kings (board p) Black = 1%nat
  /\ (forall f c, In f [0; 1; 2; 3; 4; 5; 6; 7] ->
        Board_get (board p) (mkSquare f) <> Some (Pawn, c)
        /\ Board_get (board p) (mkSquare (56 + f)) <> Some (Pawn, c))
  /\ (forall sq, en_passant_target p = Some sq ->
        Square_rank sq = match side_to_move p with White => 5 | Black => 2 end)
  /\ (white_kingside (castling_rights p) = true ->
        Board_get (board p) (mkSquare 4) = Some (King, White)
        /\ Board_get (board p) (mkSquare 7) = Some (Rook, White))
  /\ (white_queenside (castling_rights p) = true ->
        Board_get (board p) (mkSquare 4) = Some (King, White)
        /\ Board_get (board p) (mkSquare 0) = Some (Rook, White))
  /\ (black_kingside (castling_rights p) = true ->
        Board_get (board p) (mkSquare 60) = Some (King, Black)
        /\ Board_get (board p) (mkSquare 63) = Some (Rook, Black))
  /\ (black_queenside (castling_rights p) = true ->
        Board_get (board p) (mkSquare 60) = Some (King, Black)
        /\ Board_get (board p) (mkSquare 56) = Some (Rook, Black)).
Proof.
  unfold validate_position.
  destruct (Nat.eqb_spec (count_kings (board p) White) 0); [discriminate|].
  destruct (Nat.ltb_spec 1 (count_kings (board p) White)); [discriminate|].
  destruct (Nat.eqb_spec (count_kings (board p) Black) 0); [discriminate|].
  destruct (Nat.ltb_spec 1 (count_kings (board p) Black)); [discriminate|].
  destruct (existsb _ _) eqn:Hpawn; [discriminate|].
  intros Hv. split; [lia|]. split; [lia|]. split.
  { intros f c Hf. pose proof (existsb_false_forall _ _ Hpawn f Hf) as Hp.
    cbv beta in Hp. apply orb_false_iff in Hp as [H1 H2].
    split; intros E; [rewrite E in H1 | rewrite E in H2]; discriminate. }
  destruct (en_passant_target p) as [ep|] eqn:Hep.
  - destruct (Z.eqb_spec (Square_rank ep) (if Color_eqb (side_to_move p) White then 5 else 2))
      as [Hr|]; [|discriminate].
    cbn [negb bind] in Hv. split.
    + intros sq Hs. injection Hs as <-. rewrite Hr. destruct (side_to_move p); reflexivity.
    + revert Hv. destruct (castling_rights p) as [[] [] [] []]; cbn [white_kingside
        white_queenside black_kingside black_queenside andb];
        repeat (rewrite ?negb_true_iff;
                match goal with |- context [if negb ?b then _ else _] =>
                  destruct b eqn:?; cbn [negb] end);
        try discriminate; intros _;
        repeat match goal with H : is_piece _ _ _ = true |- _ =>
                 apply is_piece_true in H end;
        repeat split; try assumption; try discriminate.
  - cbn [bind] in Hv. split; [intros sq Hs; discriminate|].
    revert Hv. destruct (castling_rights p) as [[] [] [] []]; cbn [white_kingside
        white_queenside black_kingside black_queenside andb];
        repeat (match goal with |- context [if negb ?b then _ else _] =>
                  destruct b eqn:?; cbn [negb] end);
        try discriminate; intros _;
        repeat match goal with H : is_piece _ _ _ = true |- _ =>
                 apply is_piece_true in H end;
        repeat split; try assumption; try discriminate.
Qed.

Lemma ALL_SQUARES_range i : In i ALL_SQUARES -> 0 <= i < 64.
Proof.
  intros H. assert (Hall : forallb (fun i => (0 <=? i) && (i <? 64)) ALL_SQUARES = true)
    by reflexivity.
  rewrite forallb_forall in Hall. specialize (Hall i H).
  apply andb_true_iff in Hall as [H1 H2]. lia.
Qed.

(** C7: [parse_fen] produces a position only from a well-formed string: six
    fields, eight ranks of eight files, one king of each colour, no pawn on
    ranks 1 and 8, an en-passant square on the rank matching the side to
    move, and king and rook at home for every castling right; so every
    string violating one of these is refused with an error. *)
Theorem parse_fen_accepts_only_well_formed (s : rstr) (p : Position) :
  parse_fen s = Ok p -> fen_well_formed s.
Proof.
  intros H. apply parse_fen_fields in H as (f0 & f1 & f2 & f3 & f4 & f5 & Hs & H0 & H1 & H2
                                             & H3 & H4 & H5 & H6).
  apply parse_piece_placement_get in H0 as (Hl & Hall & Hget).
  apply validate_position_ok in H6 as (Kw & Kb & Hpawn & Hep & Cwk & Cwq & Cbk & Cbq).
  apply parse_castling_rights_In in H2 as (Iwk & Iwq & Ibk & Ibq).
  exists f0, f1, f2, f3, f4, f5. split; [exact Hs|]. cbv zeta.
  split; [exact Hl|]. split; [exact Hall|]. split; [|split; [|split]].
  - intros c. assert (Hc : count_kings (board p) c = 1%nat) by (destruct c; assumption).
    rewrite <- Hc. unfold count_kings. f_equal. apply filter_ext_in.
    intros i Hi. apply ALL_SQUARES_range in Hi.
    rewrite <- Hget by (Z.div_mod_to_equations; lia).
    replace (i / 8 * 8 + i mod 8) with i by (Z.div_mod_to_equations; lia).
    reflexivity.
  - intros f c Hf. rewrite <- !Hget by lia.
    replace (0 * 8 + f) with f by lia. replace (7 * 8 + f) with (56 + f) by lia.
    apply Hpawn. simpl. lia.
  - unfold parse_en_passant in H3. destruct (rstr_eqb f3 (str "-")) eqn:E.
    { left. apply rstr_eqb_true, E. }
    right. destruct (Square_from_algebraic f3) as [sq|] eqn:Ha; [|discriminate].
    cbn [bind] in H3. injection H3 as H3.
    apply Square_from_algebraic_ok in Ha as (c0 & c1 & -> & Hc0 & Hc1 & ->).
    specialize (Hep _ (eq_sym H3)).
    rewrite (proj1 (Square_rank_file_of c0 c1 Hc0 Hc1)) in Hep.
    exists c0. split; [exact Hc0|].
    apply parse_active_color_ok in H1 as [[Hw ->]|[Hb ->]]; rewrite ?Hw, ?Hb in Hep.
    + left. split; [reflexivity|]. do 2 f_equal. lia.
    + right. split; [reflexivity|]. do 2 f_equal. lia.
  - repeat split; rewrite <- Hget by lia.
    all: first [ apply (proj1 (Cwk (Iwk H))) | apply (proj2 (Cwk (Iwk H)))
               | apply (proj1 (Cwq (Iwq H))) | apply (proj2 (Cwq (Iwq H)))
               | apply (proj1 (Cbk (Ibk H))) | apply (proj2 (Cbk (Ibk H)))
               | apply (proj1 (Cbq (Ibq H))) | apply (proj2 (Cbq (Ibq H))) ].
Qed.

Lemma parse_fen_accepts_only_well_formed_witness :
  parse_fen STARTING_FEN = Ok (position_of_fen STARTING_FEN)
  /\ fen_well_formed STARTING_FEN.
Proof.
  assert (H : parse_fen STARTING_FEN = Ok (position_of_fen STARTING_FEN))
    by (vm_compute; reflexivity).
  split; [exact H|].
  exact (parse_fen_accepts_only_well_formed _ _ H).
Defined.

(** *** Printing a parsed FEN string back *)

Lemma split_on_not_nil sep s : split_on sep s <> [].
Proof.
  destruct s as [|c s]; simpl; [discriminate|].
  destruct (sep c); [discriminate|]. destruct (split_on sep s); discriminate.
Qed.

Lemma split_on_no_sep sep a :
  forallb (fun c => negb (sep c)) a = true -> split_on sep a = [a].
Proof.
  induction a as [|x a IH]; intros H; [reflexivity|].
  simpl in H. apply andb_true_iff in H as [Hx Ha]. apply negb_true_iff in Hx.
  simpl. rewrite Hx, IH by exact Ha. reflexivity.
Qed.

Lemma split_on_app_sep sep a c rest :
  forallb (fun c => negb (sep c)) a = true -> sep c = true ->
  split_on sep (a ++ c :: rest) = a :: split_on sep rest.
Proof.
  induction a as [|x a IH]; intros H Hc; simpl; [rewrite Hc; reflexivity|].
  simpl in H. apply andb_true_iff in H as [Hx Ha]. apply negb_true_iff in Hx.
  rewrite Hx, IH by assumption. reflexivity.
Qed.

Lemma split_whitespace_fields f0 f1 f2 f3 f4 f5 :
  Forall (fun f => f <> [] /\ no_whitespace f = true) [f0; f1; f2; f3; f4; f5] ->
  split_whitespace (f0 ++ [32] ++ f1 ++ [32] ++ f2 ++ [32] ++ f3 ++ [32] ++ f4 ++ [32] ++ f5)
  = [f0; f1; f2; f3; f4; f5].
Proof.
  intros Hf. repeat (apply Forall_cons_iff in Hf as [[? ?] Hf]).
  unfold split_whitespace. cbn [app].
  rewrite !split_on_app_sep by assumption || reflexivity.
  rewrite split_on_no_sep by assumption.
  destruct f0, f1, f2, f3, f4, f5; try contradiction. reflexivity.
Qed.

Lemma join_split_on c s : join c (split_on (Z.eqb c) s) = s.
Proof.
  induction s as [|x s IH]; [reflexivity|]. cbn [split_on].
  destruct (split_on (Z.eqb c) s) as [|w ws] eqn:E;
    [exfalso; exact (split_on_not_nil _ _ E)|].
  destruct (Z.eqb_spec c x) as [<-|].
  - change (join c ([] :: w :: ws)) with ([] ++ c :: join c (w :: ws)).
    rewrite IH. reflexivity.
  - destruct ws as [|w' ws].
    + cbn [join] in IH |- *. rewrite IH. reflexivity.
    + change (join c ((x :: w) :: w' :: ws)) with (x :: (w ++ c :: join c (w' :: ws))).
      change (join c (w :: w' :: ws)) with (w ++ c :: join c (w' :: ws)) in IH.
      rewrite IH. reflexivity.
Qed.

Lemma no_adjacent_digits_cons c s :
  no_adjacent_digits (c :: s) = true -> no_adjacent_digits s = true.
Proof.
  destruct s as [|d s]; [reflexivity|]. simpl. rewrite andb_true_iff. tauto.
Qed.

Lemma no_adjacent_digits_app_l a b :
  no_adjacent_digits (a ++ b) = true -> no_adjacent_digits a = true.
Proof.
  induction a as [|x a IH]; [reflexivity|].
  destruct a as [|y a]; [reflexivity|].
  cbn [app no_adjacent_digits]. rewrite !andb_true_iff. intros [H1 H2]. split; [exact H1|].
  apply IH, H2.
Qed.

Lemma no_adjacent_digits_app_r a b :
  no_adjacent_digits (a ++ b) = true -> no_adjacent_digits b = true.
Proof.
  induction a as [|x a IH]; [tauto|]. intros H. apply IH.
  apply (no_adjacent_digits_cons x), H.
Qed.

Lemma no_adjacent_digits_join ranks :
  no_adjacent_digits (join 47 ranks) = true -> Forall (fun r => no_adjacent_digits r = true) ranks.
Proof.
  induction ranks as [|x [|y l] IH]; intros H.
  - constructor.
  - constructor; [exact H|constructor].
  - change (join 47 (x :: y :: l)) with (x ++ 47 :: join 47 (y :: l)) in H.
    constructor; [apply (no_adjacent_digits_app_l _ _ H)|].
    apply IH. apply (no_adjacent_digits_cons 47). apply (no_adjacent_digits_app_r x), H.
Qed.

Lemma parse_rank_chars_valid b rank file cs r :
  parse_rank_chars b rank file cs = Ok r -> Forall (fun c => valid_rank_char c = true) cs.
Proof.
  revert b file. induction cs as [|c cs IH]; intros b file; cbn [parse_rank_chars];
    [constructor|].
  destruct (file >=? 8); [discriminate|].
  destruct (is_ascii_digit c) eqn:Hd.
  - destruct ((1 <=? c - 48) && (c - 48 <=? 8)) eqn:Hr; [|discriminate].
    destruct (file + (c - 48) >? 8); [discriminate|].
    intros H. constructor; [unfold valid_rank_char; rewrite Hd; exact Hr|].
    exact (IH _ _ H).
  - destruct (fen_char_to_piece c) as [[p col]|] eqn:Hp; [|discriminate].
    destruct (Square_from_rank_file rank file); [|discriminate].
    intros H. constructor; [unfold valid_rank_char; rewrite Hd, Hp; reflexivity|].
    exact (IH _ _ H).
Qed.

Lemma parse_ranks_valid b ri ranks b' :
  parse_ranks b ri ranks = Ok b' ->
  Forall (fun r => Forall (fun c => valid_rank_char c = true) r) ranks.
Proof.
  revert b ri. induction ranks as [|r0 rs IH]; intros b ri Hp; cbn [parse_ranks] in Hp;
    [constructor|].
  destruct (parse_rank_chars b (7 - ri) 0 r0) as [[b1 file]|e] eqn:Hc; [|discriminate].
  simpl in Hp. destruct (file =? 8); [|discriminate]. simpl in Hp.
  constructor; [exact (parse_rank_chars_valid _ _ _ _ _ Hc)|exact (IH _ _ Hp)].
Qed.

Lemma rank_to_fen_cells b rank files k :
  rank_to_fen b rank files k
  = cells_to_fen (map (fun f => Board_get b (mkSquare (rank * 8 + f))) files) k.
Proof.
  revert k. induction files as [|f files IH]; intros k; [reflexivity|].
  cbn [rank_to_fen map cells_to_fen].
  destruct (Board_get b (mkSquare (rank * 8 + f))) as [[p c]|]; rewrite !IH; reflexivity.
Qed.

Lemma map_nth_FILES (L : list Cell) :
  length L = 8%nat -> map (fun f => nth (Z.to_nat f) L None) FILES = L.
Proof.
  intros H. do 8 (destruct L as [|? L]; [discriminate|]).
  destruct L; [reflexivity|discriminate].
Qed.

Lemma cells_to_fen_repeat_None n L k :
  cells_to_fen (repeat None n ++ L) k = cells_to_fen L (k + Z.of_nat n).
Proof.
  revert k. induction n as [|n IH]; intros k; cbn [repeat app cells_to_fen].
  - rewrite Z.add_0_r. reflexivity.
  - rewrite IH. f_equal. lia.
Qed.

Lemma u32_to_string_digit n : 0 <= n < 10 -> u32_to_string n = [48 + n].
Proof.
  intros H. unfold u32_to_string. cbn [dec_digits].
  destruct (Z.ltb_spec n 10); [reflexivity|lia].
Qed.

Lemma piece_to_fen_char_of c p col :
  fen_char_to_piece c = Some (p, col) -> piece_to_fen_char p col = c.
Proof.
  unfold fen_char_to_piece, to_ascii_lowercase, is_ascii_uppercase.
  destruct (Z.leb_spec 65 c); destruct (Z.leb_spec c 90); cbn [andb];
  zcases; intros Hc; try discriminate; injection Hc as <- <-;
    unfold piece_to_fen_char, to_ascii_uppercase; simpl; lia.
Qed.

Lemma is_ascii_digit_range c : is_ascii_digit c = true -> 48 <= c <= 57.
Proof. unfold is_ascii_digit. rewrite andb_true_iff, !Z.leb_le. lia. Qed.

Lemma cells_to_fen_expand cs k :
  Forall (fun c => valid_rank_char c = true) cs -> no_adjacent_digits cs = true ->
  (k = 0 \/ (1 <= k <= 8
             /\ match cs with c :: _ => is_ascii_digit c = false | [] => True end)) ->
  cells_to_fen (expand_rank cs) k = (if k >? 0 then [48 + k] else []) ++ cs.
Proof.
  revert k. induction cs as [|c cs IH]; intros k Hv Hna Hk.
  - cbn [expand_rank flat_map cells_to_fen]. rewrite app_nil_r.
    destruct Hk as [->|[Hk _]]; [reflexivity|].
    destruct (Z.gtb_spec k 0); [|lia]. apply u32_to_string_digit. lia.
  - apply Forall_cons_iff in Hv as [Hc Hv].
    pose proof (no_adjacent_digits_cons _ _ Hna) as Hna'.
    rewrite expand_rank_cons. unfold expand_char. unfold valid_rank_char in Hc.
    destruct (is_ascii_digit c) eqn:Hd.
    + destruct Hk as [->|[_ Hk]]; [|discriminate].
      apply andb_true_iff in Hc as [H1 H2]. apply Z.leb_le in H1, H2.
      rewrite cells_to_fen_repeat_None, Z2Nat.id by lia.
      rewrite IH; [|exact Hv|exact Hna'|].
      * destruct (Z.gtb_spec (0 + (c - 48)) 0); [|lia].
        change (0 >? 0) with false. cbn [app]. f_equal. lia.
      * right. split; [lia|]. destruct cs as [|d cs]; [exact I|].
        cbn [no_adjacent_digits] in Hna. rewrite Hd in Hna.
        destruct (is_ascii_digit d); [discriminate|reflexivity].
    + destruct (fen_char_to_piece c) as [[p col]|] eqn:Hp; [|discriminate].
      cbn [app cells_to_fen]. rewrite IH by (assumption || left; reflexivity).
      rewrite (piece_to_fen_char_of _ _ _ Hp). simpl.
      destruct Hk as [->|[Hk _]]; [reflexivity|].
      destruct (Z.gtb_spec k 0); [|lia]. rewrite u32_to_string_digit by lia. reflexivity.
Qed.

Lemma flat_map_ranks (g : Z -> rstr) :
  flat_map (fun rank => g rank ++ (if rank >? 0 then [47] else [])) [7; 6; 5; 4; 3; 2; 1; 0]
  = join 47 [g 7; g 6; g 5; g 4; g 3; g 2; g 1; g 0].
Proof. simpl. rewrite !app_nil_r, <- !app_assoc. reflexivity. Qed.

Lemma placement_round_trip f0 b :
  parse_piece_placement Board_new f0 = Ok b -> no_adjacent_digits f0 = true ->
  flat_map (fun rank => rank_to_fen b rank FILES 0 ++ (if rank >? 0 then [47] else []))
    [7; 6; 5; 4; 3; 2; 1; 0] = f0.
Proof.
  intros Hp Hna.
  assert (Hv : Forall (fun r => Forall (fun c => valid_rank_char c = true) r)
                 (split_on (Z.eqb 47) f0)).
  { unfold parse_piece_placement in Hp.
    destruct (negb _); [discriminate|]. exact (parse_ranks_valid _ _ _ _ Hp). }
  apply parse_piece_placement_get in Hp as (Hl & Hall & Hget).
  rewrite <- (join_split_on 47 f0) in Hna |- *.
  apply no_adjacent_digits_join in Hna.
  assert (Hrank : forall k, 0 <= k < 8 ->
            rank_to_fen b k FILES 0 = nth (Z.to_nat (7 - k)) (split_on (Z.eqb 47) f0) []).
  { intros k Hk. rewrite rank_to_fen_cells.
    rewrite (map_ext_in _ (fun f => described_cell (split_on (Z.eqb 47) f0) k f)).
    2: { intros f Hf. apply Hget; [lia|]. simpl in Hf. lia. }
    unfold described_cell. rewrite map_nth_FILES.
    2: { apply (proj1 (Forall_nth _ _) Hall). unfold rstr in *. lia. }
    rewrite cells_to_fen_expand; [reflexivity| | |left; reflexivity].
    - apply (proj1 (Forall_nth _ _) Hv). unfold rstr in *. lia.
    - apply (proj1 (Forall_nth _ _) Hna). unfold rstr in *. lia. }
  rewrite flat_map_ranks, !Hrank by lia.
  destruct (split_on (Z.eqb 47) f0) as [|r7 [|r6 [|r5 [|r4 [|r3 [|r2 [|r1 [|r0 [|? ?]]]]]]]]];
    try discriminate. reflexivity.
Qed.

Lemma subsequence_KQkq f :
  is_subsequence f [75; 81; 107; 113] = true ->
  f = (if existsb (Z.eqb 75) f then [75] else []) ++ (if existsb (Z.eqb 81) f then [81] else [])
      ++ (if existsb (Z.eqb 107) f then [107] else [])
      ++ (if existsb (Z.eqb 113) f then [113] else []).
Proof.
  intros H. simpl in H.
  repeat match goal with
         | H : context [match ?f with [] => _ | _ :: _ => _ end] |- _ =>
             is_var f; destruct f; simpl in H
         | H : context [?x =? ?y] |- _ =>
             is_var x; destruct (Z.eqb_spec x y) as [Heq|?]; [subst x|]; simpl in H
         end; try discriminate; reflexivity.
Qed.

Lemma castling_round_trip f2 cr :
  parse_castling_rights f2 = Ok cr ->
  (f2 = str "-" \/ (f2 <> [] /\ is_subsequence f2 (str "KQkq") = true)) ->
  (match (if white_kingside cr then [75] else []) ++ (if white_queenside cr then [81] else [])
         ++ (if black_kingside cr then [107] else []) ++ (if black_queenside cr then [113] else [])
   with
   | [] => [45]
   | _ => (if white_kingside cr then [75] else []) ++ (if white_queenside cr then [81] else [])
          ++ (if black_kingside cr then [107] else [])
          ++ (if black_queenside cr then [113] else [])
   end) = f2.
Proof.
  intros Hp [->|[Hne Hs]].
  - vm_compute in Hp. injection Hp as <-. reflexivity.
  - change (str "KQkq") with [75; 81; 107; 113] in Hs.
    apply subsequence_KQkq in Hs. rewrite Hs in Hp, Hne |- *.
    destruct (existsb (Z.eqb 75) f2), (existsb (Z.eqb 81) f2),
      (existsb (Z.eqb 107) f2), (existsb (Z.eqb 113) f2);
      try (exfalso; apply Hne; reflexivity);
      vm_compute in Hp; injection Hp as <-; reflexivity.
Qed.

Lemma en_passant_round_trip f3 ep :
  parse_en_passant f3 = Ok ep ->
  (match ep with Some ep_square => Square_to_algebraic ep_square | None => [45] end : list Z)
  = f3.
Proof.
  unfold parse_en_passant. destruct (rstr_eqb f3 (str "-")) eqn:E.
  - intros H. injection H as <-. symmetry. apply rstr_eqb_true, E.
  - destruct (Square_from_algebraic f3) as [sq|] eqn:Ha; [|discriminate].
    cbn [bind]. intros H. injection H as <-.
    apply Square_from_algebraic_ok in Ha as (c0 & c1 & -> & Hc0 & Hc1 & ->).
    unfold Square_to_algebraic.
    destruct (Square_rank_file_of c0 c1 Hc0 Hc1) as [-> ->]. f_equal; [|f_equal]; lia.
Qed.

Lemma side_round_trip f1 c :
  parse_active_color f1 = Ok c -> [match c with White => 119 | Black => 98 end] = f1.
Proof.
  intros H. apply parse_active_color_ok in H as [[-> ->]|[-> ->]]; reflexivity.
Qed.

Lemma digits_value_app acc s d :
  digits_value acc (s ++ [d]) = digits_value acc s * 10 + (d - 48).
Proof. unfold digits_value. rewrite fold_left_app. reflexivity. Qed.

Lemma digits_value_ge acc s :
  0 <= acc -> Forall (fun c => is_ascii_digit c = true) s -> acc <= digits_value acc s.
Proof.
  revert acc. induction s as [|c s IH]; intros acc Ha Hs; [simpl; lia|].
  apply Forall_cons_iff in Hs as [Hc Hs]. apply is_ascii_digit_range in Hc.
  unfold digits_value. cbn [fold_left]. fold (digits_value (acc * 10 + (c - 48)) s).
  specialize (IH (acc * 10 + (c - 48)) ltac:(lia) Hs). lia.
Qed.

Lemma u32_digits_value acc s n :
  0 <= acc -> u32_digits acc s = Some n ->
  Forall (fun c => is_ascii_digit c = true) s /\ n = digits_value acc s /\ n <= U32_MAX
  \/ s = [] /\ n = acc.
Proof.
  revert acc. induction s as [|c s IH]; intros acc Ha; cbn [u32_digits].
  - intros H. injection H as <-. right. split; reflexivity.
  - destruct (is_ascii_digit c) eqn:Hd; [|discriminate].
    pose proof (is_ascii_digit_range _ Hd) as Hc.
    destruct (Z.gtb_spec (acc * 10 + (c - 48)) U32_MAX); [discriminate|].
    intros Hu. apply IH in Hu as [[Hs [Hn Hle]]|[-> ->]]; [| |lia]; left.
    + split; [constructor; assumption|]. split; assumption.
    + split; [repeat constructor; assumption|]. split; [reflexivity|assumption].
Qed.

Lemma dec_digits_value fuel s :
  s <> [] -> Forall (fun c => is_ascii_digit c = true) s ->
  (forall x t, s = x :: t -> t <> [] -> x <> 48) ->
  digits_value 0 s < 10 ^ Z.of_nat (S fuel) ->
  dec_digits (S fuel) (digits_value 0 s) = s.
Proof.
  revert fuel. induction s as [|d g IH] using rev_ind; intros fuel Hne Hd Hz Hlt;
    [contradiction|].
  apply Forall_app in Hd as [Hg Hdd]. apply Forall_cons_iff in Hdd as [Hdd _].
  apply is_ascii_digit_range in Hdd.
  rewrite digits_value_app in Hlt |- *.
  destruct g as [|x g'].
  - change (digits_value 0 []) with 0. cbn [dec_digits].
    destruct (Z.ltb_spec (0 * 10 + (d - 48)) 10); [|lia].
    cbn [app]. f_equal. lia.
  - assert (Hx : x <> 48).
    { apply (Hz x (g' ++ [d])); [reflexivity|].
      intros Habs. apply app_eq_nil in Habs as [_ Habs]. discriminate. }
    pose proof Hg as Hg'. apply Forall_cons_iff in Hg' as [Hxd Hgd].
    apply is_ascii_digit_range in Hxd.
    assert (Hv1 : 1 <= digits_value 0 (x :: g')).
    { unfold digits_value. cbn [fold_left]. fold (digits_value (0 * 10 + (x - 48)) g').
      pose proof (digits_value_ge (0 * 10 + (x - 48)) g' ltac:(lia) Hgd). lia. }
    cbn [dec_digits].
    destruct (Z.ltb_spec (digits_value 0 (x :: g') * 10 + (d - 48)) 10); [lia|].
    replace ((digits_value 0 (x :: g') * 10 + (d - 48)) / 10) with (digits_value 0 (x :: g'))
      by (Z.div_mod_to_equations; lia).
    replace ((digits_value 0 (x :: g') * 10 + (d - 48)) mod 10) with (d - 48)
      by (Z.div_mod_to_equations; lia).
    destruct fuel as [|fuel].
    + change (10 ^ Z.of_nat 1) with 10 in Hlt. lia.
    + rewrite (Nat2Z.inj_succ (S fuel)), Z.pow_succ_r in Hlt by lia.
      rewrite IH.
      * replace (48 + (d - 48)) with d by lia. reflexivity.
      * discriminate.
      * exact Hg.
      * intros y t Hy _. injection Hy as -> _. exact Hx.
      * lia.
Qed.

Lemma canonical_counter_head x t :
  canonical_counter (x :: t) = true -> x <> 43 /\ (t <> [] -> x <> 48).
Proof.
  intros Hc. split.
  - intros ->. destruct t as [|? [|? ?]]; discriminate Hc.
  - intros Ht ->. destruct t as [|? ?]; [contradiction|discriminate Hc].
Qed.

Lemma counter_round_trip f n :
  f <> [] -> canonical_counter f = true -> parse_u32 f = Some n -> u32_to_string n = f.
Proof.
  intros Hne Hc Hp.
  assert (Hu : u32_digits 0 f = Some n).
  { destruct f as [|x [|y t]]; [contradiction| |].
    - cbn [parse_u32] in Hp. destruct ((x =? 43) || (x =? 45)); [discriminate|exact Hp].
    - cbn [parse_u32] in Hp. apply canonical_counter_head in Hc as [Hc _].
      destruct (Z.eqb_spec x 43); [contradiction|exact Hp]. }
  apply (u32_digits_value 0 f n ltac:(lia)) in Hu as [[Hd [-> Hle]]|[-> _]]; [|contradiction].
  unfold u32_to_string. apply dec_digits_value.
  - exact Hne.
  - exact Hd.
  - intros x t -> Ht. apply canonical_counter_head in Hc as [_ Hc]. exact (Hc Ht).
  - change (10 ^ Z.of_nat 10) with 10000000000. unfold U32_MAX in Hle. lia.
Qed.

(** C4: for every canonical FEN string [s] (six fields separated by single
    spaces, castling letters in KQkq order or ["-"], one digit per run of
    empty squares, counters without sign or leading zero) on which
    [parse_fen] succeeds, [position_to_fen] of the parsed position is [s]
    exactly. *)
Theorem position_to_fen_parse_fen_canonical (s : rstr) (p : Position) :
  parse_fen s = Ok p -> canonical_fen s -> position_to_fen p = s.
Proof.
  intros Hp (f0 & f1 & f2 & f3 & f4 & f5 & Hs & Hf & Hna & Hcs & Hc4 & Hc5).
  apply parse_fen_fields in Hp
    as (g0 & g1 & g2 & g3 & g4 & g5 & Hsplit & H0 & H1 & H2 & H3 & H4 & H5 & _).
  pose proof Hf as Hf'.
  apply Forall_cons_iff in Hf' as [_ Hf']. apply Forall_cons_iff in Hf' as [_ Hf'].
  apply Forall_cons_iff in Hf' as [_ Hf']. apply Forall_cons_iff in Hf' as [_ Hf'].
  apply Forall_cons_iff in Hf' as [[Hn4 _] Hf']. apply Forall_cons_iff in Hf' as [[Hn5 _] _].
  rewrite Hs, split_whitespace_fields in Hsplit by exact Hf.
  injection Hsplit as <- <- <- <- <- <-.
  unfold position_to_fen. cbv zeta. rewrite Hs.
  rewrite (placement_round_trip _ _ H0 Hna), (side_round_trip _ _ H1),
    (castling_round_trip _ _ H2 Hcs), (en_passant_round_trip _ _ H3),
    (counter_round_trip _ _ Hn4 Hc4 H4),
    (counter_round_trip _ _ Hn5 Hc5 H5).
  reflexivity.
Qed.

Lemma position_to_fen_parse_fen_canonical_witness :
  parse_fen STARTING_FEN = Ok (position_of_fen STARTING_FEN)
  /\ canonical_fen STARTING_FEN
  /\ position_to_fen (position_of_fen STARTING_FEN) = STARTING_FEN.
Proof.
  assert (H : parse_fen STARTING_FEN = Ok (position_of_fen STARTING_FEN))
    by (vm_compute; reflexivity).
  assert (Hc : canonical_fen STARTING_FEN).
  { exists (str "rnbqkbnr/pppppppp/8/8/8/8/PPPPPPPP/RNBQKBNR"), (str "w"), (str "KQkq"),
      (str "-"), (str "0"), (str "1").
    split; [vm_compute; reflexivity|].
    split; [repeat constructor; discriminate|].
    split; [vm_compute; reflexivity|].
    split; [right; split; [discriminate|vm_compute; reflexivity]|].
    split; vm_compute; reflexivity. }
  split; [exact H|]. split; [exact Hc|].
  exact (position_to_fen_parse_fen_canonical _ _ H Hc).
Defined.

(* ------------------------------------------------------------------ *)
(** ** Further properties of the code *)

(** *** Squares *)

Lemma Square_to_algebraic_div_mod i :
  0 <= i < 64 -> Square_to_algebraic (mkSquare i) = [97 + i mod 8; 49 + i / 8].
Proof.
  intros Hi. unfold Square_to_algebraic.
  rewrite Square_rank_div, Square_file_mod by (simpl; lia). reflexivity.
Qed.

Lemma Square_from_algebraic_of_to_algebraic (sq : Square) :
  0 <= index sq < 64 -> Square_from_algebraic (Square_to_algebraic sq) = Ok sq.
Proof.
  destruct sq as [i]. intros Hi. simpl in Hi.
  rewrite (Square_to_algebraic_div_mod i Hi).
  assert (0 <= i mod 8 < 8) by (apply Z.mod_pos_bound; lia).
  assert (0 <= i / 8 < 8) by (split; [apply Z.div_pos|apply Z.div_lt_upper_bound]; lia).
  unfold Square_from_algebraic.
  replace (utf8_len [97 + i mod 8; 49 + i / 8]) with 2.
  2:{ unfold utf8_len. cbn [fold_right].
      destruct (Z.ltb_spec (97 + i mod 8) 128); [|lia].
      destruct (Z.ltb_spec (49 + i / 8) 128); [|lia]. reflexivity. }
  cbn [Z.eqb negb Pos.eqb].
  destruct (Z.leb_spec 97 (97 + i mod 8)); [|lia].
  destruct (Z.leb_spec (97 + i mod 8) 104); [|lia].
  destruct (Z.leb_spec 49 (49 + i / 8)); [|lia].
  destruct (Z.leb_spec (49 + i / 8) 56); [|lia].
  cbn [andb]. f_equal. f_equal. pose proof (Z.div_mod i 8). lia.
Qed.

(** X1: [Square::from_algebraic] accepts a string exactly when it is the
    [to_algebraic] name of an in-range square, and then returns that square. *)
Theorem Square_from_algebraic_to_algebraic (s : rstr) (sq : Square) :
  Square_from_algebraic s = Ok sq <-> 0 <= index sq < 64 /\ Square_to_algebraic sq = s.
Proof.
  split.
  - intros H. apply Square_from_algebraic_ok in H as (c0 & c1 & -> & H0 & H1 & ->).
    destruct (Square_rank_file_of c0 c1 H0 H1) as [Hr Hf].
    split; [simpl; lia|]. unfold Square_to_algebraic. rewrite Hr, Hf. f_equal; [|f_equal]; lia.
  - intros [Hi <-]. apply Square_from_algebraic_of_to_algebraic. exact Hi.
Qed.

(** X2: for a rank and a file in u8 range, [Square::from_rank_file] returns
    [Some] square exactly when both are below 8, and then the square's rank
    and file are the ones given. *)
Theorem Square_from_rank_file_rank_file (rank file : Z) (sq : Square) :
  0 <= rank -> 0 <= file ->
  (Square_from_rank_file rank file = Some sq
   <-> 0 <= index sq < 64 /\ Square_rank sq = rank /\ Square_file sq = file).
Proof.
  intros Hr Hf. unfold Square_from_rank_file. split.
  - destruct (Z.ltb_spec rank 8), (Z.ltb_spec file 8); try discriminate.
    intros E. injection E as <-.
    rewrite Square_rank_div, Square_file_mod by (simpl; lia). simpl.
    split; [lia|]. split.
    + rewrite Z.div_add_l by lia. rewrite (Z.div_small file) by lia. lia.
    + rewrite Z.add_comm, Z.mod_add by lia. apply Z.mod_small. lia.
  - intros (Hi & Hrk & Hfl).
    rewrite Square_rank_div in Hrk by lia. rewrite Square_file_mod in Hfl by lia.
    assert (rank < 8) by (subst rank; apply Z.div_lt_upper_bound; lia).
    assert (file < 8) by (subst file; apply Z.mod_pos_bound; lia).
    destruct (Z.ltb_spec rank 8), (Z.ltb_spec file 8); try lia. cbn [andb].
    destruct sq as [i]. simpl in *. f_equal. f_equal. subst. pose proof (Z.div_mod i 8). lia.
Qed.

Lemma Square_from_rank_file_rank_file_witness :
  0 <= 3 /\ 0 <= 5
  /\ (Square_from_rank_file 3 5 = Some (mkSquare 29)
      <-> 0 <= index (mkSquare 29) < 64 /\ Square_rank (mkSquare 29) = 3
          /\ Square_file (mkSquare 29) = 5).
Proof.
  split; [lia|]. split; [lia|].
  apply (Square_from_rank_file_rank_file 3 5 (mkSquare 29)); lia.
Defined.

(** *** The board array *)

(** X3: [Board::set] then [Board::get] on in-range squares: the square set
    reads back the value written, every other square is unchanged. *)
Theorem Board_set_then_get (b : Board) (sq sq' : Square) (x : Cell) :
  0 <= index sq < 64 -> 0 <= index sq' < 64 ->
  Board_get (Board_set b sq x) sq' = if Square_eqb sq sq' then x else Board_get b sq'.
Proof. intros Hs Hs'. unfold Square_eqb. apply Board_get_set; assumption. Qed.

Lemma Board_set_then_get_witness :
  0 <= index (mkSquare 12) < 64 /\ 0 <= index (mkSquare 28) < 64
  /\ Board_get (Board_set Board_initial_position (mkSquare 12) None) (mkSquare 28)
     = if Square_eqb (mkSquare 12) (mkSquare 28) then None
       else Board_get Board_initial_position (mkSquare 28).
Proof.
  split; [simpl; lia|]. split; [simpl; lia|].
  apply Board_set_then_get; simpl; lia.
Defined.

Ltac destruct_cells :=
  unfold Cells64, Cells32, Cells16, Cells8, Cells4, Cells2, node in *;
  repeat match goal with
         | t : (_ * _)%type |- _ => destruct t
         end.

(** X4: the serde round trip of [Board]: deserializing a vector gives the
    board [b] exactly when the vector is what serializing [b] gives; so
    serialize then deserialize returns the board, and a vector whose length
    is not 64 is refused. *)
Theorem Board_deserialize_serialize (l : list Cell) (b : Board) :
  Board_deserialize l = Some b <-> Board_serialize b = l.
Proof.
  split.
  - unfold Board_deserialize. destruct (Nat.eqb_spec (length l) 64) as [Hl|]; [|discriminate].
    intros E. injection E as <-.
    do 64 (destruct l as [|? l]; [discriminate|]).
    destruct l; [|discriminate]. reflexivity.
  - intros <-. destruct b as [t]. destruct_cells. reflexivity.
Qed.

(** The array read as the list of (index, cell) pairs. *)
Lemma combine_cells_to_list (t : Cells64) :
  combine ALL_SQUARES (cells_to_list t) = map (fun i => (i, cells_get t i)) ALL_SQUARES.
Proof. destruct_cells. reflexivity. Qed.

Lemma ALL_SQUARES_seq : ALL_SQUARES = map Z.of_nat (seq 0 64).
Proof. reflexivity. Qed.

Lemma ALL_SQUARES_In i : 0 <= i < 64 -> In i ALL_SQUARES.
Proof.
  intros Hi. rewrite ALL_SQUARES_seq, in_map_iff. exists (Z.to_nat i).
  split; [lia|]. apply in_seq. lia.
Qed.

Lemma Color_eqb_true a b : Color_eqb a b = true <-> a = b.
Proof. destruct a, b; simpl; split; congruence. Qed.

Lemma Board_find_king_first (b : Board) (color : Color) :
  match Board_find_king b color with
  | Some sq =>
      0 <= index sq < 64 /\ Board_get b sq = Some (King, color)
      /\ (forall j, 0 <= j < index sq -> Board_get b (mkSquare j) <> Some (King, color))
  | None => forall sq, 0 <= index sq < 64 -> Board_get b sq <> Some (King, color)
  end.
Proof.
  destruct b as [t]. unfold Board_find_king, Board_get. cbn [squares index].
  rewrite combine_cells_to_list, ALL_SQUARES_seq.
  match goal with |- context [?F (map _ (map Z.of_nat (seq 0 64)))] => set (go := F) end.
  assert (Hcons : forall i c l, go ((i, c) :: l)
            = match c with
              | Some (King, c') => if Color_eqb c' color then Square_new i else go l
              | _ => go l
              end) by (intros i [[[] []]|] l; reflexivity).
  assert (Hnil : go [] = None) by reflexivity.
  clearbody go.
  assert (Hgen : forall n s, (s + n <= 64)%nat ->
    match go (map (fun i => (i, cells_get t i)) (map Z.of_nat (seq s n))) with
    | Some sq =>
        Z.of_nat s <= index sq < Z.of_nat (s + n) /\ cells_get t (index sq) = Some (King, color)
        /\ (forall j, Z.of_nat s <= j < index sq -> cells_get t j <> Some (King, color))
    | None => forall j, Z.of_nat s <= j < Z.of_nat (s + n) -> cells_get t j <> Some (King, color)
    end).
  { induction n as [|n IH]; intros s Hs.
    - simpl. rewrite Hnil. intros j Hj. lia.
    - cbn [seq map]. rewrite Hcons.
      assert (Hskip : cells_get t (Z.of_nat s) <> Some (King, color) ->
        match go (map (fun i => (i, cells_get t i)) (map Z.of_nat (seq (S s) n))) with
        | Some sq =>
            Z.of_nat s <= index sq < Z.of_nat (s + S n)
            /\ cells_get t (index sq) = Some (King, color)
            /\ (forall j, Z.of_nat s <= j < index sq -> cells_get t j <> Some (King, color))
        | None => forall j, Z.of_nat s <= j < Z.of_nat (s + S n) -> cells_get t j <> Some (King, color)
        end).
      { intros Hne. specialize (IH (S s) ltac:(lia)).
        destruct (go (map _ (map Z.of_nat (seq (S s) n)))) as [sq|].
        - destruct IH as (H1 & H2 & H3). split; [lia|]. split; [exact H2|].
          intros j Hj. destruct (Z.eq_dec j (Z.of_nat s)) as [->|]; [exact Hne|].
          apply H3. lia.
        - intros j Hj. destruct (Z.eq_dec j (Z.of_nat s)) as [->|]; [exact Hne|].
          apply IH. lia. }
      destruct (cells_get t (Z.of_nat s)) as [[pc cc]|] eqn:Ec;
        [|apply Hskip; discriminate].
      destruct pc; try (apply Hskip; intros E; discriminate E).
      destruct (Color_eqb cc color) eqn:Ecol.
      + apply Color_eqb_true in Ecol. subst cc. unfold Square_new.
        destruct (Z.ltb_spec (Z.of_nat s) 64) as [Hl|Hl]; [|lia]. cbn [index].
        split; [lia|]. split; [exact Ec|]. intros j Hj. lia.
      + apply Hskip. intros E. injection E as E. subst cc.
        destruct color; discriminate. }
  specialize (Hgen 64%nat 0%nat ltac:(lia)). cbn [Nat.add Z.of_nat] in Hgen.
  destruct (go (map _ (map Z.of_nat (seq 0 64)))) as [sq|].
  - destruct Hgen as (H1 & H2 & H3). split; [lia|]. split; [exact H2|].
    intros j Hj. apply H3. lia.
  - intros sq Hsq. apply Hgen. simpl. lia.
Qed.

(** X5: [Board::find_king] returns the lowest-indexed square holding a king of
    the colour asked for, and [None] only when no square holds one. *)
Theorem Board_find_king_lowest_square (b : Board) (color : Color) :
  match Board_find_king b color with
  | Some sq =>
      0 <= index sq < 64 /\ Board_get b sq = Some (King, color)
      /\ (forall j, 0 <= j < index sq -> Board_get b (mkSquare j) <> Some (King, color))
  | None => forall sq, 0 <= index sq < 64 -> Board_get b sq <> Some (King, color)
  end.
Proof. apply Board_find_king_first. Qed.

Lemma Board_pieces_of_color_In_iff (b : Board) (color : Color) (sq : Square) (piece : Piece) :
  In (sq, piece) (Board_pieces_of_color b color)
  <-> 0 <= index sq < 64 /\ Board_get b sq = Some (piece, color).
Proof.
  unfold Board_pieces_of_color. rewrite combine_cells_to_list, in_flat_map. split.
  - intros [[i c] [Hi Hin]]. apply in_map_iff in Hi as [i' [E Hi']]. injection E as E1 E2.
    subst i c. destruct (cells_get (squares b) i') as [[pc cc]|] eqn:Ec; [|destruct Hin].
    destruct (Color_eqb cc color) eqn:Ecol; [|destruct Hin].
    destruct Hin as [E|[]]. injection E as <- <-. apply Color_eqb_true in Ecol. subst cc.
    split; [apply ALL_SQUARES_range; exact Hi'|exact Ec].
  - intros [Hr Hg]. exists (index sq, cells_get (squares b) (index sq)). split.
    + apply in_map_iff. exists (index sq). split; [reflexivity|]. apply ALL_SQUARES_In, Hr.
    + unfold Board_get in Hg. rewrite Hg. destruct color; simpl; left; destruct sq; reflexivity.
Qed.

(** X6: [Board::pieces_of_color] lists exactly the in-range squares holding
    a piece of the colour, each with its piece. *)
Theorem Board_pieces_of_color_exact (b : Board) (color : Color) (sq : Square) (piece : Piece) :
  In (sq, piece) (Board_pieces_of_color b color)
  <-> 0 <= index sq < 64 /\ Board_get b sq = Some (piece, color).
Proof. apply Board_pieces_of_color_In_iff. Qed.

(** *** Positions *)

Lemma repetition_scan_count (current : Z) (l : list Z) (count : nat) :
  (count < 3)%nat ->
  repetition_scan current l count = true <-> (3 <= count + count_occ Z.eq_dec l current)%nat.
Proof.
  revert count. induction l as [|h l IH]; intros count Hc; cbn [repetition_scan count_occ].
  - split; [discriminate|lia].
  - destruct (Z.eqb_spec h current) as [E|E]; destruct (Z.eq_dec h current); try contradiction.
    + destruct (Nat.leb_spec 3 (S count)).
      * split; [lia|reflexivity].
      * rewrite IH by lia. lia.
    + apply IH, Hc.
Qed.

(** X7: [Position::is_repetition] holds exactly when the history has at least
    three entries and the last one (the current position's hash) occurs in
    it at least three times. *)
Theorem Position_is_repetition_iff (p : Position) :
  Position_is_repetition p = true
  <-> (3 <= length (position_history p))%nat
      /\ (3 <= count_occ Z.eq_dec (position_history p) (last (position_history p) 0%Z))%nat.
Proof.
  unfold Position_is_repetition.
  destruct (Nat.ltb_spec (length (position_history p)) 3).
  - split; [discriminate|lia].
  - rewrite repetition_scan_count by lia. lia.
Qed.

Lemma minor_only_side_one (L : list (Square * Piece)) k :
  length L = 1%nat -> In (k, King) L -> minor_only_side L.
Proof.
  intros Hl Hk. split; [lia|]. destruct L as [|x [|y L]]; try (simpl in Hl; lia).
  intros z Hz. destruct Hk as [Hx|[]]. destruct Hz as [Hz|[]]. subst x z. left. reflexivity.
Qed.

Lemma minor_only_side_two (L : list (Square * Piece)) k m :
  length L = 2%nat -> In (k, King) L -> In m L -> snd m = Bishop \/ snd m = Knight ->
  minor_only_side L.
Proof.
  intros Hl Hk Hm Hmin. split; [lia|].
  destruct L as [|x [|y [|w L]]]; try (simpl in Hl; lia).
  assert (Hne : forall a b, In a [x; y] -> In b [x; y] -> a <> b -> forall z, In z [x; y] -> z = a \/ z = b).
  { intros a b' Ha Hb Hab z Hz. simpl in Ha, Hb, Hz.
    destruct Ha as [<-|[<-|[ ] ] ]; destruct Hb as [<-|[<-|[ ] ] ]; destruct Hz as [<-|[<-|[ ] ] ];
      tauto. }
  assert (Hkm : (k, King) <> m) by (intros E; rewrite <- E in Hmin; destruct Hmin; discriminate).
  intros z Hz. destruct (Hne _ _ Hk Hm Hkm z Hz) as [E|E]; subst z; simpl; auto.
Qed.

Lemma existsb_is_minor L :
  existsb is_minor L = true -> exists m, In m L /\ (snd m = Bishop \/ snd m = Knight).
Proof.
  intros H. apply existsb_exists in H as [m [Hm Hi]]. exists m. split; [exact Hm|].
  unfold is_minor in Hi. destruct (snd m); simpl in Hi; try discriminate; auto.
Qed.

(** X8: when each side has a king, [Position::has_insufficient_material]
    answers true only if no side has more than two pieces and every piece on
    the board is a king, a bishop or a knight. *)
Theorem insufficient_material_only_minor_pieces (p : Position) (kw kb : Square) :
  0 <= index kw < 64 -> Board_get (board p) kw = Some (King, White) ->
  0 <= index kb < 64 -> Board_get (board p) kb = Some (King, Black) ->
  Position_has_insufficient_material p = true ->
  (length (Board_pieces_of_color (board p) White) <= 2)%nat
  /\ (length (Board_pieces_of_color (board p) Black) <= 2)%nat
  /\ (forall sq piece c, 0 <= index sq < 64 -> Board_get (board p) sq = Some (piece, c) ->
        piece = King \/ piece = Bishop \/ piece = Knight).
Proof.
  intros Hkw1 Hkw2 Hkb1 Hkb2 H.
  pose proof (proj2 (Board_pieces_of_color_In_iff _ _ _ _) (conj Hkw1 Hkw2)) as HW.
  pose proof (proj2 (Board_pieces_of_color_In_iff _ _ _ _) (conj Hkb1 Hkb2)) as HB.
  assert (Hboth : minor_only_side (Board_pieces_of_color (board p) White)
                  /\ minor_only_side (Board_pieces_of_color (board p) Black)).
  { unfold Position_has_insufficient_material in H. cbv zeta in H.
    set (W := Board_pieces_of_color (board p) White) in *.
    set (B := Board_pieces_of_color (board p) Black) in *.
    destruct (Nat.eqb_spec (length W) 1) as [W1|W1];
    destruct (Nat.eqb_spec (length B) 1) as [B1|B1];
    destruct (Nat.eqb_spec (length W) 2) as [W2|W2];
    destruct (Nat.eqb_spec (length B) 2) as [B2|B2];
    cbn [andb] in H; try lia; try discriminate;
    try (split; eapply minor_only_side_one; eassumption).
    - destruct (existsb is_minor B) eqn:E; [|discriminate].
      apply existsb_is_minor in E as (m & Hm & Hmin).
      split; [eapply minor_only_side_one; eassumption|eapply (minor_only_side_two _ _ m); eassumption].
    - destruct (existsb is_minor W) eqn:E; [|discriminate].
      apply existsb_is_minor in E as (m & Hm & Hmin).
      split; [eapply (minor_only_side_two _ _ m); eassumption|eapply minor_only_side_one; eassumption].
    - destruct (find (fun sp => Piece_eqb (snd sp) Bishop) W) as [[wsq wp]|] eqn:Ew;
        [|discriminate].
      destruct (find (fun sp => Piece_eqb (snd sp) Bishop) B) as [[bsq bp]|] eqn:Eb;
        [|discriminate].
      apply find_some in Ew as [Hw Hwb]. apply find_some in Eb as [Hb Hbb].
      simpl in Hwb, Hbb. destruct wp; try discriminate. destruct bp; try discriminate.
      split; [eapply (minor_only_side_two _ _ (wsq, Bishop))
             |eapply (minor_only_side_two _ _ (bsq, Bishop))]; try eassumption; simpl; auto. }
  destruct Hboth as [[HlW HpW] [HlB HpB]].
  split; [exact HlW|]. split; [exact HlB|].
  intros sq piece c Hsq Hg.
  pose proof (proj2 (Board_pieces_of_color_In_iff _ c _ _) (conj Hsq Hg)) as Hin.
  destruct c; [apply (HpW _ Hin)|apply (HpB _ Hin)].
Qed.

Lemma insufficient_material_only_minor_pieces_witness :
  let p := position_of_fen (str "4k3/8/8/8/8/8/8/2B1K3 w - - 0 1") in
  0 <= index (mkSquare 4) < 64 /\ Board_get (board p) (mkSquare 4) = Some (King, White)
  /\ 0 <= index (mkSquare 60) < 64 /\ Board_get (board p) (mkSquare 60) = Some (King, Black)
  /\ Position_has_insufficient_material p = true
  /\ (length (Board_pieces_of_color (board p) White) <= 2)%nat
  /\ (length (Board_pieces_of_color (board p) Black) <= 2)%nat
  /\ (forall sq piece c, 0 <= index sq < 64 -> Board_get (board p) sq = Some (piece, c) ->
        piece = King \/ piece = Bishop \/ piece = Knight).
Proof.
  intros p.
  assert (H1 : 0 <= index (mkSquare 4) < 64) by (simpl; lia).
  assert (H2 : Board_get (board p) (mkSquare 4) = Some (King, White)) by (vm_compute; reflexivity).
  assert (H3 : 0 <= index (mkSquare 60) < 64) by (simpl; lia).
  assert (H4 : Board_get (board p) (mkSquare 60) = Some (King, Black)) by (vm_compute; reflexivity).
  assert (H5 : Position_has_insufficient_material p = true) by (vm_compute; reflexivity).
  split; [exact H1|]. split; [exact H2|]. split; [exact H3|]. split; [exact H4|].
  split; [exact H5|].
  exact (insufficient_material_only_minor_pieces p (mkSquare 4) (mkSquare 60) H1 H2 H3 H4 H5).
Defined.

(** X9: the Zobrist hash of a position and of the same position with the
    other side to move differ exactly by the side-to-move key, which is not
    zero; so the two always hash differently. *)
Theorem zobrist_hash_side_to_move (p : Position) :
  Z.lxor (Position_compute_zobrist_hash (with_side_to_move p (Color_opposite (side_to_move p))))
         (Position_compute_zobrist_hash p) = ZOBRIST_SIDE_TO_MOVE
  /\ Position_compute_zobrist_hash (with_side_to_move p (Color_opposite (side_to_move p)))
     <> Position_compute_zobrist_hash p.
Proof.
  assert (Hk : ZOBRIST_SIDE_TO_MOVE <> 0) by (vm_compute; discriminate).
  destruct p as [b s cr ep h f l]. unfold Position_compute_zobrist_hash.
  cbn [with_side_to_move board side_to_move castling_rights en_passant_target].
  cbv zeta.
  match goal with
  | |- Z.lxor (if _ then Z.lxor ?X _ else _) _ = _ /\ _ => generalize X
  end.
  intros X.
  assert (E : Z.lxor X (Z.lxor X ZOBRIST_SIDE_TO_MOVE) = ZOBRIST_SIDE_TO_MOVE)
    by (rewrite <- Z.lxor_assoc, Z.lxor_nilpotent, Z.lxor_0_l; reflexivity).
  destruct s; cbn [Color_opposite Color_eqb].
  - split; [rewrite (Z.lxor_comm _ X); exact E|]. intros E'. apply Hk.
    rewrite <- E, E', Z.lxor_nilpotent. reflexivity.
  - split; [exact E|]. intros E'. apply Hk.
    rewrite <- E, <- E', Z.lxor_nilpotent. reflexivity.
Qed.

(** *** Games *)

Lemma last_cons_default {A} (x : A) l d1 d2 : last (x :: l) d1 = last (x :: l) d2.
Proof.
  revert x. induction l as [|y l IH]; intros x; [reflexivity|].
  change (last (x :: y :: l) d1) with (last (y :: l) d1).
  change (last (x :: y :: l) d2) with (last (y :: l) d2). apply IH.
Qed.

Lemma zobrist_hash_history (p : Position) (h : list Z) :
  Position_compute_zobrist_hash (with_position_history p h) = Position_compute_zobrist_hash p.
Proof. reflexivity. Qed.

(** The first step of [apply_move_to_position] only replaces the board. *)
Lemma apply_move_board_step g mv r g1 :
  (if is_castling mv then apply_castling g mv
   else if is_en_passant mv then (Ok tt, apply_en_passant g mv)
   else (Ok tt, apply_normal_move g mv)) = (r, g1) ->
  r = Ok tt ->
  g1 = with_position g (with_board (position g) (board (position g1)))
  /\ (is_castling mv = false -> is_en_passant mv = false ->
      board (position g1) = board (position (apply_normal_move g mv))).
Proof.
  intros H Hr. subst r. destruct (is_castling mv).
  - split; [|discriminate]. unfold apply_castling in H.
    destruct (Board_get _ (from mv)) as [[[] c]|]; try discriminate.
    destruct (_ >? _); destruct (is_piece _ Rook c); cbn [negb] in H;
      try discriminate; injection H as <-; reflexivity.
  - destruct (is_en_passant mv); injection H as <-; split; try reflexivity. discriminate.
Qed.

Lemma update_halfmove_clock_position g mv :
  position (update_halfmove_clock g mv)
  = with_halfmove_clock (position g)
      (if match Board_get (board (position g)) (to mv) with
          | Some (piece, _) => Piece_eqb piece Pawn
          | None => false
          end
          || (match position_snapshots g with
              | [] => false
              | _ :: _ =>
                  match Board_get (board (last (position_snapshots g) (position g))) (to mv) with
                  | Some _ => true
                  | None => false
                  end
              end || is_en_passant mv)
       then 0 else u32_incr (halfmove_clock (position g)))
  /\ meta (update_halfmove_clock g mv) = meta g.
Proof.
  unfold update_halfmove_clock.
  destruct (_ || _); split; reflexivity.
Qed.

(** The bookkeeping steps of [apply_move_to_position] after the board step,
    one game per [let]. *)
Lemma apply_move_bookkeeping (mv : Move) (g1 g2 g3 g4 g5 g6 g7 : ChessGame) :
  g2 = with_position g1 (Position_update_castling_rights_after_move (position g1) mv) ->
  g3 = update_en_passant_target g2 mv ->
  g4 = update_halfmove_clock g3 mv ->
  g5 = (if Color_eqb (side_to_move (position g4)) Black
        then with_position g4 (with_fullmove_number (position g4)
                                 (u32_incr (fullmove_number (position g4))))
        else g4) ->
  g6 = with_position g5 (with_side_to_move (position g5)
                           (Color_opposite (side_to_move (position g5)))) ->
  g7 = with_position g6 (with_position_history (position g6)
                           (position_history (position g6)
                            ++ [Position_compute_zobrist_hash (position g6)])) ->
  board (position g7) = board (position g1)
  /\ side_to_move (position g7) = Color_opposite (side_to_move (position g1))
  /\ fullmove_number (position g7)
     = (if Color_eqb (side_to_move (position g1)) Black
        then u32_incr (fullmove_number (position g1)) else fullmove_number (position g1))
  /\ castling_rights (position g7)
     = castling_rights (Position_update_castling_rights_after_move (position g1) mv)
  /\ en_passant_target (position g7)
     = match Board_get (board (position g1)) (to mv) with
       | Some (Pawn, _) =>
           if Z.abs (Square_rank (from mv) - Square_rank (to mv)) =? 2
           then Square_from_rank_file ((Square_rank (from mv) + Square_rank (to mv)) / 2)
                  (Square_file (from mv))
           else None
       | _ => None
       end
  /\ halfmove_clock (position g7)
     = (if match Board_get (board (position g1)) (to mv) with
           | Some (piece, _) => Piece_eqb piece Pawn
           | None => false
           end
           || (match position_snapshots g1 with
               | [] => false
               | _ :: _ =>
                   match Board_get (board (last (position_snapshots g1) (position g1))) (to mv) with
                   | Some _ => true
                   | None => false
                   end
               end || is_en_passant mv)
        then 0 else u32_incr (halfmove_clock (position g1)))
  /\ position_history (position g7)
     = position_history (position g1) ++ [Position_compute_zobrist_hash (position g7)]
  /\ meta g7 = meta g1.
Proof.
  intros E2 E3 E4 E5 E6 E7.
  destruct (update_halfmove_clock_position g3 mv) as [P4 M4]. rewrite <- E4 in P4, M4.
  assert (P3 : position g3 = with_en_passant_target (position g2)
     match Board_get (board (position g2)) (to mv) with
     | Some (Pawn, _) =>
         if Z.abs (Square_rank (from mv) - Square_rank (to mv)) =? 2
         then Square_from_rank_file ((Square_rank (from mv) + Square_rank (to mv)) / 2)
                (Square_file (from mv))
         else None
     | _ => None
     end) by (subst g3; reflexivity).
  assert (M3 : meta g3 = meta g2) by (subst g3; reflexivity).
  assert (P2 : position g2 = with_castling_rights (position g1)
     (castling_rights (Position_update_castling_rights_after_move (position g1) mv)))
    by (subst g2; reflexivity).
  assert (M2 : meta g2 = meta g1) by (subst g2; reflexivity).
  assert (S2 : position_snapshots g2 = position_snapshots g1) by (subst g2; reflexivity).
  assert (S3 : position_snapshots g3 = position_snapshots g2) by (subst g3; reflexivity).
  assert (P5 : position g5 = with_fullmove_number (position g4)
     (if Color_eqb (side_to_move (position g4)) Black
      then u32_incr (fullmove_number (position g4)) else fullmove_number (position g4)))
    by (subst g5; destruct (Color_eqb _ Black); [reflexivity|destruct (position g4); reflexivity]).
  assert (M5 : meta g5 = meta g4) by (subst g5; destruct (Color_eqb _ Black); reflexivity).
  subst g7 g6. unfold meta in *. cbn [position move_history position_snapshots status with_position].
  rewrite P5. cbn [board side_to_move castling_rights en_passant_target halfmove_clock
       fullmove_number position_history with_side_to_move with_fullmove_number with_position_history].
  rewrite zobrist_hash_history.
  rewrite P4. cbn [board side_to_move castling_rights en_passant_target halfmove_clock
       fullmove_number position_history with_halfmove_clock].
  rewrite S3, P3, S2. cbn [board side_to_move castling_rights en_passant_target halfmove_clock
       fullmove_number position_history with_en_passant_target].
  rewrite P2. cbn [board side_to_move castling_rights en_passant_target halfmove_clock
       fullmove_number position_history with_castling_rights].
  split; [reflexivity|]. split; [reflexivity|]. split; [reflexivity|].
  split; [reflexivity|]. split; [reflexivity|].
  split; [destruct (position_snapshots g1) as [|s0 l]; [reflexivity|];
          set (D := last (s0 :: l) (position g1));
          rewrite (last_cons_default s0 l _ (position g1)); reflexivity|].
  split; [reflexivity|].
  rewrite M5, M4, M3, M2. reflexivity.
Qed.
Lemma apply_move_to_position_ok g mv g' :
  apply_move_to_position g mv = (Ok tt, g') ->
  (is_castling mv = false -> is_en_passant mv = false ->
   board (position g') = board (position (apply_normal_move g mv)))
  /\ side_to_move (position g') = Color_opposite (side_to_move (position g))
  /\ fullmove_number (position g')
     = (if Color_eqb (side_to_move (position g)) Black
        then u32_incr (fullmove_number (position g)) else fullmove_number (position g))
  /\ castling_rights (position g')
     = castling_rights (Position_update_castling_rights_after_move
                          (with_board (position g) (board (position g'))) mv)
  /\ en_passant_target (position g')
     = match Board_get (board (position g')) (to mv) with
       | Some (Pawn, _) =>
           if Z.abs (Square_rank (from mv) - Square_rank (to mv)) =? 2
           then Square_from_rank_file ((Square_rank (from mv) + Square_rank (to mv)) / 2)
                  (Square_file (from mv))
           else None
       | _ => None
       end
  /\ halfmove_clock (position g')
     = (if match Board_get (board (position g')) (to mv) with
           | Some (piece, _) => Piece_eqb piece Pawn
           | None => false
           end
           || (match position_snapshots g with
               | [] => false
               | _ :: _ =>
                   match Board_get (board (last (position_snapshots g) (position g))) (to mv) with
                   | Some _ => true
                   | None => false
                   end
               end || is_en_passant mv)
        then 0 else u32_incr (halfmove_clock (position g)))
  /\ position_history (position g')
     = position_history (position g) ++ [Position_compute_zobrist_hash (position g')]
  /\ meta g' = meta g.
Proof.
  unfold apply_move_to_position.
  destruct (if is_castling mv then apply_castling g mv
            else if is_en_passant mv then (Ok tt, apply_en_passant g mv)
            else (Ok tt, apply_normal_move g mv)) as [r g1] eqn:E1.
  destruct r as [u|e]; [|discriminate]. destruct u.
  destruct (apply_move_board_step g mv _ g1 E1 eq_refl) as [Hg1 Hn].
  set (b1 := board (position g1)) in *. clearbody b1. subst g1.
  intros H. injection H as Hg.
  destruct (apply_move_bookkeeping mv (with_position g (with_board (position g) b1))
              _ _ _ _ _ g' eq_refl eq_refl eq_refl eq_refl eq_refl (eq_sym Hg))
    as (Hb & Hs & Hf & Hc & He & Hh & Hp & Hm).
  clear Hg.
  cbn [position board side_to_move castling_rights en_passant_target halfmove_clock
       fullmove_number position_history with_position with_board
       move_history position_snapshots status] in *.
  rewrite Hb.
  split; [exact Hn|]. split; [exact Hs|]. split; [exact Hf|]. split; [exact Hc|].
  split; [exact He|].
  split; [rewrite Hh; destruct (position_snapshots g) as [|s0 l]; [reflexivity|];
          set (D := last (s0 :: l) (position g));
          rewrite (last_cons_default s0 l _ (position g)); reflexivity|].
  split; [exact Hp|]. rewrite Hm. reflexivity.
Qed.

Lemma make_move_ok g mv g' :
  make_move g mv = (Ok tt, g') ->
  is_active (status g) = true /\ is_legal_move (position g) mv = true
  /\ exists g2,
       apply_move_to_position (with_position_snapshots g (position_snapshots g ++ [position g])) mv
       = (Ok tt, g2)
       /\ g' = with_status (with_move_history g2 (move_history g2 ++ [mv]))
                (compute_game_status_static (position g2)).
Proof.
  unfold make_move.
  destruct (is_active (status g)) eqn:Ea; [|discriminate].
  destruct (is_legal_move (position g) mv) eqn:El; [|discriminate]. cbn [negb].
  destruct (apply_move_to_position (with_position_snapshots g (position_snapshots g ++ [position g])) mv)
    as [r g2] eqn:E.
  destruct r as [[]|e]; [|discriminate]. intros H. injection H as <-.
  split; [reflexivity|]. split; [reflexivity|]. exists g2. split; reflexivity.
Qed.

(** X10: a successful [ChessGame::make_move] (only possible while the game is
    active and for a legal move) hands the turn to the other side, increments
    the fullmove number exactly after a Black move, appends the new position's
    Zobrist hash to the position history, records the move and a snapshot of
    the previous position, and recomputes the status from the new position. *)
Theorem make_move_success_bookkeeping (g : ChessGame) (mv : Move) (g' : ChessGame) :
  make_move g mv = (Ok tt, g') ->
  is_active (status g) = true /\ is_legal_move (position g) mv = true
  /\ side_to_move (position g') = Color_opposite (side_to_move (position g))
  /\ fullmove_number (position g')
     = (if Color_eqb (side_to_move (position g)) Black
        then u32_incr (fullmove_number (position g)) else fullmove_number (position g))
  /\ position_history (position g')
     = position_history (position g) ++ [Position_compute_zobrist_hash (position g')]
  /\ move_history g' = move_history g ++ [mv]
  /\ position_snapshots g' = position_snapshots g ++ [position g]
  /\ status g' = compute_game_status_static (position g').
Proof.
  intros H. apply make_move_ok in H as (Ha & Hl & g2 & E & ->).
  apply apply_move_to_position_ok in E as (_ & Hs & Hf & _ & _ & _ & Hh & Hm).
  unfold meta in Hm.
  cbn [position move_history position_snapshots status with_position_snapshots] in Hs, Hf, Hh, Hm.
  injection Hm as Hmh Hsn _.
  cbn [position move_history position_snapshots status with_status with_move_history].
  rewrite Hmh, Hsn.
  repeat match goal with |- _ /\ _ => split end; first [assumption | reflexivity].
Qed.

Lemma make_move_success_bookkeeping_witness :
  make_move ChessGame_new e2e4 = (Ok tt, snd (make_move ChessGame_new e2e4))
  /\ is_active (status ChessGame_new) = true /\ is_legal_move (position ChessGame_new) e2e4 = true
  /\ side_to_move (position (snd (make_move ChessGame_new e2e4)))
     = Color_opposite (side_to_move (position ChessGame_new))
  /\ fullmove_number (position (snd (make_move ChessGame_new e2e4)))
     = (if Color_eqb (side_to_move (position ChessGame_new)) Black
        then u32_incr (fullmove_number (position ChessGame_new))
        else fullmove_number (position ChessGame_new))
  /\ position_history (position (snd (make_move ChessGame_new e2e4)))
     = position_history (position ChessGame_new)
       ++ [Position_compute_zobrist_hash (position (snd (make_move ChessGame_new e2e4)))]
  /\ move_history (snd (make_move ChessGame_new e2e4)) = move_history ChessGame_new ++ [e2e4]
  /\ position_snapshots (snd (make_move ChessGame_new e2e4))
     = position_snapshots ChessGame_new ++ [position ChessGame_new]
  /\ status (snd (make_move ChessGame_new e2e4))
     = compute_game_status_static (position (snd (make_move ChessGame_new e2e4))).
Proof.
  assert (H : make_move ChessGame_new e2e4 = (Ok tt, snd (make_move ChessGame_new e2e4)))
    by (vm_compute; reflexivity).
  split; [exact H|].
  exact (make_move_success_bookkeeping _ _ _ H).
Defined.

Lemma make_move_then_undo_move g mv g1 :
  make_move g mv = (Ok tt, g1) ->
  undo_move g1 = (Ok tt, with_status g (compute_game_status_static (position g))).
Proof.
  intros H. apply make_move_cases in H as [[e [He _]]|[_ [ga [Hm ->]]]]; [discriminate|].
  unfold meta in Hm. injection Hm as Hh Hs _.
  unfold undo_move. cbn [position_snapshots with_status with_move_history].
  rewrite Hs. destruct (position_snapshots g ++ [position g]) as [|x l] eqn:E.
  { destruct (position_snapshots g); discriminate. }
  rewrite <- E, last_last, removelast_last.
  cbn [move_history position position_snapshots status with_move_history with_status].
  rewrite ?removelast_last, Hh. destruct g. reflexivity.
Qed.

(** X11: [undo_move] right after a successful [make_move] succeeds and gives
    back the game as it was (position, move history and snapshot stack),
    with the status recomputed from that position. *)
Theorem make_move_undo_move_inverse (g : ChessGame) (mv : Move) (g1 : ChessGame) :
  make_move g mv = (Ok tt, g1) ->
  undo_move g1 = (Ok tt, with_status g (compute_game_status_static (position g))).
Proof. exact (make_move_then_undo_move g mv g1). Qed.

Lemma make_move_undo_move_inverse_witness :
  make_move ChessGame_new e2e4 = (Ok tt, snd (make_move ChessGame_new e2e4))
  /\ undo_move (snd (make_move ChessGame_new e2e4))
     = (Ok tt, with_status ChessGame_new (compute_game_status_static (position ChessGame_new))).
Proof.
  assert (H : make_move ChessGame_new e2e4 = (Ok tt, snd (make_move ChessGame_new e2e4)))
    by (vm_compute; reflexivity).
  split; [exact H|].
  exact (make_move_undo_move_inverse _ _ _ H).
Defined.

(** X12: once the game is over (status neither [InProgress] nor [Check]),
    there are no legal moves, none from any square, [make_move] refuses every
    move with [GameOver] leaving the game as it is, and the [make_move] and
    [analyze_move] commands refuse every request. *)
Theorem game_over_refuses_moves (g : ChessGame) :
  is_active (status g) = false ->
  ChessGame_get_legal_moves g = []
  /\ (forall sq, ChessGame_get_legal_moves_for_square g sq = [])
  /\ (forall mv, make_move g mv = (Err GameOver, g))
  /\ (forall from_s to_s promotion, commands_make_move g from_s to_s promotion = (None, g))
  /\ (forall from_s to_s promotion, commands_analyze_move g from_s to_s promotion = None).
Proof.
  intros Ha.
  assert (L : ChessGame_get_legal_moves g = []) by (unfold ChessGame_get_legal_moves; rewrite Ha; reflexivity).
  assert (F : forall f t pp, find_matching_move g f t pp = None)
    by (intros; unfold find_matching_move; rewrite L; reflexivity).
  split; [exact L|]. split.
  { intros sq. unfold ChessGame_get_legal_moves_for_square. rewrite L. reflexivity. }
  split.
  { intros mv. unfold make_move. rewrite Ha. reflexivity. }
  split; intros f t pr.
  - unfold commands_make_move.
    destruct (Square_from_algebraic f); [|reflexivity].
    destruct (Square_from_algebraic t); [|reflexivity].
    destruct (parse_promotion_arg pr); [|reflexivity]. rewrite F. reflexivity.
  - unfold commands_analyze_move.
    destruct (Square_from_algebraic f); [|reflexivity].
    destruct (Square_from_algebraic t); [|reflexivity].
    destruct (parse_promotion_arg pr); [|reflexivity]. rewrite F. reflexivity.
Qed.

Lemma game_over_refuses_moves_witness :
  status fools_mate_game = Checkmate Black
  /\ is_active (status fools_mate_game) = false
  /\ ChessGame_get_legal_moves fools_mate_game = []
  /\ (forall sq, ChessGame_get_legal_moves_for_square fools_mate_game sq = [])
  /\ (forall mv, make_move fools_mate_game mv = (Err GameOver, fools_mate_game))
  /\ (forall from_s to_s promotion,
        commands_make_move fools_mate_game from_s to_s promotion = (None, fools_mate_game))
  /\ (forall from_s to_s promotion,
        commands_analyze_move fools_mate_game from_s to_s promotion = None).
Proof.
  assert (H : status fools_mate_game = Checkmate Black) by (vm_compute; reflexivity).
  split; [exact H|]. split; [rewrite H; reflexivity|].
  apply game_over_refuses_moves. rewrite H. reflexivity.
Defined.

Lemma apply_normal_move_get g mv piece c sq :
  0 <= index (from mv) < 64 -> 0 <= index (to mv) < 64 -> 0 <= index sq < 64 ->
  Board_get (board (position g)) (from mv) = Some (piece, c) ->
  Board_get (board (position (apply_normal_move g mv))) sq
  = if Square_eqb sq (to mv) then Some (match promotion mv with Some pp => pp | None => piece end, c)
    else if Square_eqb sq (from mv) then None
    else Board_get (board (position g)) sq.
Proof.
  intros Hf Ht Hs Hp. unfold apply_normal_move.
  cbn [position board with_position with_board]. rewrite Hp.
  unfold Square_eqb.
  destruct (promotion mv) as [pp|];
    rewrite Board_get_set, Board_get_set by assumption;
    rewrite (Z.eqb_sym (index (to mv))), (Z.eqb_sym (index (from mv)));
    destruct (index sq =? index (to mv)); reflexivity.
Qed.

(** X13: a successful [make_move] of a move that is neither castling nor en
    passant, from an in-range square holding a piece to an in-range square:
    the target square then holds the moved piece (the promotion piece if
    the move promotes), the origin is empty, every other square is as
    before; the halfmove clock is reset exactly when the piece standing on
    the target afterwards is a pawn or the target was occupied (so a quiet
    promotion does not reset it), and otherwise incremented; the en passant
    target is the skipped square exactly when a pawn moved two ranks. *)
Theorem make_move_normal_move_effect (g : ChessGame) (mv : Move) (g' : ChessGame)
    (piece : Piece) (c : Color) :
  make_move g mv = (Ok tt, g') ->
  is_castling mv = false -> is_en_passant mv = false ->
  0 <= index (from mv) < 64 -> 0 <= index (to mv) < 64 ->
  Board_get (board (position g)) (from mv) = Some (piece, c) ->
  (forall sq, 0 <= index sq < 64 ->
     Board_get (board (position g')) sq
     = if Square_eqb sq (to mv)
       then Some (match promotion mv with Some pp => pp | None => piece end, c)
       else if Square_eqb sq (from mv) then None
       else Board_get (board (position g)) sq)
  /\ halfmove_clock (position g')
     = (if Piece_eqb (match promotion mv with Some pp => pp | None => piece end) Pawn
           || match Board_get (board (position g)) (to mv) with Some _ => true | None => false end
        then 0 else u32_incr (halfmove_clock (position g)))
  /\ en_passant_target (position g')
     = (if Piece_eqb (match promotion mv with Some pp => pp | None => piece end) Pawn
           && (Z.abs (Square_rank (from mv) - Square_rank (to mv)) =? 2)
        then Square_from_rank_file ((Square_rank (from mv) + Square_rank (to mv)) / 2)
               (Square_file (from mv))
        else None).
Proof.
  intros H Hc He Hf Ht Hp.
  apply make_move_ok in H as (_ & _ & g2 & E & ->).
  apply apply_move_to_position_ok in E as (Hb & _ & _ & _ & Hep & Hh & _).
  specialize (Hb Hc He).
  cbn [position board halfmove_clock en_passant_target position_snapshots
       with_status with_move_history with_position_snapshots] in *.
  assert (Hg : forall sq, 0 <= index sq < 64 ->
     Board_get (board (position g2)) sq
     = if Square_eqb sq (to mv)
       then Some (match promotion mv with Some pp => pp | None => piece end, c)
       else if Square_eqb sq (from mv) then None
       else Board_get (board (position g)) sq).
  { intros sq Hs. rewrite Hb.
    exact (apply_normal_move_get (with_position_snapshots g (position_snapshots g ++ [position g]))
             mv piece c sq Hf Ht Hs Hp). }
  split; [exact Hg|].
  assert (Hto := Hg (to mv) Ht). unfold Square_eqb in Hto. rewrite Z.eqb_refl in Hto.
  rewrite Hto in Hh, Hep. rewrite Hh, Hep, He. clear Hh Hep.
  split.
  - destruct (position_snapshots g ++ [position g]) as [|x l] eqn:E.
    { destruct (position_snapshots g); discriminate. }
    rewrite <- E, last_last, orb_false_r. reflexivity.
  - destruct (match promotion mv with Some pp => pp | None => piece end); reflexivity.
Qed.

Lemma make_move_normal_move_effect_witness :
  make_move ChessGame_new e2e4 = (Ok tt, snd (make_move ChessGame_new e2e4))
  /\ en_passant_target (position (snd (make_move ChessGame_new e2e4))) = Some (mkSquare 20)
  /\ halfmove_clock (position (snd (make_move ChessGame_new e2e4))) = 0.
Proof.
  assert (H : make_move ChessGame_new e2e4 = (Ok tt, snd (make_move ChessGame_new e2e4)))
    by (vm_compute; reflexivity).
  split; [exact H|].
  destruct (make_move_normal_move_effect _ _ _ Pawn White H eq_refl eq_refl)
    as (_ & Hh & Hep); [simpl; lia|simpl; lia|vm_compute; reflexivity|].
  rewrite Hh, Hep. split; vm_compute; reflexivity.
Defined.

Lemma update_castling_rights_only_clears (p : Position) (mv : Move) (color : Color) (kingside : bool) :
  CastlingRights_can_castle (castling_rights (Position_update_castling_rights_after_move p mv))
    color kingside = true ->
  CastlingRights_can_castle (castling_rights p) color kingside = true.
Proof.
  unfold Position_update_castling_rights_after_move. cbv zeta.
  cbn [castling_rights with_castling_rights].
  destruct (castling_rights p) as [wk wq bk bq].
  destruct color, kingside; cbn [CastlingRights_can_castle];
  repeat match goal with
         | |- context [match ?x with _ => _ end] => destruct x
         end;
  cbn [white_kingside white_queenside black_kingside black_queenside
       set_white_kingside set_white_queenside set_black_kingside set_black_queenside];
  first [exact (fun h => h) | discriminate].
Qed.

(** X14: [make_move] never grants a castling right: whatever it returns, a
    right set in the resulting position was already set before the call. *)
Theorem make_move_never_grants_castling (g : ChessGame) (mv : Move) (r : result unit)
    (g' : ChessGame) (color : Color) (kingside : bool) :
  make_move g mv = (r, g') ->
  CastlingRights_can_castle (castling_rights (position g')) color kingside = true ->
  CastlingRights_can_castle (castling_rights (position g)) color kingside = true.
Proof.
  intros H. destruct r as [[]|e].
  - apply make_move_ok in H as (_ & _ & g2 & E & ->).
    apply apply_move_to_position_ok in E as (_ & _ & _ & Hc & _).
    cbn [position with_status with_move_history with_position_snapshots] in *.
    rewrite Hc. intros Hk. exact (update_castling_rights_only_clears _ mv color kingside Hk).
  - apply make_move_cases in H as [[e' [_ ->]]|[Hr _]]; [exact (fun h => h)|discriminate].
Qed.

Lemma make_move_never_grants_castling_witness :
  make_move ChessGame_new e2e4 = (Ok tt, snd (make_move ChessGame_new e2e4))
  /\ CastlingRights_can_castle (castling_rights (position (snd (make_move ChessGame_new e2e4))))
       White true = true
  /\ CastlingRights_can_castle (castling_rights (position ChessGame_new)) White true = true.
Proof.
  assert (H : make_move ChessGame_new e2e4 = (Ok tt, snd (make_move ChessGame_new e2e4)))
    by (vm_compute; reflexivity).
  assert (H1 : CastlingRights_can_castle
                 (castling_rights (position (snd (make_move ChessGame_new e2e4)))) White true = true)
    by (vm_compute; reflexivity).
  split; [exact H|]. split; [exact H1|].
  exact (make_move_never_grants_castling _ _ _ _ White true H H1).
Defined.

Lemma Piece_eqb_true a b : Piece_eqb a b = true <-> a = b.
Proof. split; [destruct a, b; cbn; congruence|intros <-; destruct a; reflexivity]. Qed.

Lemma Square_eqb_true a b : Square_eqb a b = true <-> a = b.
Proof.
  destruct a as [i], b as [j]. unfold Square_eqb. cbn [index].
  rewrite Z.eqb_eq. split; congruence.
Qed.

Lemma option_eqb_Piece_true a b : option_eqb Piece_eqb a b = true <-> a = b.
Proof.
  destruct a as [x|], b as [y|]; cbn; try (split; congruence).
  rewrite Piece_eqb_true. split; congruence.
Qed.

Lemma find_matching_move_some game f t pp mv :
  find_matching_move game f t pp = Some mv ->
  In mv (ChessGame_get_legal_moves game) /\ from mv = f /\ to mv = t /\ promotion mv = pp.
Proof.
  unfold find_matching_move. intros H. apply find_some in H as [Hin Hb].
  apply andb_true_iff in Hb as [Hb Hp]. apply andb_true_iff in Hb as [Hf Ht].
  apply Square_eqb_true in Hf. apply Square_eqb_true in Ht.
  apply option_eqb_Piece_true in Hp. auto.
Qed.

Lemma commands_make_move_cases game from_s to_s promo res game' :
  commands_make_move game from_s to_s promo = (res, game') ->
  match res with
  | Some st =>
      exists from_square to_square promotion_piece mv,
        Square_from_algebraic from_s = Ok from_square
        /\ Square_from_algebraic to_s = Ok to_square
        /\ parse_promotion_arg promo = Some promotion_piece
        /\ In mv (ChessGame_get_legal_moves game)
        /\ from mv = from_square /\ to mv = to_square /\ promotion mv = promotion_piece
        /\ make_move game mv = (Ok tt, game') /\ st = status game'
  | None => game' = game
  end.
Proof.
  unfold commands_make_move.
  destruct (Square_from_algebraic from_s) as [f|] eqn:Ef; [|intros H; injection H as <- <-; reflexivity].
  destruct (Square_from_algebraic to_s) as [t|] eqn:Et; [|intros H; injection H as <- <-; reflexivity].
  destruct (parse_promotion_arg promo) as [pp|] eqn:Ep; [|intros H; injection H as <- <-; reflexivity].
  destruct (find_matching_move game f t pp) as [mv|] eqn:Em; [|intros H; injection H as <- <-; reflexivity].
  apply find_matching_move_some in Em as (Hin & Hf & Ht & Hp).
  destruct (make_move game mv) as [r g1] eqn:Emm.
  destruct r as [[]|e]; intros H; injection H as <- <-.
  - exists f, t, pp, mv. repeat (split; [first [assumption|reflexivity]|]). reflexivity.
  - apply make_move_cases in Emm as [[e' [_ ->]]|[Hr _]]; [reflexivity|discriminate].
Qed.

(** X15: the [make_move] command succeeds only when both square names parse,
    the promotion argument is absent or names a piece, and a legal move of
    the game has these squares and this promotion; it then plays that move
    with [ChessGame::make_move], which succeeds, and returns the new status.
    When it fails, the game is left as it was. *)
Theorem commands_make_move_result (game : ChessGame) (from_s to_s : rstr) (promo : option rstr)
    (res : option GameStatus) (game' : ChessGame) :
  commands_make_move game from_s to_s promo = (res, game') ->
  match res with
  | Some st =>
      exists from_square to_square promotion_piece mv,
        Square_from_algebraic from_s = Ok from_square
        /\ Square_from_algebraic to_s = Ok to_square
        /\ parse_promotion_arg promo = Some promotion_piece
        /\ In mv (ChessGame_get_legal_moves game)
        /\ from mv = from_square /\ to mv = to_square /\ promotion mv = promotion_piece
        /\ make_move game mv = (Ok tt, game') /\ st = status game'
  | None => game' = game
  end.
Proof. apply commands_make_move_cases. Qed.

Lemma commands_make_move_result_witness :
  commands_make_move ChessGame_new (str "e2") (str "e4") None
  = (Some InProgress, snd (make_move ChessGame_new e2e4))
  /\ exists from_square to_square promotion_piece mv,
       Square_from_algebraic (str "e2") = Ok from_square
       /\ Square_from_algebraic (str "e4") = Ok to_square
       /\ parse_promotion_arg None = Some promotion_piece
       /\ In mv (ChessGame_get_legal_moves ChessGame_new)
       /\ from mv = from_square /\ to mv = to_square /\ promotion mv = promotion_piece
       /\ make_move ChessGame_new mv = (Ok tt, snd (make_move ChessGame_new e2e4))
       /\ InProgress = status (snd (make_move ChessGame_new e2e4)).
Proof.
  assert (H : commands_make_move ChessGame_new (str "e2") (str "e4") None
              = (Some InProgress, snd (make_move ChessGame_new e2e4)))
    by (vm_compute; reflexivity).
  split; [exact H|].
  exact (commands_make_move_result _ _ _ _ _ _ H).
Defined.

(** X16: the [undo_move] command fails, leaving the game as it is, when no
    move has been made; right after a successful [make_move] command it
    gives back the game as it was before, with the status recomputed, and
    returns that status. *)
Theorem commands_undo_move_behaviour (game : ChessGame) :
  (position_snapshots game = [] -> commands_undo_move game = (None, game))
  /\ (forall from_s to_s promo st game1,
        commands_make_move game from_s to_s promo = (Some st, game1) ->
        commands_undo_move game1
        = (Some (compute_game_status_static (position game)),
           with_status game (compute_game_status_static (position game)))).
Proof.
  split.
  - intros H. unfold commands_undo_move, undo_move. rewrite H. reflexivity.
  - intros f t pr st g1 H. apply commands_make_move_cases in H
      as (fs & ts & pp & mv & _ & _ & _ & _ & _ & _ & _ & Hm & _).
    unfold commands_undo_move. rewrite (make_move_then_undo_move _ _ _ Hm). reflexivity.
Qed.

Lemma commands_undo_move_behaviour_witness :
  position_snapshots ChessGame_new = []
  /\ commands_undo_move ChessGame_new = (None, ChessGame_new)
  /\ commands_make_move ChessGame_new (str "e2") (str "e4") None
     = (Some InProgress, snd (make_move ChessGame_new e2e4))
  /\ commands_undo_move (snd (make_move ChessGame_new e2e4))
     = (Some (compute_game_status_static (position ChessGame_new)),
        with_status ChessGame_new (compute_game_status_static (position ChessGame_new))).
Proof.
  assert (H : commands_make_move ChessGame_new (str "e2") (str "e4") None
              = (Some InProgress, snd (make_move ChessGame_new e2e4)))
    by (vm_compute; reflexivity).
  destruct (commands_undo_move_behaviour ChessGame_new) as [H1 H2].
  split; [reflexivity|]. split; [exact (H1 eq_refl)|]. split; [exact H|].
  exact (H2 _ _ _ _ _ H).
Defined.




Lemma pin_scan_In (b : Board) (color : Color) (rd fd : Z) (fuel : nat) :
  forall rank file op sq,
  In sq (pin_scan fuel b color rank file rd fd op) ->
  op = Some sq
  \/ exists k piece, 1 <= k <= Z.of_nat fuel
       /\ 0 <= rank + k * rd < 8 /\ 0 <= file + k * fd < 8
       /\ sq = mkSquare ((rank + k * rd) * 8 + (file + k * fd))
       /\ Board_get b sq = Some (piece, color).
Proof.
  induction fuel as [|fuel IH]; intros rank file op sq H; [destruct H|].
  cbn [pin_scan] in H.
  destruct ((rank + rd <? 0) || (rank + rd >=? 8) || (file + fd <? 0) || (file + fd >=? 8)) eqn:Eg;
    [destruct H|].
  repeat rewrite orb_false_iff in Eg.
  destruct Eg as [[[E1 E2] E3] E4].
  apply Z.ltb_ge in E1. apply Z.ltb_ge in E3.
  rewrite Z.geb_leb, Z.leb_gt in E2, E4.
  unfold Square_from_rank_file in H.
  rewrite (proj2 (Z.ltb_lt (rank + rd) 8) ltac:(lia)), (proj2 (Z.ltb_lt (file + fd) 8) ltac:(lia))
    in H. cbn [andb] in H.
  assert (Step : forall op',
            op' = op
            \/ (op' = Some (mkSquare ((rank + rd) * 8 + (file + fd)))
                /\ exists piece, Board_get b (mkSquare ((rank + rd) * 8 + (file + fd)))
                                 = Some (piece, color)) ->
            In sq (pin_scan fuel b color (rank + rd) (file + fd) rd fd op') ->
            op = Some sq
            \/ exists k piece, 1 <= k <= Z.of_nat (S fuel)
                 /\ 0 <= rank + k * rd < 8 /\ 0 <= file + k * fd < 8
                 /\ sq = mkSquare ((rank + k * rd) * 8 + (file + k * fd))
                 /\ Board_get b sq = Some (piece, color)).
  { intros op' Hop Hin.
    destruct (IH _ _ _ _ Hin) as [Eo|(k & piece & Hk & Hr & Hf & Es & Hp)].
    - destruct Hop as [Hop|[Hop [piece Hp]]]; subst op'.
      + left. exact Eo.
      + right. injection Eo as <-.
        exists 1, piece. rewrite !Z.mul_1_l. repeat split; first [lia|reflexivity|assumption].
    - right. exists (k + 1), piece. split; [lia|].
      replace (rank + (k + 1) * rd) with (rank + rd + k * rd) by ring.
      replace (file + (k + 1) * fd) with (file + fd + k * fd) by ring.
      repeat split; first [lia|assumption]. }
  destruct (Board_get b (mkSquare ((rank + rd) * 8 + (file + fd)))) as [[piece pc]|] eqn:Eb.
  - destruct (Color_eqb pc color) eqn:Ec.
    + apply Color_eqb_true in Ec. subst pc.
      destruct op as [s0|]; [destruct H|].
      exact (Step _ (or_intror (conj eq_refl (ex_intro _ piece eq_refl))) H).
    + destruct op as [s0|]; [|destruct H].
      left. destruct (match piece with
                      | Queen => true
                      | Bishop => negb (rd =? 0) && negb (fd =? 0)
                      | Rook => negb (negb (rd =? 0) && negb (fd =? 0))
                      | _ => false end); [|destruct H].
      destruct H as [H|[]]. subst s0. reflexivity.
  - exact (Step _ (or_introl eq_refl) H).
Qed.

(** X19: every square [get_pinned_pieces] reports holds a piece of the given
    colour and lies on one of the eight rays from that colour's king (found
    by [find_king]), some steps away along the ray. *)
Theorem get_pinned_pieces_own_on_king_ray (position : Position) (color : Color) (sq : Square) :
  In sq (get_pinned_pieces position color) ->
  exists king_square rank_dir file_dir k piece,
    Board_find_king (board position) color = Some king_square
    /\ In (rank_dir, file_dir) PIN_DIRECTIONS /\ 1 <= k <= 8
    /\ 0 <= index sq < 64
    /\ Square_rank sq = Square_rank king_square + k * rank_dir
    /\ Square_file sq = Square_file king_square + k * file_dir
    /\ Board_get (board position) sq = Some (piece, color).
Proof.
  unfold get_pinned_pieces.
  destruct (Board_find_king (board position) color) as [ks|] eqn:Ek; [|intros []].
  intros H. apply in_flat_map in H as [[rd fd] [Hd H]].
  apply pin_scan_In in H as [E|(k & piece & Hk & Hr & Hf & -> & Hp)]; [discriminate|].
  exists ks, rd, fd, k, piece. split; [reflexivity|]. split; [exact Hd|].
  split; [change (Z.of_nat 8) with 8 in Hk; lia|].
  split; [cbn [index]; lia|].
  set (r := Square_rank ks + k * rd) in *. set (f := Square_file ks + k * fd) in *.
  rewrite (Square_rank_div (mkSquare (r * 8 + f))), (Square_file_mod (mkSquare (r * 8 + f)))
    by (cbn [index]; lia). cbn [index].
  split; [|split; [|exact Hp]].
  - rewrite Z.div_add_l by lia. rewrite Z.div_small by lia. lia.
  - rewrite Z.add_comm, Z.mod_add by lia. apply Z.mod_small. lia.
Qed.

Lemma get_pinned_pieces_own_on_king_ray_witness :
  In (mkSquare 12) (get_pinned_pieces (position_of_fen (str "4k3/4r3/8/8/8/8/4N3/4K3 w - - 0 1")) White)
  /\ exists king_square rank_dir file_dir k piece,
    Board_find_king (board (position_of_fen (str "4k3/4r3/8/8/8/8/4N3/4K3 w - - 0 1"))) White
      = Some king_square
    /\ In (rank_dir, file_dir) PIN_DIRECTIONS /\ 1 <= k <= 8
    /\ 0 <= index (mkSquare 12) < 64
    /\ Square_rank (mkSquare 12) = Square_rank king_square + k * rank_dir
    /\ Square_file (mkSquare 12) = Square_file king_square + k * file_dir
    /\ Board_get (board (position_of_fen (str "4k3/4r3/8/8/8/8/4N3/4K3 w - - 0 1"))) (mkSquare 12)
       = Some (piece, White).
Proof.
  assert (H : In (mkSquare 12)
                (get_pinned_pieces (position_of_fen (str "4k3/4r3/8/8/8/8/4N3/4K3 w - - 0 1")) White))
    by (vm_compute; left; reflexivity).
  split; [exact H|].
  exact (get_pinned_pieces_own_on_king_ray _ _ _ H).
Defined.

(** X20: [analyze_all_moves] gives one analysis per legal move, in the order
    of [generate_legal_moves]; in each, [is_capture] holds exactly when a
    captured piece is recorded, the material change is that piece's value (0
    when nothing is captured, at most 900), the category is [Castle] exactly
    for castling moves, it is one of the capturing categories ([Capture],
    [CheckCapture], [PromotionCapture], [EnPassant]) exactly for capturing
    moves that are not castling, and a [Check] or [CheckCapture] category
    means the move gives check. *)
Theorem analyze_all_moves_consistent (position : Position) :
  map move_data (analyze_all_moves position) = generate_legal_moves position
  /\ forall a, In a (analyze_all_moves position) ->
     (is_capture a = true <-> captured_piece a <> None)
     /\ material_change a
        = match captured_piece a with Some piece => piece_value piece | None => 0 end
     /\ 0 <= material_change a <= 900
     /\ (category a = MoveCategory.Castle <-> is_castling (move_data a) = true)
     /\ (category a = MoveCategory.Capture \/ category a = MoveCategory.CheckCapture
         \/ category a = MoveCategory.PromotionCapture \/ category a = MoveCategory.EnPassant
         <-> is_capture a = true /\ is_castling (move_data a) = false)
     /\ (category a = MoveCategory.Check \/ category a = MoveCategory.CheckCapture ->
         is_check a = true).
Proof.
  split.
  { unfold analyze_all_moves. rewrite map_map. apply map_id. }
  intros a H. unfold analyze_all_moves in H. apply in_map_iff in H as [mv [<- _]].
  unfold MoveAnalysis_analyze.
  cbn [is_capture material_change captured_piece category move_data is_check].
  set (c := is_in_check _ _). clearbody c.
  unfold categorize_move.
  destruct (is_castling mv), (is_en_passant mv);
    try destruct (Board_get (board position) (to mv)) as [[pc col]|];
    cbn [option_map fst];
    try destruct pc; destruct (promotion mv); destruct c;
    cbn [piece_value];
    repeat match goal with
           | |- _ /\ _ => split
           | |- _ <-> _ => split
           | |- _ -> _ => intro
           | |- ~ _ => intro
           | H : _ \/ _ |- _ => destruct H
           | H : _ /\ _ |- _ => destruct H
           end;
    solve [ reflexivity | discriminate | congruence | lia
          | repeat (first [left; reflexivity | right]); reflexivity ].
Qed.

Lemma analyze_all_moves_consistent_witness :
  In (nth 0 (analyze_all_moves Position_new) (MoveAnalysis_analyze e2e4 Position_new))
     (analyze_all_moves Position_new)
  /\ map move_data (analyze_all_moves Position_new) = generate_legal_moves Position_new
  /\ material_change (nth 0 (analyze_all_moves Position_new) (MoveAnalysis_analyze e2e4 Position_new))
     = match captured_piece (nth 0 (analyze_all_moves Position_new)
                               (MoveAnalysis_analyze e2e4 Position_new)) with
       | Some piece => piece_value piece
       | None => 0
       end.
Proof.
  assert (H : In (nth 0 (analyze_all_moves Position_new) (MoveAnalysis_analyze e2e4 Position_new))
                 (analyze_all_moves Position_new))
    by (apply nth_In; vm_compute; lia).
  destruct (analyze_all_moves_consistent Position_new) as [Hm Ha].
  split; [exact H|]. split; [exact Hm|].
  apply (Ha _ H).
Defined.

Lemma valid_square_index r f s :
  is_valid_square r f = true -> Square_from_rank_file r f = Some s -> 0 <= index s < 64.
Proof.
  unfold is_valid_square, Square_from_rank_file. intros Hv Hs.
  repeat rewrite andb_true_iff in Hv. rewrite !Z.leb_le, !Z.ltb_lt in Hv.
  destruct ((r <? 8) && (f <? 8)); [|discriminate]. injection Hs as <-. cbn [index]. lia.
Qed.

Ltac split_in H :=
  repeat match type of H with
  | In _ (_ ++ _) => apply in_app_or in H; destruct H as [H|H]
  | In _ [] => destruct H
  | In _ (_ :: _) => destruct H as [H|H]; [subst|]
  | In _ (if ?c then _ else _) => let E := fresh "E" in destruct c eqn:E
  | In _ (match ?x with _ => _ end) => let E := fresh "E" in destruct x eqn:E
  | In _ (promotion_moves _ _) =>
      unfold promotion_moves, PROMOTION_PIECES in H; cbn [map] in H
  end.

Lemma generate_pawn_moves_lands_ok b from_sq color ep mv :
  In mv (generate_pawn_moves b from_sq color ep) -> lands_ok b color from_sq mv.
Proof.
  unfold generate_pawn_moves. cbv zeta. cbn [flat_map app]. intros H.
  split_in H; unfold lands_ok; cbn [from to is_en_passant Move_new];
    repeat split; try reflexivity; try discriminate;
    try (eapply valid_square_index; eassumption);
    intros piece; unfold Board_is_empty in *;
    repeat match goal with
           | E : match ?x with _ => _ end = _ |- _ => destruct x eqn:?; try discriminate
           end;
    try congruence.
  all: intros q Eq; injection Eq as _ Ec; subst;
       match goal with
       | N : negb (Color_eqb ?c ?c) = true |- _ =>
           rewrite (proj2 (Color_eqb_true c c) eq_refl) in N; discriminate N
       end.
Qed.

Ltac lands_close :=
  unfold lands_ok; cbn [from to is_en_passant Move_new];
  repeat match goal with E : negb _ = false |- _ => apply negb_false_iff in E end;
  repeat split; try reflexivity; try discriminate;
  try (eapply valid_square_index; eassumption);
  intros ? piece; unfold Board_is_empty in *;
  repeat match goal with
         | E : match ?x with _ => _ end = _ |- _ => destruct x eqn:?; try discriminate
         end;
  try congruence;
  intros Eq; rewrite Eq in *;
  repeat match goal with
         | E : Some _ = Some _ |- _ => injection E as ? ?; subst
         end;
  match goal with
  | N : negb (Color_eqb ?c ?c) = true |- _ =>
      rewrite (proj2 (Color_eqb_true c c) eq_refl) in N; discriminate N
  end.

Lemma generate_offset_moves_lands_ok offsets b from_sq color mv :
  In mv (generate_offset_moves offsets b from_sq color) -> lands_ok b color from_sq mv.
Proof.
  unfold generate_offset_moves. cbv zeta. intros H.
  apply in_flat_map in H as [[ro fo] [_ H]].
  split_in H; lands_close.
Qed.

Lemma slide_lands_ok b from_sq color rd fd fuel :
  forall rank file mv,
  In mv (slide fuel b from_sq color rank file rd fd) -> lands_ok b color from_sq mv.
Proof.
  induction fuel as [|fuel IH]; intros rank file mv H; [destruct H|].
  cbn [slide] in H. split_in H; try (eapply IH; eassumption); lands_close.
Qed.

Lemma generate_sliding_moves_lands_ok b from_sq color dirs mv :
  In mv (generate_sliding_moves b from_sq color dirs) -> lands_ok b color from_sq mv.
Proof.
  unfold generate_sliding_moves. intros H.
  apply in_flat_map in H as [[rd fd] [_ H]]. eapply slide_lands_ok; eassumption.
Qed.

Lemma generate_castling_moves_shape p mv :
  In mv (generate_castling_moves p) ->
  0 <= index (from mv) < 64 /\ Board_get (board p) (from mv) = Some (King, side_to_move p)
  /\ 0 <= index (to mv) < 64 /\ Board_get (board p) (to mv) = None
  /\ is_en_passant mv = false.
Proof.
  unfold generate_castling_moves. cbv zeta. intros H.
  split_in H;
    repeat match goal with
           | E : _ && _ = true |- _ => apply andb_true_iff in E as [? ?]
           end;
    unfold is_own_piece, Board_is_empty in *;
    repeat match goal with
           | E : is_piece _ _ _ = true |- _ => apply is_piece_true in E
           end;
    cbn [from to is_en_passant];
    destruct (Color_eqb (side_to_move p) White); cbn [index];
    repeat split; try lia; try reflexivity; try assumption;
    match goal with
    | E : match ?x with _ => _ end = true |- ?x = None => destruct x; [discriminate|reflexivity]
    end.
Qed.

Lemma generate_pseudo_legal_moves_shape p mv :
  In mv (generate_pseudo_legal_moves p) ->
  0 <= index (from mv) < 64
  /\ (exists piece, Board_get (board p) (from mv) = Some (piece, side_to_move p))
  /\ 0 <= index (to mv) < 64
  /\ (is_en_passant mv = false ->
      forall piece, Board_get (board p) (to mv) <> Some (piece, side_to_move p)).
Proof.
  unfold generate_pseudo_legal_moves. intros H. apply in_app_or in H as [H|H].
  - apply in_flat_map in H as [[sq piece] [Hp H]].
    apply Board_pieces_of_color_In_iff in Hp as [Hr Hg].
    assert (L : lands_ok (board p) (side_to_move p) sq mv).
    { destruct piece.
      - eapply generate_pawn_moves_lands_ok; eassumption.
      - eapply generate_offset_moves_lands_ok; eassumption.
      - eapply generate_sliding_moves_lands_ok; eassumption.
      - eapply generate_sliding_moves_lands_ok; eassumption.
      - apply in_app_or in H as [H|H]; eapply generate_sliding_moves_lands_ok; eassumption.
      - eapply generate_offset_moves_lands_ok; eassumption. }
    destruct L as (-> & Ht & He).
    split; [exact Hr|]. split; [exists piece; exact Hg|]. split; [exact Ht|exact He].
  - apply generate_castling_moves_shape in H as (Hr & Hg & Ht & He & _).
    split; [exact Hr|]. split; [exists King; exact Hg|]. split; [exact Ht|].
    intros _ piece. rewrite He. discriminate.
Qed.

(** X21: every legal move [generate_legal_moves] produces passes
    [is_legal_move], starts on an in-range square holding a piece of the
    side to move, ends on an in-range square, and, unless it is en passant,
    does not end on a piece of the side to move. *)
Theorem generate_legal_moves_shape (position : Position) (mv : Move) :
  In mv (generate_legal_moves position) ->
  is_legal_move position mv = true
  /\ 0 <= index (from mv) < 64
  /\ (exists piece, Board_get (board position) (from mv) = Some (piece, side_to_move position))
  /\ 0 <= index (to mv) < 64
  /\ (is_en_passant mv = false ->
      forall piece, Board_get (board position) (to mv) <> Some (piece, side_to_move position)).
Proof.
  unfold generate_legal_moves. intros H. apply filter_In in H as [H Hl].
  split; [exact Hl|]. apply generate_pseudo_legal_moves_shape. exact H.
Qed.

Lemma generate_legal_moves_shape_witness :
  In e2e4 (generate_legal_moves Position_new)
  /\ is_legal_move Position_new e2e4 = true
  /\ 0 <= index (from e2e4) < 64
  /\ (exists piece, Board_get (board Position_new) (from e2e4) = Some (piece, side_to_move Position_new))
  /\ 0 <= index (to e2e4) < 64
  /\ (is_en_passant e2e4 = false ->
      forall piece, Board_get (board Position_new) (to e2e4) <> Some (piece, side_to_move Position_new)).
Proof.
  assert (H : In e2e4 (generate_legal_moves Position_new)).
  { assert (E : nth 13 (generate_legal_moves Position_new) e2e4 = e2e4)
      by (vm_compute; reflexivity).
    rewrite <- E at 1. apply nth_In. vm_compute. lia. }
  split; [exact H|]. exact (generate_legal_moves_shape _ _ H).
Defined.

Lemma material_balance_fold (b : Board) (l : list Z) :
  Forall (fun i => 0 <= i < 64) l -> forall w bl,
  let '(w', bl') :=
    fold_left (fun '(w, bl) square_idx =>
      match Square_new square_idx with
      | Some square =>
          match Board_get b square with
          | Some (piece, color) =>
              let value := piece_value piece in
              match color with
              | White => (w + value, bl)
              | Black => (w, bl + value)
              end
          | None => (w, bl)
          end
      | None => (w, bl)
      end) l (w, bl) in
  w' - bl' = w - bl + zsum (map (fun i => cell_material (Board_get b (mkSquare i))) l).
Proof.
  induction 1 as [|i l Hi Hl IH]; intros w bl; [cbn; lia|].
  cbn [fold_left map zsum fold_right].
  unfold Square_new. rewrite (proj2 (Z.ltb_lt i 64) ltac:(lia)).
  destruct (Board_get b (mkSquare i)) as [[piece []]|]; cbn [cell_material];
    [specialize (IH (w + piece_value piece) bl)|specialize (IH w (bl + piece_value piece))
    |specialize (IH w bl)];
    destruct (fold_left _ l _) as [w' bl']; unfold zsum in IH |- *; lia.
Qed.

Lemma ALL_SQUARES_range_Forall : Forall (fun i => 0 <= i < 64) ALL_SQUARES.
Proof. apply Forall_forall. intros i Hi. apply ALL_SQUARES_range. exact Hi. Qed.

Lemma material_balance_zsum (p : Position) :
  material_balance p = zsum (map (fun i => cell_material (Board_get (board p) (mkSquare i))) ALL_SQUARES).
Proof.
  unfold material_balance.
  pose proof (material_balance_fold (board p) ALL_SQUARES ALL_SQUARES_range_Forall 0 0) as H.
  destruct (fold_left _ ALL_SQUARES (0, 0)) as [w bl]. lia.
Qed.

Lemma piece_square_value_fold (b : Board) (l : list Z) :
  Forall (fun i => 0 <= i < 64) l -> forall score,
  fold_left (fun score square_idx =>
    match Square_new square_idx with
    | Some square =>
        match Board_get b square with
        | Some (piece, color) => score + get_piece_square_value piece color square_idx
        | None => score
        end
    | None => score
    end) l score
  = score + zsum (map (fun i => cell_psqt i (Board_get b (mkSquare i))) l).
Proof.
  induction 1 as [|i l Hi Hl IH]; intros score; [cbn; lia|].
  cbn [fold_left map zsum fold_right].
  unfold Square_new. rewrite (proj2 (Z.ltb_lt i 64) ltac:(lia)).
  rewrite IH. unfold zsum, cell_psqt.
  destruct (Board_get b (mkSquare i)) as [[piece color]|]; lia.
Qed.

Lemma piece_square_value_zsum (p : Position) :
  piece_square_value p
  = zsum (map (fun i => cell_psqt i (Board_get (board p) (mkSquare i))) ALL_SQUARES).
Proof.
  unfold piece_square_value.
  rewrite (piece_square_value_fold (board p) ALL_SQUARES ALL_SQUARES_range_Forall 0). lia.
Qed.

Lemma mirror_index_div_mod i :
  0 <= i < 64 -> mirror_index i / 8 = 7 - i / 8 /\ mirror_index i mod 8 = i mod 8
                 /\ 0 <= mirror_index i < 64.
Proof.
  intros Hi. unfold mirror_index.
  assert (0 <= i mod 8 < 8) by (apply Z.mod_pos_bound; lia).
  assert (0 <= i / 8 < 8) by (split; [apply Z.div_pos|apply Z.div_lt_upper_bound]; lia).
  split; [|split].
  - rewrite Z.div_add_l by lia. rewrite (Z.div_small (i mod 8)) by lia. lia.
  - rewrite Z.add_comm, Z.mod_add by lia. apply Z.mod_small. lia.
  - lia.
Qed.

Lemma cell_material_flip c : cell_material (cell_flip c) = - cell_material c.
Proof. destruct c as [[piece []]|]; cbn; lia. Qed.

Lemma cell_psqt_flip i c :
  0 <= i < 64 -> cell_psqt i (cell_flip c) = - cell_psqt (mirror_index i) c.
Proof.
  intros Hi. destruct (mirror_index_div_mod i Hi) as (Hd & Hm & _).
  destruct c as [[piece color]|]; [|reflexivity].
  unfold cell_flip, cell_psqt, get_piece_square_value. cbn [option_map].
  rewrite Hd, Hm.
  destruct color; cbn [Color_opposite]; replace (7 - (7 - i / 8)) with (i / 8) by lia;
    destruct piece; lia.
Qed.

Lemma zsum_map_ext (f g : Z -> Z) (l : list Z) :
  (forall i, In i l -> f i = g i) -> zsum (map f l) = zsum (map g l).
Proof. intros H. f_equal. apply map_ext_in. exact H. Qed.

Lemma zsum_map_opp (f : Z -> Z) (l : list Z) :
  zsum (map (fun i => - f i) l) = - zsum (map f l).
Proof. induction l as [|i l IH]; cbn; [reflexivity|]. unfold zsum in IH. lia. Qed.

Lemma map_mirror_ALL_SQUARES :
  map mirror_index ALL_SQUARES
  = [56; 57; 58; 59; 60; 61; 62; 63; 48; 49; 50; 51; 52; 53; 54; 55;
     40; 41; 42; 43; 44; 45; 46; 47; 32; 33; 34; 35; 36; 37; 38; 39;
     24; 25; 26; 27; 28; 29; 30; 31; 16; 17; 18; 19; 20; 21; 22; 23;
     8; 9; 10; 11; 12; 13; 14; 15; 0; 1; 2; 3; 4; 5; 6; 7].
Proof. vm_compute. reflexivity. Qed.

(** Summing over the mirrored squares is summing over all squares. *)
Lemma zsum_mirror (f : Z -> Z) :
  zsum (map (fun i => f (mirror_index i)) ALL_SQUARES) = zsum (map f ALL_SQUARES).
Proof.
  rewrite <- (map_map mirror_index f), map_mirror_ALL_SQUARES.
  unfold ALL_SQUARES. cbn [map zsum fold_right]. lia.
Qed.

(** X22: the static part of [Evaluator::evaluate] is colour-symmetric: if
    position [q] is position [p] with the board turned round (each square's
    piece moved to the same file on the rank seen from the other side) and
    the colours of all pieces swapped, then [material_balance] and
    [piece_square_value] of [q] are the negations of those of [p]. *)
Theorem static_evaluation_colour_mirror (p q : Position) :
  (forall i, 0 <= i < 64 ->
     Board_get (board q) (mkSquare i) = cell_flip (Board_get (board p) (mkSquare (mirror_index i)))) ->
  material_balance q = - material_balance p
  /\ piece_square_value q = - piece_square_value p.
Proof.
  intros H. rewrite !material_balance_zsum, !piece_square_value_zsum. split.
  - rewrite (zsum_map_ext _ (fun i => - cell_material (Board_get (board p) (mkSquare (mirror_index i))))).
    + rewrite zsum_map_opp.
      rewrite (zsum_mirror (fun j => cell_material (Board_get (board p) (mkSquare j)))). reflexivity.
    + intros i Hi. rewrite H by (apply ALL_SQUARES_range; exact Hi). apply cell_material_flip.
  - rewrite (zsum_map_ext _ (fun i => - cell_psqt (mirror_index i)
                                        (Board_get (board p) (mkSquare (mirror_index i))))).
    + rewrite zsum_map_opp.
      rewrite (zsum_mirror (fun j => cell_psqt j (Board_get (board p) (mkSquare j)))). reflexivity.
    + intros i Hi. pose proof (ALL_SQUARES_range i Hi) as Hr.
      rewrite H by exact Hr. apply cell_psqt_flip. exact Hr.
Qed.

Lemma static_evaluation_colour_mirror_witness :
  (forall i, 0 <= i < 64 ->
     Board_get (board (position_of_fen (str "4k3/4p3/8/8/8/8/8/4K3 w - - 0 1"))) (mkSquare i)
     = cell_flip (Board_get (board (position_of_fen (str "4k3/8/8/8/8/8/4P3/4K3 w - - 0 1")))
                   (mkSquare (mirror_index i))))
  /\ material_balance (position_of_fen (str "4k3/4p3/8/8/8/8/8/4K3 w - - 0 1"))
     = - material_balance (position_of_fen (str "4k3/8/8/8/8/8/4P3/4K3 w - - 0 1"))
  /\ piece_square_value (position_of_fen (str "4k3/4p3/8/8/8/8/8/4K3 w - - 0 1"))
     = - piece_square_value (position_of_fen (str "4k3/8/8/8/8/8/4P3/4K3 w - - 0 1")).
Proof.
  assert (H : forall i, 0 <= i < 64 ->
     Board_get (board (position_of_fen (str "4k3/4p3/8/8/8/8/8/4K3 w - - 0 1"))) (mkSquare i)
     = cell_flip (Board_get (board (position_of_fen (str "4k3/8/8/8/8/8/4P3/4K3 w - - 0 1")))
                   (mkSquare (mirror_index i)))).
  { intros i Hi. apply ALL_SQUARES_In in Hi.
    repeat (destruct Hi as [<-|Hi]; [vm_compute; reflexivity|]). destruct Hi. }
  split; [exact H|].
  exact (static_evaluation_colour_mirror _ _ H).
Defined.

Lemma fold_left_ext_In {A B} (f g : A -> B -> A) (l : list B) :
  (forall acc i, In i l -> f acc i = g acc i) -> forall acc, fold_left f l acc = fold_left g l acc.
Proof.
  induction l as [|i l IH]; intros H acc; [reflexivity|]. cbn [fold_left].
  rewrite (H acc i (or_introl eq_refl)). apply IH. intros acc' j Hj. apply H. right. exact Hj.
Qed.

(** X23: [compute_zobrist_hash] reads only the pieces on the 64 squares, the
    castling rights, the file of the en passant target and the side to move:
    positions that agree on these have the same hash, whatever their clocks,
    their history or the rank of their en passant target. *)
Theorem zobrist_hash_depends_on (p q : Position) :
  (forall i, 0 <= i < 64 -> Board_get (board p) (mkSquare i) = Board_get (board q) (mkSquare i)) ->
  side_to_move p = side_to_move q ->
  castling_rights p = castling_rights q ->
  option_map Square_file (en_passant_target p) = option_map Square_file (en_passant_target q) ->
  Position_compute_zobrist_hash p = Position_compute_zobrist_hash q.
Proof.
  intros Hb Hs Hc He. unfold Position_compute_zobrist_hash.
  rewrite Hs, Hc.
  rewrite (fold_left_ext_In _
    (fun hash i =>
       match Board_get (board q) (mkSquare i) with
       | Some (piece, color) =>
           Z.lxor hash (nth (Z.to_nat (i * 12 + color_index color * 6 + piece_index piece))
                           ZOBRIST_PIECES 0)
       | None => hash
       end)).
  2:{ intros acc i Hi. rewrite Hb by (apply ALL_SQUARES_range; exact Hi). reflexivity. }
  destruct (en_passant_target p) as [e1|], (en_passant_target q) as [e2|];
    cbn [option_map] in He; try discriminate; [|reflexivity].
  injection He as He. rewrite He. reflexivity.
Qed.

Lemma zobrist_hash_depends_on_witness :
  Position_compute_zobrist_hash (with_en_passant_target Position_new (Some (mkSquare 20)))
  = Position_compute_zobrist_hash
      (with_en_passant_target (with_halfmove_clock Position_new 7) (Some (mkSquare 44))).
Proof.
  apply zobrist_hash_depends_on;
    [intros; reflexivity | reflexivity | reflexivity | vm_compute; reflexivity].
Defined.

Lemma is_in_check_board p q color :
  board p = board q -> is_in_check p color = is_in_check q color.
Proof. intros H. unfold is_in_check. rewrite H. reflexivity. Qed.

(** X24: after a successful [make_move] of a move that is neither castling
    nor en passant, the side that moved is not in check: the board
    [is_legal_move] tests is the board the move produces. *)
Theorem make_move_leaves_mover_safe (g : ChessGame) (mv : Move) (g' : ChessGame) :
  make_move g mv = (Ok tt, g') ->
  is_castling mv = false -> is_en_passant mv = false ->
  is_in_check (position g') (side_to_move (position g)) = false.
Proof.
  intros H Hc He.
  apply make_move_ok in H as (_ & Hl & g2 & E & ->).
  apply apply_move_to_position_ok in E as (Hb & _).
  specialize (Hb Hc He).
  unfold is_legal_move in Hl. rewrite Hc in Hl. cbv zeta in Hl.
  apply negb_true_iff in Hl. rewrite <- Hl.
  apply is_in_check_board.
  cbn [position with_status with_move_history]. rewrite Hb.
  unfold apply_move_for_validation, apply_normal_move. rewrite Hc, He. reflexivity.
Qed.

Lemma make_move_leaves_mover_safe_witness :
  make_move ChessGame_new e2e4 = (Ok tt, snd (make_move ChessGame_new e2e4))
  /\ is_in_check (position (snd (make_move ChessGame_new e2e4))) (side_to_move (position ChessGame_new))
     = false.
Proof.
  assert (H : make_move ChessGame_new e2e4 = (Ok tt, snd (make_move ChessGame_new e2e4)))
    by (vm_compute; reflexivity).
  split; [exact H|].
  exact (make_move_leaves_mover_safe _ _ _ H eq_refl eq_refl).
Defined.
